(** * Swish settlement contracts: a shallow embedding and its properties

    The four Solidity contracts of [contracts/src] (TokenRegistry,
    DocumentRegistry, PaymentProcessor, RecurringPayment) are embedded as
    functions over explicit contract storage.

    - [uint256], [bytes32] and [address] values are integers ([Z]); the
      checked arithmetic of Solidity 0.8 is written out ([checked_add],
      [checked_mul], ...) and reverts with [Panic 0x11] outside
      [0, 2^256).
    - A Solidity [mapping] is a finite map read with a default: a key
      that was never written reads as the zero value.
    - An external call either returns the new storage or reverts; a
      revert discards every write of the call ([commit]).
    - [keccak256] and [ECDSA.recover] are parameters of the development:
      every theorem holds for any choice of them. *)

From Stdlib Require Import ZArith Lia Bool.
From stdpp Require Import base option gmap strings list.

Local Open Scope string_scope.
Local Open Scope list_scope.
Local Open Scope Z_scope.

(** ** Values, reverts and checked arithmetic *)

Abbreviation address := Z (only parsing).
Abbreviation bytes32 := Z (only parsing).
Abbreviation uint256 := Z (only parsing).
Abbreviation bytes := (list Z) (only parsing).

Definition MAX_UINT256 : Z := 2 ^ 256 - 1.

(** The roles of OpenZeppelin's AccessControl used by the contracts (each
    one is the keccak256 of its name in the source). *)
Inductive Role :=
| DEFAULT_ADMIN_ROLE
| ADMIN_ROLE
| PAYMENT_MANAGER_ROLE
| PRICE_FEEDER_ROLE
| DOCUMENT_MANAGER_ROLE.

Definition Role_code (r : Role) : Z :=
  match r with
  | DEFAULT_ADMIN_ROLE => 0
  | ADMIN_ROLE => 1
  | PAYMENT_MANAGER_ROLE => 2
  | PRICE_FEEDER_ROLE => 3
  | DOCUMENT_MANAGER_ROLE => 4
  end.

#[global] Instance Role_eq_dec : EqDecision Role.
Proof. solve_decision. Defined.

#[global] Instance Role_code_inj : Inj (=) (=) Role_code.
Proof. intros [] []; simpl; intros H; try reflexivity; discriminate H. Qed.

#[global] Instance Role_countable : Countable Role :=
  inj_countable' Role_code
    (fun z => if z =? 1 then ADMIN_ROLE
              else if z =? 2 then PAYMENT_MANAGER_ROLE
              else if z =? 3 then PRICE_FEEDER_ROLE
              else if z =? 4 then DOCUMENT_MANAGER_ROLE
              else DEFAULT_ADMIN_ROLE)
    ltac:(intros []; reflexivity).

(** Why a call reverted. [RequireFailed] carries the reason string of the
    failing [require]; the others are the custom errors of the OpenZeppelin
    contracts the sources inherit from or call. *)
Inductive Error :=
| RequireFailed (reason : string)
| Panic (code : Z)
| AccessControlUnauthorizedAccount (account : address) (role : Role)
| ECDSAInvalidSignature
| ERC20InsufficientAllowance (spender : address) (allowance needed : uint256)
| ERC20InsufficientBalance (sender : address) (balance needed : uint256)
| ERC20InvalidSender (a : address)
| ERC20InvalidReceiver (a : address)
| ERC20InvalidApprover (a : address)
| ERC20InvalidSpender (a : address)
| CallToNonContract (a : address).

Inductive result (A : Type) :=
| Ok (a : A)
| Revert (e : Error).

Arguments Ok {A} a.
Arguments Revert {A} e.

Definition bind {A B} (r : result A) (k : A -> result B) : result B :=
  match r with
  | Ok a => k a
  | Revert e => Revert e
  end.

Notation "'let*' x ':=' e 'in' k" := (bind e (fun x => k))
  (at level 10, x pattern, e at level 100, k at level 200).

Definition require (cond : bool) (reason : string) : result unit :=
  if cond then Ok tt else Revert (RequireFailed reason).

Definition is_ok {A} (r : result A) : bool :=
  match r with Ok _ => true | Revert _ => false end.

(** The storage after a transaction that ran [r] from storage [s]: a
    revert rolls every write back. *)
Definition commit {S} (s : S) (r : result S) : S :=
  match r with Ok s' => s' | Revert _ => s end.

Definition in_uint256 (z : Z) : bool := (0 <=? z) && (z <=? MAX_UINT256).

Definition checked (z : Z) : result uint256 :=
  if in_uint256 z then Ok z else Revert (Panic 17).

Definition checked_add (a b : uint256) : result uint256 := checked (a + b).
Definition checked_sub (a b : uint256) : result uint256 := checked (a - b).
Definition checked_mul (a b : uint256) : result uint256 := checked (a * b).
Definition checked_pow (a b : uint256) : result uint256 := checked (a ^ b).
Definition checked_div (a b : uint256) : result uint256 :=
  if b =? 0 then Revert (Panic 18) else Ok (a / b).

(** The error classes of the specification, and the class of each revert.
    The contracts only carry reason strings and custom errors; the
    grouping below follows the taxonomy of the specification's error
    section. *)
Inductive ErrorKind :=
| ValidationError
| AuthorizationError
| StateConflictError
| TransferError
| ArithmeticError.

Definition state_conflict_reasons : list string :=
  [ "Payment ID already used"; "Payment already processed";
    "Payment is not active"; "Payment not due yet"; "ID already exists";
    "Document already registered"; "Document already revoked";
    "Token already exists" ].

Definition authorization_reasons : list string :=
  [ "Invalid signature"; "Not authorized" ].

Definition errorKind (e : Error) : ErrorKind :=
  match e with
  | RequireFailed reason =>
      if bool_decide (reason ∈ state_conflict_reasons) then StateConflictError
      else if bool_decide (reason ∈ authorization_reasons) then AuthorizationError
      else ValidationError
  | Panic _ => ArithmeticError
  | AccessControlUnauthorizedAccount _ _ => AuthorizationError
  | ECDSAInvalidSignature => AuthorizationError
  | ERC20InsufficientAllowance _ _ _ => TransferError
  | ERC20InsufficientBalance _ _ _ => TransferError
  | ERC20InvalidSender _ => TransferError
  | ERC20InvalidReceiver _ => TransferError
  | ERC20InvalidApprover _ => TransferError
  | ERC20InvalidSpender _ => TransferError
  | CallToNonContract _ => TransferError
  end.

(** What [abi.encodePacked] is applied to before hashing. *)
Inductive AbiValue :=
| Bytes32 (b : bytes32)
| Address (a : address)
| Uint256 (n : uint256)
| Str (s : string).

(** The transaction context of a call. *)
Record Env := mkEnv {
  msg_sender : address;
  this : address;
  block_timestamp : uint256
}.

(** ** AccessControl *)

Definition hasRole (roles : gset (Role * address)) (role : Role)
    (account : address) : bool :=
  bool_decide ((role, account) ∈ roles).

Definition onlyRole (roles : gset (Role * address)) (role : Role)
    (env : Env) : result unit :=
  if hasRole roles role (msg_sender env) then Ok tt
  else Revert (AccessControlUnauthorizedAccount (msg_sender env) role).

Definition _grantRole (roles : gset (Role * address)) (role : Role)
    (account : address) : gset (Role * address) :=
  {[ (role, account) ]} ∪ roles.

(** The public functions of AccessControl that the contracts inherit.  No
    contract of the repository sets a role's admin, so the admin of every
    role is [DEFAULT_ADMIN_ROLE]. *)
Module AccessControl.

Definition getRoleAdmin (role : Role) : Role := DEFAULT_ADMIN_ROLE.

Definition _revokeRole (roles : gset (Role * address)) (role : Role)
    (account : address) : gset (Role * address) :=
  roles ∖ {[ (role, account) ]}.

Definition grantRole (env : Env) (roles : gset (Role * address))
    (role : Role) (account : address) : result (gset (Role * address)) :=
  let* _ := onlyRole roles (getRoleAdmin role) env in
  Ok (_grantRole roles role account).

Definition revokeRole (env : Env) (roles : gset (Role * address))
    (role : Role) (account : address) : result (gset (Role * address)) :=
  let* _ := onlyRole roles (getRoleAdmin role) env in
  Ok (_revokeRole roles role account).

End AccessControl.

(** ** The ERC20 tokens behind [IERC20]

    The token contracts are not part of the repository: the processor
    reaches them through [IERC20] and [SafeERC20].  They are taken to be
    OpenZeppelin ERC20 tokens (the [MockToken] of the repository's test
    inherits that contract): one balance and allowance table per token
    address, and a [Transfer] event per movement. *)
Module ERC20.

Record Transfer := mkTransfer {
  token : address;
  from : address;
  to : address;
  value : uint256
}.

Record Ledger := mkLedger {
  _balances : gmap (address * address) uint256;
  _allowances : gmap (address * address * address) uint256;
  transfers : list Transfer
}.

Definition balanceOf (l : Ledger) (tok account : address) : uint256 :=
  default 0 (_balances l !! (tok, account)).

Definition allowance (l : Ledger) (tok owner spender : address) : uint256 :=
  default 0 (_allowances l !! (tok, owner, spender)).

Definition _update (l : Ledger) (tok src dst : address) (v : uint256)
    : result Ledger :=
  let fromBalance := balanceOf l tok src in
  if fromBalance <? v then Revert (ERC20InsufficientBalance src fromBalance v)
  else
    let b1 := <[(tok, src) := fromBalance - v]> (_balances l) in
    let b2 := <[(tok, dst) := default 0 (b1 !! (tok, dst)) + v]> b1 in
    Ok {| _balances := b2;
          _allowances := _allowances l;
          transfers := transfers l ++ [mkTransfer tok src dst v] |}.

Definition _transfer (l : Ledger) (tok src dst : address) (v : uint256)
    : result Ledger :=
  if src =? 0 then Revert (ERC20InvalidSender 0)
  else if dst =? 0 then Revert (ERC20InvalidReceiver 0)
  else _update l tok src dst v.

Definition _approve (l : Ledger) (tok owner spender : address) (v : uint256)
    : result Ledger :=
  if owner =? 0 then Revert (ERC20InvalidApprover 0)
  else if spender =? 0 then Revert (ERC20InvalidSpender 0)
  else Ok {| _balances := _balances l;
             _allowances := <[(tok, owner, spender) := v]> (_allowances l);
             transfers := transfers l |}.

Definition _spendAllowance (l : Ledger) (tok owner spender : address)
    (v : uint256) : result Ledger :=
  let currentAllowance := allowance l tok owner spender in
  if currentAllowance <? MAX_UINT256 then
    if currentAllowance <? v
    then Revert (ERC20InsufficientAllowance spender currentAllowance v)
    else _approve l tok owner spender (currentAllowance - v)
  else Ok l.

(** [caller] is the [msg.sender] of the token call. *)
Definition transfer (caller : address) (l : Ledger) (tok dst : address)
    (v : uint256) : result Ledger :=
  _transfer l tok caller dst v.

Definition approve (caller : address) (l : Ledger) (tok spender : address)
    (v : uint256) : result Ledger :=
  _approve l tok caller spender v.

Definition transferFrom (caller : address) (l : Ledger) (tok src dst : address)
    (v : uint256) : result Ledger :=
  let* l1 := _spendAllowance l tok src caller v in
  _transfer l1 tok src dst v.

End ERC20.

(** ** PaymentProcessor.sol *)
Module PaymentProcessor.

Record PaymentRecord := mkPaymentRecord {
  paymentId : bytes32;
  payer : address;
  payee : address;
  tokenAddress : address;
  amount : uint256;
  feeAmount : uint256;
  timestamp : uint256;
  referenceHash : bytes32
}.

Inductive Event :=
| PaymentProcessed (paymentId : bytes32) (payer payee tokenAddress : address)
    (amount feeAmount : uint256) (referenceHash : bytes32)
| FeeUpdated (newFeePercentage : uint256)
| FeeCollectorUpdated (newFeeCollector : address).

Record Storage := mkStorage {
  feeCollector : address;
  platformFeePercentage : uint256;
  tokenRegistry : address;
  payments : gmap bytes32 PaymentRecord;
  processedPayments : gmap bytes32 bool;
  _roles : gset (Role * address);
  events : list Event
}.

Definition MAX_FEE : uint256 := 500.

(** [payments[id]] and [processedPayments[h]]: unset keys read as zero. *)
Definition payments_at (st : Storage) (id : bytes32) : PaymentRecord :=
  default (mkPaymentRecord 0 0 0 0 0 0 0 0) (payments st !! id).

Definition processed_at (st : Storage) (h : bytes32) : bool :=
  default false (processedPayments st !! h).

Definition set_payment (st : Storage) (h : bytes32) (r : PaymentRecord)
    : Storage :=
  {| feeCollector := feeCollector st;
     platformFeePercentage := platformFeePercentage st;
     tokenRegistry := tokenRegistry st;
     payments := <[paymentId r := r]> (payments st);
     processedPayments := <[h := true]> (processedPayments st);
     _roles := _roles st;
     events := events st |}.

Definition emit (st : Storage) (e : Event) : Storage :=
  {| feeCollector := feeCollector st;
     platformFeePercentage := platformFeePercentage st;
     tokenRegistry := tokenRegistry st;
     payments := payments st;
     processedPayments := processedPayments st;
     _roles := _roles st;
     events := events st ++ [e] |}.

Definition constructor (env : Env) (_feeCollector : address)
    (_feePercentage : uint256) (_tokenRegistry : address) : result Storage :=
  let* _ := require (negb (_feeCollector =? 0)) "Invalid fee collector" in
  let* _ := require (_feePercentage <=? MAX_FEE) "Fee too high" in
  let* _ := require (negb (_tokenRegistry =? 0)) "Invalid token registry" in
  Ok {| feeCollector := _feeCollector;
        platformFeePercentage := _feePercentage;
        tokenRegistry := _tokenRegistry;
        payments := ∅;
        processedPayments := ∅;
        _roles := _grantRole (_grantRole (_grantRole ∅
                    DEFAULT_ADMIN_ROLE (msg_sender env))
                    ADMIN_ROLE (msg_sender env))
                    PAYMENT_MANAGER_ROLE (msg_sender env);
        events := [] |}.

Definition grantRole (env : Env) (st : Storage) (role : Role)
    (account : address) : result Storage :=
  let* _ := onlyRole (_roles st) DEFAULT_ADMIN_ROLE env in
  Ok {| feeCollector := feeCollector st;
        platformFeePercentage := platformFeePercentage st;
        tokenRegistry := tokenRegistry st;
        payments := payments st;
        processedPayments := processedPayments st;
        _roles := _grantRole (_roles st) role account;
        events := events st |}.

Section Hashing.

Variable keccak256 : list AbiValue -> bytes32.
(** [ECDSA.recover]: [None] when the library reverts on the signature. *)
Variable recover : bytes32 -> bytes -> option address.

Definition paymentHash (_paymentId : bytes32) (_payee _tokenAddress : address)
    (_amount : uint256) : bytes32 :=
  keccak256 [Bytes32 _paymentId; Address _payee; Address _tokenAddress;
             Uint256 _amount].

Definition ethSignedMessageHash (_paymentId : bytes32)
    (_payee _tokenAddress : address) (_amount : uint256)
    (_referenceHash : bytes32) : bytes32 :=
  let messageHash :=
    keccak256 [Bytes32 _paymentId; Address _payee; Address _tokenAddress;
               Uint256 _amount; Bytes32 _referenceHash] in
  keccak256 [Str "\x19Ethereum Signed Message:\n32"; Bytes32 messageHash].

(** Lines 86-98: the signature is looked at only when the caller is not a
    payment manager. *)
Definition verifySignature (env : Env) (st : Storage) (_paymentId : bytes32)
    (_payee _tokenAddress : address) (_amount : uint256)
    (_referenceHash : bytes32) (_signature : bytes) : result unit :=
  if negb (hasRole (_roles st) PAYMENT_MANAGER_ROLE (msg_sender env)) then
    match recover (ethSignedMessageHash _paymentId _payee _tokenAddress
                     _amount _referenceHash) _signature with
    | None => Revert ECDSAInvalidSignature
    | Some signer =>
        require (hasRole (_roles st) PAYMENT_MANAGER_ROLE signer)
          "Invalid signature"
    end
  else Ok tt.

Definition processPayment (env : Env) (st : Storage) (led : ERC20.Ledger)
    (_paymentId : bytes32) (_payee _tokenAddress : address)
    (_amount : uint256) (_referenceHash : bytes32) (_signature : bytes)
    : result (Storage * ERC20.Ledger) :=
  let* _ := require (negb (_payee =? 0)) "Invalid payee" in
  let* _ := require (negb (_tokenAddress =? 0)) "Invalid token" in
  let* _ := require (0 <? _amount) "Amount must be greater than 0" in
  let* _ := require (paymentId (payments_at st _paymentId) =? 0)
              "Payment ID already used" in
  let h := paymentHash _paymentId _payee _tokenAddress _amount in
  let* _ := require (negb (processed_at st h)) "Payment already processed" in
  let* _ := verifySignature env st _paymentId _payee _tokenAddress _amount
              _referenceHash _signature in
  let* product := checked_mul _amount (platformFeePercentage st) in
  let fee := product / 10000 in
  let* payeeAmount := checked_sub _amount fee in
  let st1 := set_payment st h
    {| paymentId := _paymentId;
       payer := msg_sender env;
       payee := _payee;
       tokenAddress := _tokenAddress;
       amount := _amount;
       feeAmount := fee;
       timestamp := block_timestamp env;
       referenceHash := _referenceHash |} in
  let* led1 := ERC20.transferFrom (this env) led _tokenAddress
                 (msg_sender env) _payee payeeAmount in
  let* led2 := if 0 <? fee
               then ERC20.transferFrom (this env) led1 _tokenAddress
                      (msg_sender env) (feeCollector st1) fee
               else Ok led1 in
  Ok (emit st1 (PaymentProcessed _paymentId (msg_sender env) _payee
                  _tokenAddress _amount fee _referenceHash),
      led2).

(** First loop of [processBatchPayment] (lines 165-190), from index [i] on:
    the loop runs over [_amounts]; reading another array past its end is
    the out-of-bounds panic 0x32. *)
Fixpoint validateItems (env : Env) (_tokenAddress : address)
    (_paymentIds : list bytes32) (_payees : list address)
    (_amounts : list uint256) (_referenceHashes : list bytes32)
    (st : Storage) (totalAmount totalFees : uint256) {struct _amounts}
    : result (Storage * uint256 * uint256) :=
  match _amounts with
  | [] => Ok (st, totalAmount, totalFees)
  | a :: amounts' =>
      match _payees, _paymentIds, _referenceHashes with
      | p :: payees', id :: ids', r :: refs' =>
          let* _ := require (negb (p =? 0)) "Invalid payee" in
          let* _ := require (0 <? a) "Amount must be greater than 0" in
          let* _ := require (paymentId (payments_at st id) =? 0)
                      "Payment ID already used" in
          let h := paymentHash id p _tokenAddress a in
          let* _ := require (negb (processed_at st h))
                      "Payment already processed" in
          let* product := checked_mul a (platformFeePercentage st) in
          let fee := product / 10000 in
          let st1 := set_payment st h
            {| paymentId := id;
               payer := msg_sender env;
               payee := p;
               tokenAddress := _tokenAddress;
               amount := a;
               feeAmount := fee;
               timestamp := block_timestamp env;
               referenceHash := r |} in
          let* totalAmount1 := checked_add totalAmount a in
          let* totalFees1 := checked_add totalFees fee in
          validateItems env _tokenAddress ids' payees' amounts' refs'
            st1 totalAmount1 totalFees1
      | _, _, _ => Revert (Panic 50)
      end
  end.

(** Second loop (lines 197-212), over [_payees]. *)
Fixpoint distributeItems (env : Env) (_tokenAddress : address)
    (_paymentIds : list bytes32) (_payees : list address)
    (_amounts : list uint256) (_referenceHashes : list bytes32)
    (st : Storage) (led : ERC20.Ledger) {struct _payees}
    : result (Storage * ERC20.Ledger) :=
  match _payees with
  | [] => Ok (st, led)
  | p :: payees' =>
      match _amounts, _paymentIds, _referenceHashes with
      | a :: amounts', id :: ids', r :: refs' =>
          let* product := checked_mul a (platformFeePercentage st) in
          let fee := product / 10000 in
          let* payeeAmount := checked_sub a fee in
          let* led1 := ERC20.transfer (this env) led _tokenAddress p
                         payeeAmount in
          let st1 := emit st (PaymentProcessed id (msg_sender env) p
                                _tokenAddress a fee r) in
          distributeItems env _tokenAddress ids' payees' amounts' refs'
            st1 led1
      | _, _, _ => Revert (Panic 50)
      end
  end.

Definition processBatchPayment (env : Env) (st : Storage)
    (led : ERC20.Ledger) (_paymentIds : list bytes32)
    (_payees : list address) (_tokenAddress : address)
    (_amounts : list uint256) (_referenceHashes : list bytes32)
    : result (Storage * ERC20.Ledger) :=
  let* _ := onlyRole (_roles st) PAYMENT_MANAGER_ROLE env in
  let* _ := require (length _paymentIds =? length _payees)%nat
              "Array length mismatch" in
  let* _ := require (length _payees =? length _amounts)%nat
              "Array length mismatch" in
  let* _ := require (length _amounts =? length _referenceHashes)%nat
              "Array length mismatch" in
  let* _ := require (negb (_tokenAddress =? 0)) "Invalid token" in
  let* (st1, totalAmount, totalFees) :=
    validateItems env _tokenAddress _paymentIds _payees _amounts
      _referenceHashes st 0 0 in
  let* led1 := ERC20.transferFrom (this env) led _tokenAddress
                 (msg_sender env) (this env) totalAmount in
  let* (st2, led2) :=
    distributeItems env _tokenAddress _paymentIds _payees _amounts
      _referenceHashes st1 led1 in
  let* led3 := if 0 <? totalFees
               then ERC20.transfer (this env) led2 _tokenAddress
                      (feeCollector st2) totalFees
               else Ok led2 in
  Ok (st2, led3).

End Hashing.

Definition verifyPayment (st : Storage) (_paymentId : bytes32)
    : bool * PaymentRecord :=
  let record := payments_at st _paymentId in
  let exists_ := negb (paymentId record =? 0) in
  (exists_, record).

Definition updatePlatformFee (env : Env) (st : Storage)
    (_newFeePercentage : uint256) : result Storage :=
  let* _ := onlyRole (_roles st) ADMIN_ROLE env in
  let* _ := require (_newFeePercentage <=? MAX_FEE) "Fee too high" in
  Ok (emit {| feeCollector := feeCollector st;
              platformFeePercentage := _newFeePercentage;
              tokenRegistry := tokenRegistry st;
              payments := payments st;
              processedPayments := processedPayments st;
              _roles := _roles st;
              events := events st |}
        (FeeUpdated _newFeePercentage)).

Definition updateFeeCollector (env : Env) (st : Storage)
    (_newFeeCollector : address) : result Storage :=
  let* _ := onlyRole (_roles st) ADMIN_ROLE env in
  let* _ := require (negb (_newFeeCollector =? 0)) "Invalid fee collector" in
  Ok (emit {| feeCollector := _newFeeCollector;
              platformFeePercentage := platformFeePercentage st;
              tokenRegistry := tokenRegistry st;
              payments := payments st;
              processedPayments := processedPayments st;
              _roles := _roles st;
              events := events st |}
        (FeeCollectorUpdated _newFeeCollector)).

Definition setTokenRegistry (env : Env) (st : Storage)
    (_tokenRegistry : address) : result Storage :=
  let* _ := onlyRole (_roles st) ADMIN_ROLE env in
  let* _ := require (negb (_tokenRegistry =? 0)) "Invalid token registry" in
  Ok {| feeCollector := feeCollector st;
        platformFeePercentage := platformFeePercentage st;
        tokenRegistry := _tokenRegistry;
        payments := payments st;
        processedPayments := processedPayments st;
        _roles := _roles st;
        events := events st |}.

(** The state-changing functions of the contract, as calls. *)
Inductive Call :=
| ProcessPayment (_paymentId : bytes32) (_payee _tokenAddress : address)
    (_amount : uint256) (_referenceHash : bytes32) (_signature : bytes)
| ProcessBatchPayment (_paymentIds : list bytes32) (_payees : list address)
    (_tokenAddress : address) (_amounts : list uint256)
    (_referenceHashes : list bytes32)
| UpdatePlatformFee (_newFeePercentage : uint256)
| UpdateFeeCollector (_newFeeCollector : address)
| SetTokenRegistry (_tokenRegistry : address)
| GrantRole (role : Role) (account : address).

Section Calls.

Variable keccak256 : list AbiValue -> bytes32.
Variable recover : bytes32 -> bytes -> option address.

Definition run (env : Env) (st : Storage) (led : ERC20.Ledger) (c : Call)
    : result (Storage * ERC20.Ledger) :=
  match c with
  | ProcessPayment id p tok a ref sig =>
      processPayment keccak256 recover env st led id p tok a ref sig
  | ProcessBatchPayment ids ps tok amounts refs =>
      processBatchPayment keccak256 env st led ids ps tok amounts refs
  | UpdatePlatformFee n =>
      let* st1 := updatePlatformFee env st n in Ok (st1, led)
  | UpdateFeeCollector a =>
      let* st1 := updateFeeCollector env st a in Ok (st1, led)
  | SetTokenRegistry a =>
      let* st1 := setTokenRegistry env st a in Ok (st1, led)
  | GrantRole role account =>
      let* st1 := grantRole env st role account in Ok (st1, led)
  end.

(** The storages the contract can be in: the one its constructor leaves,
    and those a call that goes through leaves, whatever the caller, the
    time and the token ledger. *)
Inductive reachable : Storage -> Prop :=
| reachable_constructor env _feeCollector _feePercentage _tokenRegistry st :
    constructor env _feeCollector _feePercentage _tokenRegistry = Ok st ->
    reachable st
| reachable_call env st led c st' led' :
    reachable st ->
    run env st led c = Ok (st', led') ->
    reachable st'.

End Calls.

End PaymentProcessor.

(** ** RecurringPayment.sol *)
Module RecurringPayment.

(** The struct [IRecurringPayment.RecurringPayment]. *)
Record Subscription := mkSubscription {
  id : bytes32;
  payer : address;
  payee : address;
  tokenAddress : address;
  amount : uint256;
  frequency : uint256;
  nextPaymentDue : uint256;
  isActive : bool;
  referenceId : bytes32
}.

Inductive Event :=
| RecurringPaymentCreated (id : bytes32) (payer payee tokenAddress : address)
    (amount frequency nextPaymentDue : uint256)
| RecurringPaymentExecuted (id : bytes32) (payer payee : address)
    (amount nextPaymentDue : uint256)
| RecurringPaymentCancelled (id : bytes32)
| RecurringPaymentUpdated (id : bytes32).

Record Storage := mkStorage {
  paymentProcessor : address;
  recurringPayments : gmap bytes32 Subscription;
  userRecurringPayments : gmap address (list bytes32);
  userReceivedPayments : gmap address (list bytes32);
  _roles : gset (Role * address);
  events : list Event
}.

Definition recurringPayments_at (st : Storage) (_id : bytes32) : Subscription :=
  default (mkSubscription 0 0 0 0 0 0 0 false 0) (recurringPayments st !! _id).

(** A write through the storage pointer [recurringPayments[_id]], followed
    by the event of the call. *)
Definition store (st : Storage) (_id : bytes32) (p : Subscription)
    (e : Event) : Storage :=
  {| paymentProcessor := paymentProcessor st;
     recurringPayments := <[_id := p]> (recurringPayments st);
     userRecurringPayments := userRecurringPayments st;
     userReceivedPayments := userReceivedPayments st;
     _roles := _roles st;
     events := events st ++ [e] |}.

Definition push (m : gmap address (list bytes32)) (a : address)
    (x : bytes32) : gmap address (list bytes32) :=
  <[a := default [] (m !! a) ++ [x]]> m.

Definition constructor (env : Env) (_paymentProcessor : address)
    : result Storage :=
  let* _ := require (negb (_paymentProcessor =? 0))
              "Invalid payment processor" in
  Ok {| paymentProcessor := _paymentProcessor;
        recurringPayments := ∅;
        userRecurringPayments := ∅;
        userReceivedPayments := ∅;
        _roles := _grantRole (_grantRole (_grantRole ∅
                    DEFAULT_ADMIN_ROLE (msg_sender env))
                    ADMIN_ROLE (msg_sender env))
                    PAYMENT_MANAGER_ROLE (msg_sender env);
        events := [] |}.

Definition createRecurringPayment (env : Env) (st : Storage) (_id : bytes32)
    (_payee _tokenAddress : address) (_amount _frequency : uint256)
    (_firstPaymentDue : uint256) (_referenceId : bytes32) : result Storage :=
  let* _ := require (negb (_payee =? 0)) "Invalid payee" in
  let* _ := require (negb (_tokenAddress =? 0)) "Invalid token" in
  let* _ := require (0 <? _amount) "Amount must be greater than 0" in
  let* _ := require (0 <? _frequency) "Frequency must be greater than 0" in
  let* _ := require (block_timestamp env <? _firstPaymentDue)
              "First payment must be in future" in
  let* _ := require (id (recurringPayments_at st _id) =? 0)
              "ID already exists" in
  Ok {| paymentProcessor := paymentProcessor st;
        recurringPayments :=
          <[_id := {| id := _id;
                      payer := msg_sender env;
                      payee := _payee;
                      tokenAddress := _tokenAddress;
                      amount := _amount;
                      frequency := _frequency;
                      nextPaymentDue := _firstPaymentDue;
                      isActive := true;
                      referenceId := _referenceId |}]>
            (recurringPayments st);
        userRecurringPayments :=
          push (userRecurringPayments st) (msg_sender env) _id;
        userReceivedPayments := push (userReceivedPayments st) _payee _id;
        _roles := _roles st;
        events := events st ++
          [RecurringPaymentCreated _id (msg_sender env) _payee _tokenAddress
             _amount _frequency _firstPaymentDue] |}.

(** The other contracts a call of the scheduler can reach: the processor
    deployed at [processorAddress], and the tokens. *)
Record Chain := mkChain {
  processorAddress : address;
  processor : PaymentProcessor.Storage;
  ledger : ERC20.Ledger
}.

Section Hashing.

Variable keccak256 : list AbiValue -> bytes32.
Variable recover : bytes32 -> bytes -> option address.

Definition executeRecurringPayment (env : Env) (st : Storage) (ch : Chain)
    (_id : bytes32) : result (Storage * Chain) :=
  let payment := recurringPayments_at st _id in
  let* _ := require (negb (id payment =? 0)) "Payment does not exist" in
  let* _ := require (isActive payment) "Payment is not active" in
  let* _ := require (nextPaymentDue payment <=? block_timestamp env)
              "Payment not due yet" in
  let previousDueDate := nextPaymentDue payment in
  let* nextDue := checked_add previousDueDate (frequency payment) in
  let payment1 :=
    {| id := id payment;
       payer := payer payment;
       payee := payee payment;
       tokenAddress := tokenAddress payment;
       amount := amount payment;
       frequency := frequency payment;
       nextPaymentDue := nextDue;
       isActive := isActive payment;
       referenceId := referenceId payment |} in
  let paymentId :=
    keccak256 [Bytes32 (id payment1); Address (payer payment1);
               Address (payee payment1); Uint256 previousDueDate;
               Uint256 (block_timestamp env)] in
  let referenceHash :=
    keccak256 [Str "RECURRING"; Bytes32 (id payment1);
               Uint256 previousDueDate] in
  let* led1 := ERC20.approve (this env) (ledger ch) (tokenAddress payment1)
                 (paymentProcessor st) (amount payment1) in
  let* (pp1, led2) :=
    if paymentProcessor st =? processorAddress ch then
      PaymentProcessor.processPayment keccak256 recover
        (mkEnv (this env) (processorAddress ch) (block_timestamp env))
        (processor ch) led1 paymentId (payee payment1)
        (tokenAddress payment1) (amount payment1) referenceHash []
    else Revert (CallToNonContract (paymentProcessor st)) in
  Ok (store st _id payment1
        (RecurringPaymentExecuted _id (payer payment1) (payee payment1)
           (amount payment1) (nextPaymentDue payment1)),
      mkChain (processorAddress ch) pp1 led2).

End Hashing.

Definition isPaymentDue (env : Env) (st : Storage) (_id : bytes32) : bool :=
  let payment := recurringPayments_at st _id in
  if (id payment =? 0) || negb (isActive payment) then false
  else nextPaymentDue payment <=? block_timestamp env.

Definition cancelRecurringPayment (env : Env) (st : Storage) (_id : bytes32)
    : result Storage :=
  let payment := recurringPayments_at st _id in
  let* _ := require (negb (id payment =? 0)) "Payment does not exist" in
  let* _ := require ((payer payment =? msg_sender env)
                     || hasRole (_roles st) PAYMENT_MANAGER_ROLE
                          (msg_sender env))
              "Not authorized" in
  Ok (store st _id
        {| id := id payment;
           payer := payer payment;
           payee := payee payment;
           tokenAddress := tokenAddress payment;
           amount := amount payment;
           frequency := frequency payment;
           nextPaymentDue := nextPaymentDue payment;
           isActive := false;
           referenceId := referenceId payment |}
        (RecurringPaymentCancelled _id)).

Definition updateRecurringPayment (env : Env) (st : Storage) (_id : bytes32)
    (_amount _frequency : uint256) : result Storage :=
  let payment := recurringPayments_at st _id in
  let* _ := require (negb (id payment =? 0)) "Payment does not exist" in
  let* _ := require (isActive payment) "Payment is not active" in
  let* _ := require ((payer payment =? msg_sender env)
                     || hasRole (_roles st) PAYMENT_MANAGER_ROLE
                          (msg_sender env))
              "Not authorized" in
  let* _ := require (0 <? _amount) "Amount must be greater than 0" in
  let* _ := require (0 <? _frequency) "Frequency must be greater than 0" in
  Ok (store st _id
        {| id := id payment;
           payer := payer payment;
           payee := payee payment;
           tokenAddress := tokenAddress payment;
           amount := _amount;
           frequency := _frequency;
           nextPaymentDue := nextPaymentDue payment;
           isActive := isActive payment;
           referenceId := referenceId payment |}
        (RecurringPaymentUpdated _id)).

Definition getRecurringPaymentDetails (st : Storage) (_id : bytes32)
    : result Subscription :=
  let* _ := require (negb (id (recurringPayments_at st _id) =? 0))
              "Payment does not exist" in
  Ok (recurringPayments_at st _id).

Definition getUserRecurringPayments (st : Storage) (_user : address)
    : list bytes32 :=
  default [] (userRecurringPayments st !! _user).

Definition getUserReceivedPayments (st : Storage) (_user : address)
    : list bytes32 :=
  default [] (userReceivedPayments st !! _user).

Definition setPaymentProcessor (env : Env) (st : Storage)
    (_paymentProcessor : address) : result Storage :=
  let* _ := onlyRole (_roles st) ADMIN_ROLE env in
  let* _ := require (negb (_paymentProcessor =? 0))
              "Invalid payment processor" in
  Ok {| paymentProcessor := _paymentProcessor;
        recurringPayments := recurringPayments st;
        userRecurringPayments := userRecurringPayments st;
        userReceivedPayments := userReceivedPayments st;
        _roles := _roles st;
        events := events st |}.

(** The state-changing functions of the contract, as calls. *)
Inductive Call :=
| CreateRecurringPayment (_id : bytes32) (_payee _tokenAddress : address)
    (_amount _frequency _firstPaymentDue : uint256) (_referenceId : bytes32)
| ExecuteRecurringPayment (_id : bytes32)
| CancelRecurringPayment (_id : bytes32)
| UpdateRecurringPayment (_id : bytes32) (_amount _frequency : uint256)
| SetPaymentProcessor (_paymentProcessor : address).

Section Calls.

Variable keccak256 : list AbiValue -> bytes32.
Variable recover : bytes32 -> bytes -> option address.

Definition run (env : Env) (st : Storage) (ch : Chain) (c : Call)
    : result (Storage * Chain) :=
  match c with
  | CreateRecurringPayment _id p tok a f due ref =>
      let* st1 := createRecurringPayment env st _id p tok a f due ref in
      Ok (st1, ch)
  | ExecuteRecurringPayment _id =>
      executeRecurringPayment keccak256 recover env st ch _id
  | CancelRecurringPayment _id =>
      let* st1 := cancelRecurringPayment env st _id in Ok (st1, ch)
  | UpdateRecurringPayment _id a f =>
      let* st1 := updateRecurringPayment env st _id a f in Ok (st1, ch)
  | SetPaymentProcessor a =>
      let* st1 := setPaymentProcessor env st a in Ok (st1, ch)
  end.

Inductive reachable : Storage -> Prop :=
| reachable_constructor env _paymentProcessor st :
    constructor env _paymentProcessor = Ok st ->
    reachable st
| reachable_call env st ch c st' ch' :
    reachable st ->
    run env st ch c = Ok (st', ch') ->
    reachable st'.

End Calls.

End RecurringPayment.

(** ** TokenRegistry.sol *)
Module TokenRegistry.

Record TokenInfo := mkTokenInfo {
  symbol : string;
  tokenAddress : address;
  decimals : Z;
  isEnabled : bool;
  minimumTransferAmount : uint256
}.

Record PriceFeed := mkPriceFeed {
  feedAddress : address;
  lastPrice : uint256;
  lastUpdateTimestamp : uint256
}.

Inductive Event :=
| TokenAdded (symbol : string) (tokenAddress : address) (decimals : Z)
    (minimumTransferAmount : uint256)
| TokenUpdated (symbol : string) (isEnabled : bool)
    (minimumTransferAmount : uint256)
| PriceFeedUpdated (symbol : string) (feedAddress : address)
    (price : uint256).

Record Storage := mkStorage {
  tokenInfos : gmap string TokenInfo;
  priceFeeds : gmap string PriceFeed;
  supportedTokens : list string;
  _roles : gset (Role * address);
  events : list Event
}.

Definition tokenInfos_at (st : Storage) (s : string) : TokenInfo :=
  default (mkTokenInfo "" 0 0 false 0) (tokenInfos st !! s).

Definition priceFeeds_at (st : Storage) (s : string) : PriceFeed :=
  default (mkPriceFeed 0 0 0) (priceFeeds st !! s).

Definition constructor (env : Env) : Storage :=
  {| tokenInfos := ∅;
     priceFeeds := ∅;
     supportedTokens := [];
     _roles := _grantRole (_grantRole (_grantRole ∅
                 DEFAULT_ADMIN_ROLE (msg_sender env))
                 ADMIN_ROLE (msg_sender env))
                 PRICE_FEEDER_ROLE (msg_sender env);
     events := [] |}.

Definition addToken (env : Env) (st : Storage) (_symbol : string)
    (_tokenAddress : address) (_decimals : Z)
    (_minimumTransferAmount : uint256) : result Storage :=
  let* _ := onlyRole (_roles st) ADMIN_ROLE env in
  let* _ := require (0 <? Z.of_nat (String.length _symbol))
              "Symbol cannot be empty" in
  let* _ := require (negb (_tokenAddress =? 0)) "Invalid token address" in
  let* _ := require (tokenAddress (tokenInfos_at st _symbol) =? 0)
              "Token already exists" in
  Ok {| tokenInfos :=
          <[_symbol := {| symbol := _symbol;
                          tokenAddress := _tokenAddress;
                          decimals := _decimals;
                          isEnabled := true;
                          minimumTransferAmount := _minimumTransferAmount |}]>
            (tokenInfos st);
        priceFeeds := priceFeeds st;
        supportedTokens := supportedTokens st ++ [_symbol];
        _roles := _roles st;
        events := events st ++
          [TokenAdded _symbol _tokenAddress _decimals
             _minimumTransferAmount] |}.

Definition updateToken (env : Env) (st : Storage) (_symbol : string)
    (_isEnabled : bool) (_minimumTransferAmount : uint256) : result Storage :=
  let* _ := onlyRole (_roles st) ADMIN_ROLE env in
  let info := tokenInfos_at st _symbol in
  let* _ := require (negb (tokenAddress info =? 0)) "Token does not exist" in
  Ok {| tokenInfos :=
          <[_symbol := {| symbol := symbol info;
                          tokenAddress := tokenAddress info;
                          decimals := decimals info;
                          isEnabled := _isEnabled;
                          minimumTransferAmount := _minimumTransferAmount |}]>
            (tokenInfos st);
        priceFeeds := priceFeeds st;
        supportedTokens := supportedTokens st;
        _roles := _roles st;
        events := events st ++
          [TokenUpdated _symbol _isEnabled _minimumTransferAmount] |}.

Definition setPriceFeed (env : Env) (st : Storage) (_symbol : string)
    (_feedAddress : address) : result Storage :=
  let* _ := onlyRole (_roles st) ADMIN_ROLE env in
  let* _ := require (negb (tokenAddress (tokenInfos_at st _symbol) =? 0))
              "Token does not exist" in
  let* _ := require (negb (_feedAddress =? 0)) "Invalid feed address" in
  let feed := priceFeeds_at st _symbol in
  Ok {| tokenInfos := tokenInfos st;
        priceFeeds :=
          <[_symbol := {| feedAddress := _feedAddress;
                          lastPrice := lastPrice feed;
                          lastUpdateTimestamp := lastUpdateTimestamp feed |}]>
            (priceFeeds st);
        supportedTokens := supportedTokens st;
        _roles := _roles st;
        events := events st ++
          [PriceFeedUpdated _symbol _feedAddress (lastPrice feed)] |}.

Definition updatePrice (env : Env) (st : Storage) (_symbol : string)
    (_price : uint256) : result Storage :=
  let* _ := onlyRole (_roles st) PRICE_FEEDER_ROLE env in
  let* _ := require (negb (tokenAddress (tokenInfos_at st _symbol) =? 0))
              "Token does not exist" in
  let feed := priceFeeds_at st _symbol in
  Ok {| tokenInfos := tokenInfos st;
        priceFeeds :=
          <[_symbol := {| feedAddress := feedAddress feed;
                          lastPrice := _price;
                          lastUpdateTimestamp := block_timestamp env |}]>
            (priceFeeds st);
        supportedTokens := supportedTokens st;
        _roles := _roles st;
        events := events st ++
          [PriceFeedUpdated _symbol (feedAddress feed) _price] |}.

Definition isTokenEnabled (st : Storage) (_symbol : string) : result bool :=
  let* _ := require (negb (tokenAddress (tokenInfos_at st _symbol) =? 0))
              "Token does not exist" in
  Ok (isEnabled (tokenInfos_at st _symbol)).

Section Hashing.

Variable keccak256 : list AbiValue -> bytes32.

(** A view function: it reads the storage and returns a number or
    reverts.  The comparison of the two symbols is the comparison of
    their hashes, as in the source. *)
Definition convertAmount (st : Storage) (_fromSymbol _toSymbol : string)
    (_amount : uint256) : result uint256 :=
  let* _ := require (negb (tokenAddress (tokenInfos_at st _fromSymbol) =? 0))
              "Source token does not exist" in
  let* _ := require (negb (tokenAddress (tokenInfos_at st _toSymbol) =? 0))
              "Destination token does not exist" in
  if keccak256 [Str _fromSymbol] =? keccak256 [Str _toSymbol] then Ok _amount
  else
    let fromFeed := priceFeeds_at st _fromSymbol in
    let toFeed := priceFeeds_at st _toSymbol in
    let* _ := require (0 <? lastPrice fromFeed)
                "Source token price not available" in
    let* _ := require (0 <? lastPrice toFeed)
                "Destination token price not available" in
    let fromDecimals := decimals (tokenInfos_at st _fromSymbol) in
    let toDecimals := decimals (tokenInfos_at st _toSymbol) in
    let* scaled := checked_mul _amount (lastPrice fromFeed) in
    let* unitFrom := checked_pow 10 fromDecimals in
    let* valueInUSD := checked_div scaled unitFrom in
    let* unitTo := checked_pow 10 toDecimals in
    let* rescaled := checked_mul valueInUSD unitTo in
    let* convertedAmount := checked_div rescaled (lastPrice toFeed) in
    Ok convertedAmount.

End Hashing.

Definition getTokenInfo (st : Storage) (_symbol : string)
    : result TokenInfo :=
  let* _ := require (negb (tokenAddress (tokenInfos_at st _symbol) =? 0))
              "Token does not exist" in
  Ok (tokenInfos_at st _symbol).

Definition getTokenPriceFeed (st : Storage) (_symbol : string)
    : result PriceFeed :=
  let* _ := require (negb (tokenAddress (tokenInfos_at st _symbol) =? 0))
              "Token does not exist" in
  Ok (priceFeeds_at st _symbol).

Definition getSupportedTokens (st : Storage) : list string :=
  supportedTokens st.

Definition set_roles (st : Storage) (roles : gset (Role * address))
    : Storage :=
  {| tokenInfos := tokenInfos st;
     priceFeeds := priceFeeds st;
     supportedTokens := supportedTokens st;
     _roles := roles;
     events := events st |}.

(** The wrappers call the public [grantRole] and [revokeRole] internally,
    so the caller passes both role checks. *)
Definition grantPriceFeederRole (env : Env) (st : Storage)
    (_account : address) : result Storage :=
  let* _ := onlyRole (_roles st) ADMIN_ROLE env in
  let* roles := AccessControl.grantRole env (_roles st) PRICE_FEEDER_ROLE
                  _account in
  Ok (set_roles st roles).

Definition revokePriceFeederRole (env : Env) (st : Storage)
    (_account : address) : result Storage :=
  let* _ := onlyRole (_roles st) ADMIN_ROLE env in
  let* roles := AccessControl.revokeRole env (_roles st) PRICE_FEEDER_ROLE
                  _account in
  Ok (set_roles st roles).

(** The state-changing functions of the contract, as calls. *)
Inductive Call :=
| AddToken (_symbol : string) (_tokenAddress : address) (_decimals : Z)
    (_minimumTransferAmount : uint256)
| UpdateToken (_symbol : string) (_isEnabled : bool)
    (_minimumTransferAmount : uint256)
| SetPriceFeed (_symbol : string) (_feedAddress : address)
| UpdatePrice (_symbol : string) (_price : uint256)
| GrantPriceFeederRole (_account : address)
| RevokePriceFeederRole (_account : address).

Definition run (env : Env) (st : Storage) (c : Call) : result Storage :=
  match c with
  | AddToken s a d m => addToken env st s a d m
  | UpdateToken s e m => updateToken env st s e m
  | SetPriceFeed s a => setPriceFeed env st s a
  | UpdatePrice s p => updatePrice env st s p
  | GrantPriceFeederRole a => grantPriceFeederRole env st a
  | RevokePriceFeederRole a => revokePriceFeederRole env st a
  end.

Inductive reachable : Storage -> Prop :=
| reachable_constructor env :
    reachable (constructor env)
| reachable_call env st c st' :
    reachable st ->
    run env st c = Ok st' ->
    reachable st'.

End TokenRegistry.

(** ** DocumentRegistry.sol *)
Module DocumentRegistry.

Inductive DocumentType :=
| Invoice
| PayrollRecord
| Contract
| Receipt
| Statement
| Other.

Record Document := mkDocument {
  docHash : bytes32;
  registeredBy : address;
  timestamp : uint256;
  docType : DocumentType;
  docReference : string;
  isRevoked : bool
}.

Inductive Event :=
| DocumentRegistered (docHash : bytes32) (registeredBy : address)
    (docType : DocumentType) (docReference : string)
| DocumentRevoked (docHash : bytes32) (revokedBy : address) (reason : string).

Record Storage := mkStorage {
  documents : gmap bytes32 Document;
  userDocuments : gmap address (list bytes32);
  _roles : gset (Role * address);
  events : list Event
}.

Definition documents_at (st : Storage) (h : bytes32) : Document :=
  default (mkDocument 0 0 0 Invoice "" false) (documents st !! h).

Definition userDocuments_at (st : Storage) (a : address) : list bytes32 :=
  default [] (userDocuments st !! a).

Definition constructor (env : Env) : Storage :=
  {| documents := ∅;
     userDocuments := ∅;
     _roles := _grantRole (_grantRole (_grantRole ∅
                 DEFAULT_ADMIN_ROLE (msg_sender env))
                 ADMIN_ROLE (msg_sender env))
                 DOCUMENT_MANAGER_ROLE (msg_sender env);
     events := [] |}.

(** The body shared by [registerDocument] and one turn of the loop of
    [batchRegisterDocuments] (the two are the same statements in the
    source). *)
Definition register (env : Env) (st : Storage) (_docHash : bytes32)
    (_docType : DocumentType) (_docReference : string) : result Storage :=
  let* _ := require (negb (_docHash =? 0)) "Invalid document hash" in
  let* _ := require (docHash (documents_at st _docHash) =? 0)
              "Document already registered" in
  Ok {| documents :=
          <[_docHash := {| docHash := _docHash;
                           registeredBy := msg_sender env;
                           timestamp := block_timestamp env;
                           docType := _docType;
                           docReference := _docReference;
                           isRevoked := false |}]>
            (documents st);
        userDocuments :=
          <[msg_sender env :=
              userDocuments_at st (msg_sender env) ++ [_docHash]]>
            (userDocuments st);
        _roles := _roles st;
        events := events st ++
          [DocumentRegistered _docHash (msg_sender env) _docType
             _docReference] |}.

Definition registerDocument (env : Env) (st : Storage) (_docHash : bytes32)
    (_docType : DocumentType) (_docReference : string) : result Storage :=
  let* _ := onlyRole (_roles st) DOCUMENT_MANAGER_ROLE env in
  register env st _docHash _docType _docReference.

Fixpoint registerItems (env : Env) (_docHashes : list bytes32)
    (_docTypes : list DocumentType) (_docReferences : list string)
    (st : Storage) {struct _docHashes} : result Storage :=
  match _docHashes with
  | [] => Ok st
  | h :: hashes' =>
      match _docTypes, _docReferences with
      | t :: types', r :: refs' =>
          let* st1 := register env st h t r in
          registerItems env hashes' types' refs' st1
      | _, _ => Revert (Panic 50)
      end
  end.

Definition batchRegisterDocuments (env : Env) (st : Storage)
    (_docHashes : list bytes32) (_docTypes : list DocumentType)
    (_docReferences : list string) : result Storage :=
  let* _ := onlyRole (_roles st) DOCUMENT_MANAGER_ROLE env in
  let* _ := require (length _docHashes =? length _docTypes)%nat
              "Array length mismatch" in
  let* _ := require (length _docTypes =? length _docReferences)%nat
              "Array length mismatch" in
  registerItems env _docHashes _docTypes _docReferences st.

Definition revokeDocument (env : Env) (st : Storage) (_docHash : bytes32)
    (_reason : string) : result Storage :=
  let* _ := onlyRole (_roles st) DOCUMENT_MANAGER_ROLE env in
  let doc := documents_at st _docHash in
  let* _ := require (negb (docHash doc =? 0)) "Document not registered" in
  let* _ := require (negb (isRevoked doc)) "Document already revoked" in
  Ok {| documents :=
          <[_docHash := {| docHash := docHash doc;
                           registeredBy := registeredBy doc;
                           timestamp := timestamp doc;
                           docType := docType doc;
                           docReference := docReference doc;
                           isRevoked := true |}]>
            (documents st);
        userDocuments := userDocuments st;
        _roles := _roles st;
        events := events st ++
          [DocumentRevoked _docHash (msg_sender env) _reason] |}.

(** A view function: it takes the storage and returns three values; it
    has no storage to return. *)
Definition verifyDocument (st : Storage) (_docHash : bytes32)
    : bool * bool * Document :=
  let documentData := documents_at st _docHash in
  let exists_ := negb (docHash documentData =? 0) in
  let isValid := exists_ && negb (isRevoked documentData) in
  (exists_, isValid, documentData).

Definition getUserDocuments (st : Storage) (_user : address) : list bytes32 :=
  userDocuments_at st _user.

Definition set_roles (st : Storage) (roles : gset (Role * address))
    : Storage :=
  {| documents := documents st;
     userDocuments := userDocuments st;
     _roles := roles;
     events := events st |}.

Definition grantDocumentManagerRole (env : Env) (st : Storage)
    (_account : address) : result Storage :=
  let* _ := onlyRole (_roles st) ADMIN_ROLE env in
  let* roles := AccessControl.grantRole env (_roles st)
                  DOCUMENT_MANAGER_ROLE _account in
  Ok (set_roles st roles).

Definition revokeDocumentManagerRole (env : Env) (st : Storage)
    (_account : address) : result Storage :=
  let* _ := onlyRole (_roles st) ADMIN_ROLE env in
  let* roles := AccessControl.revokeRole env (_roles st)
                  DOCUMENT_MANAGER_ROLE _account in
  Ok (set_roles st roles).

(** The state-changing functions of the contract, as calls. *)
Inductive Call :=
| RegisterDocument (_docHash : bytes32) (_docType : DocumentType)
    (_docReference : string)
| BatchRegisterDocuments (_docHashes : list bytes32)
    (_docTypes : list DocumentType) (_docReferences : list string)
| RevokeDocument (_docHash : bytes32) (_reason : string)
| GrantDocumentManagerRole (_account : address)
| RevokeDocumentManagerRole (_account : address).

Definition run (env : Env) (st : Storage) (c : Call) : result Storage :=
  match c with
  | RegisterDocument h t r => registerDocument env st h t r
  | BatchRegisterDocuments hs ts rs => batchRegisterDocuments env st hs ts rs
  | RevokeDocument h r => revokeDocument env st h r
  | GrantDocumentManagerRole a => grantDocumentManagerRole env st a
  | RevokeDocumentManagerRole a => revokeDocumentManagerRole env st a
  end.

Inductive reachable : Storage -> Prop :=
| reachable_constructor env :
    reachable (constructor env)
| reachable_call env st c st' :
    reachable st ->
    run env st c = Ok st' ->
    reachable st'.

End DocumentRegistry.

(** ** A concrete deployment

    The addresses are those of the repository's test ([admin = address(1)],
    [paymentManager = address(2)], [payer = address(3)], [payee =
    address(4)], [feeCollector = address(5)], fee 250 basis points).  The
    hash is an injective encoding of its input, and a signature is the
    pair of the signer and the hash it signs.  The general theorems do not
    depend on these choices; they are used where a statement is evaluated
    on an example. *)
Module Deployment.

#[global] Instance AbiValue_eq_dec : EqDecision AbiValue.
Proof. solve_decision. Defined.

Definition AbiValue_to_sum (v : AbiValue) : Z + (Z + (Z + string)) :=
  match v with
  | Bytes32 b => inl b
  | Address a => inr (inl a)
  | Uint256 n => inr (inr (inl n))
  | Str s => inr (inr (inr s))
  end.

Definition AbiValue_of_sum (v : Z + (Z + (Z + string))) : AbiValue :=
  match v with
  | inl b => Bytes32 b
  | inr (inl a) => Address a
  | inr (inr (inl n)) => Uint256 n
  | inr (inr (inr s)) => Str s
  end.

#[global] Instance AbiValue_countable : Countable AbiValue :=
  inj_countable' AbiValue_to_sum AbiValue_of_sum
    ltac:(intros []; reflexivity).

Definition keccak256 (l : list AbiValue) : bytes32 := Z.pos (encode l).

Definition recover (h : bytes32) (signature : bytes) : option address :=
  match signature with
  | [signer; signed] => if signed =? h then Some signer else None
  | _ => None
  end.

Definition admin : address := 1.
Definition paymentManager : address := 2.
Definition payer : address := 3.
Definition payee : address := 4.
Definition feeCollector : address := 5.
Definition USDC : address := 100.
Definition processorAddress : address := 50.
Definition schedulerAddress : address := 70.

Definition processor0 : PaymentProcessor.Storage :=
  {| PaymentProcessor.feeCollector := feeCollector;
     PaymentProcessor.platformFeePercentage := 250;
     PaymentProcessor.tokenRegistry := 60;
     PaymentProcessor.payments := ∅;
     PaymentProcessor.processedPayments := ∅;
     PaymentProcessor._roles :=
       {[ (DEFAULT_ADMIN_ROLE, admin); (ADMIN_ROLE, admin);
          (PAYMENT_MANAGER_ROLE, admin);
          (PAYMENT_MANAGER_ROLE, paymentManager);
          (PAYMENT_MANAGER_ROLE, schedulerAddress) ]};
     PaymentProcessor.events := [] |}.

(** The payer, the manager and the scheduler hold tokens and have approved
    the processor. *)
Definition ledger0 : ERC20.Ledger :=
  {| ERC20._balances :=
       {[ (USDC, payer) := 10000000000;
          (USDC, paymentManager) := 10000000000;
          (USDC, schedulerAddress) := 10000000000 ]};
     ERC20._allowances :=
       {[ (USDC, payer, processorAddress) := 10000000000;
          (USDC, paymentManager, processorAddress) := 10000000000 ]};
     ERC20.transfers := [] |}.

(** The signature of [signer] over a payment request. *)
Definition signedBy (signer : address) (_paymentId : bytes32)
    (_payee _tokenAddress : address) (_amount : uint256)
    (_referenceHash : bytes32) : bytes :=
  [signer; PaymentProcessor.ethSignedMessageHash keccak256 _paymentId _payee
             _tokenAddress _amount _referenceHash].

Definition asManager (now : uint256) : Env :=
  mkEnv paymentManager processorAddress now.

Definition asPayer (now : uint256) : Env :=
  mkEnv payer processorAddress now.

Definition asScheduler (sender : address) (now : uint256) : Env :=
  mkEnv sender schedulerAddress now.

Definition schedulerEmpty : RecurringPayment.Storage :=
  {| RecurringPayment.paymentProcessor := processorAddress;
     RecurringPayment.recurringPayments := ∅;
     RecurringPayment.userRecurringPayments := ∅;
     RecurringPayment.userReceivedPayments := ∅;
     RecurringPayment._roles :=
       {[ (DEFAULT_ADMIN_ROLE, admin); (ADMIN_ROLE, admin);
          (PAYMENT_MANAGER_ROLE, admin) ]};
     RecurringPayment.events := [] |}.

(** At time 1000 the payer subscribes: 100 USDC a day to the payee, first
    due at time 5000. *)
Definition scheduler0 : RecurringPayment.Storage :=
  commit schedulerEmpty
    (RecurringPayment.createRecurringPayment (asScheduler payer 1000)
       schedulerEmpty 9 payee USDC 100000000 86400 5000 33).

Definition chain0 : RecurringPayment.Chain :=
  RecurringPayment.mkChain processorAddress processor0 ledger0.

(** The token registry after the administrator listed USDC (6 decimals,
    price 1.00), ETH (18 decimals, price 3000.00) and DAI (18 decimals, no
    price published). *)
Definition asAdmin (self : address) (now : uint256) : Env :=
  mkEnv admin self now.

Definition registryAddress : address := 60.

Definition registry0 : TokenRegistry.Storage :=
  let env := asAdmin registryAddress 1000 in
  let s0 := TokenRegistry.constructor env in
  let s1 := commit s0 (TokenRegistry.addToken env s0 "USDC" 100 6 1000000) in
  let s2 := commit s1 (TokenRegistry.addToken env s1 "ETH" 101 18 1) in
  let s3 := commit s2 (TokenRegistry.addToken env s2 "DAI" 102 18 1) in
  let s4 := commit s3 (TokenRegistry.updatePrice env s3 "USDC" 100000000) in
  commit s4 (TokenRegistry.updatePrice env s4 "ETH" 300000000000).

(** The document registry after the administrator notarized the
    fingerprint 77 as an invoice. *)
Definition documentsAddress : address := 80.

Definition documents0 : DocumentRegistry.Storage :=
  let env := asAdmin documentsAddress 1000 in
  let s0 := DocumentRegistry.constructor env in
  commit s0 (DocumentRegistry.registerDocument env s0 77
               DocumentRegistry.Invoice "INV-001").

(** The processor and the ledger after the manager paid 100 USDC to the
    payee under the identifier 7. *)
Definition paid : PaymentProcessor.Storage * ERC20.Ledger :=
  commit (processor0, ledger0)
    (PaymentProcessor.processPayment keccak256 recover (asManager 2000)
       processor0 ledger0 7 payee USDC 100000000 9 []).

End Deployment.

(** ** Vocabulary of the statements *)

(** The storage after a sequence of transactions, each with its own
    caller and time; a transaction that reverts leaves the storage as it
    was. *)
Definition replay {S C : Type} (run : Env -> S -> C -> result S) (st : S)
    (txs : list (Env * C)) : S :=
  foldl (fun s tx => commit s (run (fst tx) s (snd tx))) st txs.

(** The share of [v] that the account [x] sees when [who] is moved [v]. *)
Definition delta (x who : address) (v : uint256) : Z :=
  if x =? who then v else 0.

(** An item of a batch that the validation of [processBatchPayment]
    refuses, as the code tests it: a null payee, an amount that is not
    positive, an identifier under which the storage [st] holds a record
    with a nonzero [paymentId] field, a fingerprint already consumed
    there, or a nonzero identifier or a fingerprint that an earlier item of
    the same batch has.  The identifier zero is never refused as used: the
    record stored under it carries the identifier zero, which is what the
    check of line 168 reads as free. *)
Section BatchVocabulary.
Import PaymentProcessor.
Variable keccak256 : list AbiValue -> bytes32.


End BatchVocabulary.

(** The fee, total, fee total and payouts of a batch. *)
Definition feeOf (bps a : uint256) : uint256 := a * bps / 10000.

Definition batchTotal (_amounts : list uint256) : Z :=
  foldr Z.add 0 _amounts.

Definition batchFees (bps : uint256) (_amounts : list uint256) : Z :=
  foldr (fun a acc => feeOf bps a + acc) 0 _amounts.


(** What one account receives from the payouts of a batch. *)
Definition batchReceived (bps : uint256) (_payees : list address)
    (_amounts : list uint256) (x : address) : Z :=
  foldr Z.add 0
    (zip_with (fun p a => delta x p (a - feeOf bps a)) _payees _amounts).

(** The record read at the key [x] is well formed: it is the zero record
    of a key never written, or the record written under the identifier
    zero (which carries that identifier), or a record that carries its own
    key, has a payee, a token and a positive amount, a fee between zero
    and a twentieth of the amount, and whose fingerprint is consumed. *)
Section RecordVocabulary.
Import PaymentProcessor.
Variable keccak256 : list AbiValue -> bytes32.

Definition validRecord (st : Storage) (x : bytes32) : Prop :=
  let r := payments_at st x in
  r = mkPaymentRecord 0 0 0 0 0 0 0 0
  \/ (x = 0 /\ paymentId r = 0)
  \/ (x <> 0 /\ paymentId r = x /\ payee r <> 0 /\ tokenAddress r <> 0
      /\ 0 < amount r /\ 0 <= feeAmount r /\ 20 * feeAmount r <= amount r
      /\ processed_at st
           (paymentHash keccak256 x (payee r) (tokenAddress r) (amount r))
         = true).
End RecordVocabulary.

(** What the scheduler holds about the identifier [x]: nothing at all (the
    zero subscription, and [x] in no user's list), or a subscription stored
    under its own identifier, with a payee, a token, a positive amount and
    a positive frequency, listed for its payer and for its payee and for
    nobody else. *)
Section SubscriptionVocabulary.
Import RecurringPayment.

Definition validSubscription (st : Storage) (x : bytes32) : Prop :=
  let s := recurringPayments_at st x in
  (s = mkSubscription 0 0 0 0 0 0 0 false 0
   /\ forall u, ~ (x ∈ getUserRecurringPayments st u)
                /\ ~ (x ∈ getUserReceivedPayments st u))
  \/ (id s = x /\ payee s <> 0 /\ tokenAddress s <> 0
      /\ 0 < amount s /\ 0 < frequency s
      /\ (forall u, x ∈ getUserRecurringPayments st u <-> u = payer s)
      /\ (forall u, x ∈ getUserReceivedPayments st u <-> u = payee s)).

(** The caller may cancel or update the subscription [x]: it is its payer,
    or a payment manager of the scheduler. *)
Definition mayManage (env : Env) (st : Storage) (x : bytes32) : Prop :=
  payer (recurringPayments_at st x) = msg_sender env
  \/ hasRole (_roles st) PAYMENT_MANAGER_ROLE (msg_sender env) = true.

End SubscriptionVocabulary.

(** * Properties *)

(** ** Reasoning about reverts *)

Lemma bind_Ok {A B} (r : result A) (k : A -> result B) (b : B) :
  bind r k = Ok b -> exists a, r = Ok a /\ k a = Ok b.
Proof. destruct r as [a|e]; simpl; [eauto | discriminate]. Qed.

Lemma require_Ok (c : bool) (reason : string) (u : unit) :
  require c reason = Ok u -> c = true.
Proof. destruct c; [reflexivity | discriminate]. Qed.

Lemma checked_Ok (z r : Z) :
  checked z = Ok r -> r = z /\ 0 <= z <= MAX_UINT256.
Proof.
  unfold checked, in_uint256.
  destruct (0 <=? z) eqn:H0; destruct (z <=? MAX_UINT256) eqn:H1; simpl;
    intros H; inversion H; subst. lia.
Qed.

Lemma checked_in_range (z : Z) :
  0 <= z <= MAX_UINT256 -> checked z = Ok z.
Proof.
  intros [H0 H1]. unfold checked, in_uint256.
  apply Z.leb_le in H0, H1. rewrite H0, H1. reflexivity.
Qed.

Lemma checked_div_Ok (a b r : Z) :
  checked_div a b = Ok r -> r = a / b /\ b <> 0.
Proof.
  unfold checked_div. destruct (b =? 0) eqn:Hb; intros H; inversion H.
  apply Z.eqb_neq in Hb. auto.
Qed.

Lemma bind_require {B} (c : bool) (reason : string) (k : unit -> result B) :
  bind (require c reason) k
  = if c then k tt else Revert (RequireFailed reason).
Proof. destruct c; reflexivity. Qed.

Lemma commit_not_ok {S} (s : S) (r : result S) :
  is_ok r = false -> commit s r = s.
Proof. destruct r; [discriminate | reflexivity]. Qed.


(** Splits a successful sequence of checks into its steps. *)
Tactic Notation "step_ok" hyp(H) "as" ident(x) ident(Hx) :=
  apply bind_Ok in H; destruct H as (x & Hx & H).

Tactic Notation "step_ok" hyp(H) :=
  let x := fresh "x" in
  let Hx := fresh "Hx" in
  apply bind_Ok in H; destruct H as (x & Hx & H); try clear x Hx.

Ltac req H := apply require_Ok in H.

(** ** The token ledger *)

Lemma ERC20_update_spec l tok src dst v l' :
  ERC20._update l tok src dst v = Ok l' ->
  ERC20.transfers l' = ERC20.transfers l ++ [ERC20.mkTransfer tok src dst v]
  /\ ERC20._allowances l' = ERC20._allowances l
  /\ forall x, ERC20.balanceOf l' tok x
               = ERC20.balanceOf l tok x - delta x src v + delta x dst v.
Proof.
  unfold ERC20._update.
  destruct (ERC20.balanceOf l tok src <? v); [discriminate |].
  intros H; inversion H; subst; clear H; simpl.
  split; [reflexivity | split; [reflexivity |]].
  intros x. unfold ERC20.balanceOf, delta; simpl.
  destruct (Z.eqb_spec x dst) as [-> | Hd].
  - rewrite lookup_insert_eq; simpl.
    destruct (Z.eqb_spec dst src) as [-> | Hs].
    + rewrite lookup_insert_eq; simpl. lia.
    + rewrite lookup_insert_ne by congruence. lia.
  - rewrite lookup_insert_ne by congruence.
    destruct (Z.eqb_spec x src) as [-> | Hs].
    + rewrite lookup_insert_eq; simpl. lia.
    + rewrite lookup_insert_ne by congruence. lia.
Qed.

Lemma ERC20_transfer_spec caller l tok dst v l' :
  ERC20.transfer caller l tok dst v = Ok l' ->
  ERC20.transfers l' = ERC20.transfers l ++ [ERC20.mkTransfer tok caller dst v]
  /\ forall x, ERC20.balanceOf l' tok x
               = ERC20.balanceOf l tok x - delta x caller v + delta x dst v.
Proof.
  unfold ERC20.transfer, ERC20._transfer.
  destruct (caller =? 0); [discriminate |].
  destruct (dst =? 0); [discriminate |].
  intros H. apply ERC20_update_spec in H. tauto.
Qed.

Lemma ERC20_spendAllowance_spec l tok owner spender v l' :
  ERC20._spendAllowance l tok owner spender v = Ok l' ->
  ERC20.transfers l' = ERC20.transfers l
  /\ ERC20._balances l' = ERC20._balances l.
Proof.
  unfold ERC20._spendAllowance, ERC20._approve.
  repeat match goal with
         | |- context [if ?c then _ else _] => destruct c
         end; intros H; inversion H; subst; auto.
Qed.

Lemma ERC20_transferFrom_spec caller l tok src dst v l' :
  ERC20.transferFrom caller l tok src dst v = Ok l' ->
  ERC20.transfers l' = ERC20.transfers l ++ [ERC20.mkTransfer tok src dst v]
  /\ forall x, ERC20.balanceOf l' tok x
               = ERC20.balanceOf l tok x - delta x src v + delta x dst v.
Proof.
  unfold ERC20.transferFrom. intros H. step_ok H as l1 Hspend.
  apply ERC20_spendAllowance_spec in Hspend as [Ht Hb].
  unfold ERC20._transfer in H.
  destruct (src =? 0); [discriminate |].
  destruct (dst =? 0); [discriminate |].
  apply ERC20_update_spec in H as (H1 & _ & H2).
  split; [congruence |].
  intros y. rewrite H2. unfold ERC20.balanceOf. rewrite Hb. reflexivity.
Qed.

(** ** PaymentProcessor: single payments *)

Section SinglePayment.
Import PaymentProcessor.

Lemma payments_at_set_payment st h r :
  payments_at (set_payment st h r) (paymentId r) = r.
Proof.
  unfold payments_at, set_payment; simpl.
  rewrite lookup_insert_eq. reflexivity.
Qed.

Lemma payments_at_emit st e id :
  payments_at (emit st e) id = payments_at st id.
Proof. reflexivity. Qed.

Section ProcessPayment.
Variable keccak256 : list AbiValue -> bytes32.
Variable recover : bytes32 -> bytes -> option address.

(** C3: a processed single payment has a positive amount; the payee's
    amount and the fee add up to the amount; the fee, as recorded and as
    transferred, is [amount * feeBps / 10000] rounded down; the call makes
    one transfer from the caller to the payee and, when the fee is
    positive, one from the caller to the fee collector, so every balance
    moves by exactly these amounts.  At amount 100_000000 and 250 basis
    points the payee's amount is 97_500000 and the fee 2_500000. *)
Theorem processPayment_fee_split env st led id p tok a ref sig st' led' :
  processPayment keccak256 recover env st led id p tok a ref sig
    = Ok (st', led') ->
  0 < a
  /\ (a - a * platformFeePercentage st / 10000)
       + a * platformFeePercentage st / 10000 = a
  /\ feeAmount (payments_at st' id) = a * platformFeePercentage st / 10000
  /\ ERC20.transfers led'
     = ERC20.transfers led
       ++ ERC20.mkTransfer tok (msg_sender env) p
            (a - a * platformFeePercentage st / 10000)
          :: (if 0 <? a * platformFeePercentage st / 10000
              then [ERC20.mkTransfer tok (msg_sender env) (feeCollector st)
                      (a * platformFeePercentage st / 10000)]
              else [])
  /\ (forall x,
        ERC20.balanceOf led' tok x
        = ERC20.balanceOf led tok x
          - delta x (msg_sender env) a
          + delta x p (a - a * platformFeePercentage st / 10000)
          + delta x (feeCollector st) (a * platformFeePercentage st / 10000))
  /\ (a = 100000000 -> platformFeePercentage st = 250 ->
      a - a * platformFeePercentage st / 10000 = 97500000
      /\ a * platformFeePercentage st / 10000 = 2500000).
Proof.
  unfold processPayment. intros H.
  step_ok H. step_ok H. step_ok H as u Hpos. req Hpos.
  apply Z.ltb_lt in Hpos.
  step_ok H. step_ok H. step_ok H.
  step_ok H as product Hproduct. apply checked_Ok in Hproduct as [-> Hrange].
  step_ok H as payeeAmount Hsub. apply checked_Ok in Hsub as [-> _].
  step_ok H as led1 Hpay. apply ERC20_transferFrom_spec in Hpay as [Ht1 Hb1].
  step_ok H as led2 Hfee. inversion H; subst; clear H.
  set (fee := a * platformFeePercentage st / 10000) in *.
  split; [exact Hpos |]. split; [lia |].
  split.
  { rewrite payments_at_emit.
    match goal with
    | |- context [set_payment ?s ?h ?r] =>
        change id with (paymentId r) at 1; rewrite payments_at_set_payment
    end. reflexivity. }
  assert (Hfee' : ERC20.transfers led'
                 = ERC20.transfers led1
                   ++ (if 0 <? fee
                       then [ERC20.mkTransfer tok (msg_sender env)
                               (feeCollector st) fee] else [])
                 /\ forall y, ERC20.balanceOf led' tok y
                      = ERC20.balanceOf led1 tok y - delta y (msg_sender env) fee
                        + delta y (feeCollector st) fee).
  { simpl in Hfee. destruct (0 <? fee) eqn:Hf.
    - apply ERC20_transferFrom_spec in Hfee. exact Hfee.
    - inversion Hfee; subst. rewrite app_nil_r. split; [reflexivity |].
      intros y.
      assert (fee = 0) as ->.
      { apply Z.ltb_ge in Hf.
        assert (0 <= fee) by (apply Z.div_pos; lia). lia. }
      unfold delta.
      destruct (y =? msg_sender env), (y =? feeCollector st); lia. }
  destruct Hfee' as [Ht2 Hb2].
  split.
  { rewrite Ht2, Ht1, <- app_assoc. reflexivity. }
  split.
  { intros y. rewrite Hb2, Hb1. unfold delta.
    destruct (y =? msg_sender env), (y =? p), (y =? feeCollector st); lia. }
  intros -> Hbps. unfold fee. rewrite Hbps. split; reflexivity.
Qed.


Lemma verifySignature_manager recover' env st id p tok a ref sig sig' :
  hasRole (_roles st) PAYMENT_MANAGER_ROLE (msg_sender env) = true ->
  verifySignature keccak256 recover env st id p tok a ref sig
  = verifySignature keccak256 recover' env st id p tok a ref sig'.
Proof. unfold verifySignature. intros ->. reflexivity. Qed.

Lemma verifySignature_Ok env st id p tok a ref sig u :
  hasRole (_roles st) PAYMENT_MANAGER_ROLE (msg_sender env) = false ->
  verifySignature keccak256 recover env st id p tok a ref sig = Ok u ->
  exists signer,
    recover (keccak256
               [Str "\x19Ethereum Signed Message:\n32";
                Bytes32 (keccak256 [Bytes32 id; Address p; Address tok;
                                    Uint256 a; Bytes32 ref])]) sig
    = Some signer
    /\ hasRole (_roles st) PAYMENT_MANAGER_ROLE signer = true.
Proof.
  unfold verifySignature, ethSignedMessageHash. intros ->. simpl.
  destruct (recover _ sig) as [signer |]; [| discriminate].
  intros H. req H. eauto.
Qed.

(** C5: when the caller holds the payment-manager role the outcome of
    processPayment does not depend on the signature nor on what could be
    recovered from it (no signature check is made); when it does not, a
    call that goes through has recovered, from the supplied signature and
    the EIP-191 hash of [keccak256(paymentId, payee, token, amount,
    referenceHash)], a signer that holds the payment-manager role. *)
Theorem processPayment_authorization env st led id p tok a ref sig :
  (hasRole (_roles st) PAYMENT_MANAGER_ROLE (msg_sender env) = true ->
   forall recover' sig',
     processPayment keccak256 recover env st led id p tok a ref sig
     = processPayment keccak256 recover' env st led id p tok a ref sig')
  /\ (hasRole (_roles st) PAYMENT_MANAGER_ROLE (msg_sender env) = false ->
      is_ok (processPayment keccak256 recover env st led id p tok a ref sig)
        = true ->
      exists signer,
        recover (keccak256
                   [Str "\x19Ethereum Signed Message:\n32";
                    Bytes32 (keccak256 [Bytes32 id; Address p; Address tok;
                                        Uint256 a; Bytes32 ref])]) sig
        = Some signer
        /\ hasRole (_roles st) PAYMENT_MANAGER_ROLE signer = true).
Proof.
  split.
  - intros Hrole recover' sig'. unfold processPayment.
    rewrite (verifySignature_manager recover' env st id p tok a ref sig sig')
      by exact Hrole.
    reflexivity.
  - intros Hrole Hok.
    destruct (processPayment keccak256 recover env st led id p tok a ref sig)
      as [[st' led'] | e] eqn:H; [clear Hok | discriminate Hok].
    unfold processPayment in H.
    do 5 step_ok H. step_ok H as u Hsig.
    eapply verifySignature_Ok; eauto.
Qed.

Lemma processPayment_stores env st led id p tok a ref sig st' led' :
  processPayment keccak256 recover env st led id p tok a ref sig
    = Ok (st', led') ->
  payments_at st' id
  = {| paymentId := id;
       payer := msg_sender env;
       payee := p;
       tokenAddress := tok;
       amount := a;
       feeAmount := a * platformFeePercentage st / 10000;
       timestamp := block_timestamp env;
       referenceHash := ref |}.
Proof.
  unfold processPayment. intros H.
  do 6 step_ok H.
  step_ok H as product Hproduct. apply checked_Ok in Hproduct as [-> _].
  do 3 step_ok H. inversion H; subst; clear H.
  rewrite payments_at_emit.
  match goal with
  | |- context [set_payment ?s ?h ?r] =>
      change id with (paymentId r) at 1; rewrite payments_at_set_payment
  end. reflexivity.
Qed.

(** The identifier [bytes32(0)] is never seen as used: the record stored
    under it carries the identifier zero, which is also what an unset key
    reads as, so [verifyPayment] reports it as absent. *)
Lemma processPayment_zero_id env st led p tok a ref sig st' led' :
  processPayment keccak256 recover env st led 0 p tok a ref sig
    = Ok (st', led') ->
  paymentId (payments_at st' 0) = 0 /\ fst (verifyPayment st' 0) = false.
Proof.
  intros H. apply processPayment_stores in H.
  unfold verifyPayment. rewrite H. split; reflexivity.
Qed.

(** A payment that goes through leaves the records of the other
    identifiers as they were. *)
Lemma processPayment_preserves_records env st led id p tok a ref sig st' led'
    id0 :
  processPayment keccak256 recover env st led id p tok a ref sig
    = Ok (st', led') ->
  paymentId (payments_at st id0) <> 0 ->
  payments_at st' id0 = payments_at st id0.
Proof.
  unfold processPayment. intros H Hused.
  do 3 step_ok H. step_ok H as u Hfree. req Hfree.
  apply Z.eqb_eq in Hfree.
  do 5 step_ok H. step_ok H. inversion H; subst; clear H.
  rewrite payments_at_emit. unfold payments_at, set_payment; simpl.
  rewrite lookup_insert_ne; [reflexivity |].
  intros ->. contradiction.
Qed.

End ProcessPayment.

Lemma processPayment_fee_split_witness :
  exists st' led',
    processPayment Deployment.keccak256 Deployment.recover
      (Deployment.asManager 2000) Deployment.processor0 Deployment.ledger0
      1 Deployment.payee Deployment.USDC 100000000 9 [] = Ok (st', led')
    /\ ERC20.balanceOf led' Deployment.USDC Deployment.payee = 97500000
    /\ ERC20.balanceOf led' Deployment.USDC Deployment.feeCollector = 2500000.
Proof.
  destruct (processPayment Deployment.keccak256 Deployment.recover
              (Deployment.asManager 2000) Deployment.processor0
              Deployment.ledger0 1 Deployment.payee Deployment.USDC
              100000000 9 []) as [[st' led'] | e] eqn:Hrun;
    [| vm_compute in Hrun; discriminate Hrun].
  exists st', led'. split; [reflexivity |].
  destruct (processPayment_fee_split _ _ _ _ _ _ _ _ _ _ _ _ _ Hrun)
    as (_ & _ & _ & _ & Hbal & _).
  rewrite !Hbal. vm_compute. split; reflexivity.
Defined.

Lemma processPayment_authorization_witness :
  is_ok (processPayment Deployment.keccak256 Deployment.recover
           (Deployment.asManager 2000) Deployment.processor0
           Deployment.ledger0 1 Deployment.payee Deployment.USDC
           100000000 9 []) = true
  /\ (exists signer,
        Deployment.recover
          (Deployment.keccak256
             [Str "\x19Ethereum Signed Message:\n32";
              Bytes32 (Deployment.keccak256
                         [Bytes32 1; Address Deployment.payee;
                          Address Deployment.USDC; Uint256 100000000;
                          Bytes32 9])])
          (Deployment.signedBy Deployment.paymentManager 1 Deployment.payee
             Deployment.USDC 100000000 9)
        = Some signer
        /\ hasRole (_roles Deployment.processor0) PAYMENT_MANAGER_ROLE signer
           = true)
  /\ is_ok (processPayment Deployment.keccak256 Deployment.recover
              (Deployment.asPayer 2000) Deployment.processor0
              Deployment.ledger0 1 Deployment.payee Deployment.USDC
              100000000 9 []) = false.
Proof.
  split; [vm_compute; reflexivity |].
  split; [| vm_compute; reflexivity].
  apply (proj2 (processPayment_authorization Deployment.keccak256
                  Deployment.recover (Deployment.asPayer 2000)
                  Deployment.processor0 Deployment.ledger0 1
                  Deployment.payee Deployment.USDC 100000000 9
                  (Deployment.signedBy Deployment.paymentManager 1
                     Deployment.payee Deployment.USDC 100000000 9)));
    vm_compute; reflexivity.
Defined.

End SinglePayment.

(** ** PaymentProcessor: batch payments *)

Section BatchPayment.
Import PaymentProcessor.
Variable keccak256 : list AbiValue -> bytes32.

Lemma set_payment_keeps_used st h r id :
  paymentId (payments_at st (paymentId r)) = 0 ->
  paymentId (payments_at st id) <> 0 ->
  paymentId (payments_at (set_payment st h r) id) <> 0.
Proof.
  intros Hfree Hused. unfold payments_at, set_payment; simpl.
  destruct (decide (paymentId r = id)) as [<- | Hne].
  - exfalso. apply Hused. exact Hfree.
  - rewrite lookup_insert_ne by exact Hne. exact Hused.
Qed.

Lemma set_payment_keeps_processed st h r h0 :
  processed_at st h0 = true ->
  processed_at (set_payment st h r) h0 = true.
Proof.
  intros Hp. unfold processed_at, set_payment; simpl.
  destruct (decide (h = h0)) as [<- | Hne].
  - rewrite lookup_insert_eq. reflexivity.
  - rewrite lookup_insert_ne by exact Hne. exact Hp.
Qed.


Lemma processed_at_set_payment st h r :
  processed_at (set_payment st h r) h = true.
Proof.
  unfold processed_at, set_payment; simpl.
  rewrite lookup_insert_eq. reflexivity.
Qed.



Lemma validateItems_Ok env tok amounts :
  forall ids payees refs st totalAmount totalFees st1 totalAmount1 totalFees1,
    validateItems keccak256 env tok ids payees amounts refs st
      totalAmount totalFees = Ok (st1, totalAmount1, totalFees1) ->
    totalAmount1 = totalAmount + batchTotal amounts
    /\ totalFees1
       = totalFees + batchFees (platformFeePercentage st) amounts
    /\ platformFeePercentage st1 = platformFeePercentage st
    /\ feeCollector st1 = feeCollector st.
Proof.
  induction amounts as [| a amounts IH];
    intros ids payees refs st tA tF st1 tA1 tF1 H.
  - simpl in H. inversion H; subst. unfold batchTotal, batchFees. simpl.
    repeat split; lia.
  - destruct payees as [| p payees]; [discriminate H |].
    destruct ids as [| id ids]; [discriminate H |].
    destruct refs as [| r refs]; [discriminate H |].
    cbn [validateItems] in H.
    do 4 step_ok H.
    step_ok H as product Hproduct. apply checked_Ok in Hproduct as [-> _].
    step_ok H as tA' HtA. apply checked_Ok in HtA as [-> _].
    step_ok H as tF' HtF. apply checked_Ok in HtF as [-> _].
    apply IH in H as (-> & -> & Hbps & Hfc).
    simpl in Hbps, Hfc. unfold batchTotal, batchFees, feeOf in *. simpl.
    repeat split; try assumption; lia.
Qed.


End BatchPayment.
(** ** RecurringPayment *)

Section Scheduler.
Import RecurringPayment.

Lemma recurringPayments_at_store st _id p e :
  recurringPayments_at (store st _id p e) _id = p.
Proof.
  unfold recurringPayments_at, store; simpl.
  rewrite lookup_insert_eq. reflexivity.
Qed.

Lemma cancelRecurringPayment_Ok env st _id :
  is_ok (cancelRecurringPayment env st _id) = true
  <-> id (recurringPayments_at st _id) <> 0
      /\ (payer (recurringPayments_at st _id) = msg_sender env
          \/ hasRole (_roles st) PAYMENT_MANAGER_ROLE (msg_sender env) = true).
Proof.
  unfold cancelRecurringPayment. rewrite !bind_require.
  destruct (Z.eqb_spec (id (recurringPayments_at st _id)) 0) as [H0 | H0];
    cbn [negb is_ok].
  { split; [discriminate | intros [H _]; contradiction]. }
  destruct (Z.eqb_spec (payer (recurringPayments_at st _id)) (msg_sender env))
    as [Hp | Hp]; cbn [orb is_ok].
  { split; auto. }
  destruct (hasRole (_roles st) PAYMENT_MANAGER_ROLE (msg_sender env));
    cbn [is_ok].
  - split; auto.
  - split; [discriminate | intros [_ [H | H]]; [contradiction | discriminate]].
Qed.

Lemma cancelRecurringPayment_repeat env st _id st' :
  cancelRecurringPayment env st _id = Ok st' ->
  isActive (recurringPayments_at st' _id) = false
  /\ is_ok (cancelRecurringPayment env st' _id) = true.
Proof.
  intros H.
  assert (Hok : is_ok (cancelRecurringPayment env st _id) = true)
    by (rewrite H; reflexivity).
  apply cancelRecurringPayment_Ok in Hok as [Hid Hauth].
  unfold cancelRecurringPayment in H. do 2 step_ok H.
  inversion H; subst; clear H.
  split; [rewrite recurringPayments_at_store; reflexivity |].
  apply cancelRecurringPayment_Ok.
  rewrite recurringPayments_at_store. simpl. auto.
Qed.

(** C2: the code departs from the claim.  A subscription is created by
    the payer and cancelled by the payer; the payer's second cancel of the
    same, now inactive, subscription goes through as well (the function
    never reads [isActive]) and emits a second cancellation event.
    [cancelRecurringPayment_Ok] gives the exact condition under which a
    cancel goes through: the subscription exists and the caller is its
    payer or a payment manager. *)
Theorem cancelRecurringPayment_twice :
  isActive (recurringPayments_at Deployment.scheduler0 9) = true
  /\ match cancelRecurringPayment
             (Deployment.asScheduler Deployment.payer 2000)
             Deployment.scheduler0 9 with
     | Ok st1 =>
         isActive (recurringPayments_at st1 9) = false
         /\ match cancelRecurringPayment
                    (Deployment.asScheduler Deployment.payer 3000) st1 9 with
            | Ok st2 =>
                isActive (recurringPayments_at st2 9) = false
                /\ events st2
                   = [RecurringPaymentCreated 9 3 4 100 100000000 86400 5000;
                      RecurringPaymentCancelled 9;
                      RecurringPaymentCancelled 9]
            | Revert _ => False
            end
     | Revert _ => False
     end.
Proof. vm_compute. repeat split; reflexivity. Qed.

Section Execute.
Variable keccak256 : list AbiValue -> bytes32.
Variable recover : bytes32 -> bytes -> option address.

Lemma executeRecurringPayment_Ok env st ch _id st' ch' :
  executeRecurringPayment keccak256 recover env st ch _id = Ok (st', ch') ->
  id (recurringPayments_at st _id) <> 0
  /\ isActive (recurringPayments_at st _id) = true
  /\ nextPaymentDue (recurringPayments_at st _id) <= block_timestamp env
  /\ recurringPayments_at st' _id
     = {| id := id (recurringPayments_at st _id);
          payer := payer (recurringPayments_at st _id);
          payee := payee (recurringPayments_at st _id);
          tokenAddress := tokenAddress (recurringPayments_at st _id);
          amount := amount (recurringPayments_at st _id);
          frequency := frequency (recurringPayments_at st _id);
          nextPaymentDue := nextPaymentDue (recurringPayments_at st _id)
                            + frequency (recurringPayments_at st _id);
          isActive := true;
          referenceId := referenceId (recurringPayments_at st _id) |}.
Proof.
  unfold executeRecurringPayment. intros H.
  step_ok H as u1 Hid. req Hid. apply negb_true_iff, Z.eqb_neq in Hid.
  step_ok H as u2 Hactive. req Hactive.
  step_ok H as u3 Hdue. req Hdue. apply Z.leb_le in Hdue.
  step_ok H as nextDue Hnext. apply checked_Ok in Hnext as [-> _].
  step_ok H. step_ok H as r Hpay. destruct r as [pp1 led2].
  inversion H; subst; clear H.
  repeat split; try assumption.
  rewrite recurringPayments_at_store, Hactive. reflexivity.
Qed.

(** C6: executeRecurringPayment goes through only if the subscription
    exists, is active and is due ([nextPaymentDue <= block.timestamp]);
    after an execution that went through, the subscription's next due date
    is its previous due date plus its frequency, whatever the time of the
    execution: two executions of the same subscription at different times
    leave the same subscription record. *)
Theorem executeRecurringPayment_schedule env st ch _id :
  (is_ok (executeRecurringPayment keccak256 recover env st ch _id) = true ->
   id (recurringPayments_at st _id) <> 0
   /\ isActive (recurringPayments_at st _id) = true
   /\ nextPaymentDue (recurringPayments_at st _id) <= block_timestamp env)
  /\ (forall st' ch',
        executeRecurringPayment keccak256 recover env st ch _id
          = Ok (st', ch') ->
        nextPaymentDue (recurringPayments_at st' _id)
        = nextPaymentDue (recurringPayments_at st _id)
          + frequency (recurringPayments_at st _id))
  /\ (forall env2 st1 ch1 st2 ch2,
        executeRecurringPayment keccak256 recover env st ch _id
          = Ok (st1, ch1) ->
        executeRecurringPayment keccak256 recover env2 st ch _id
          = Ok (st2, ch2) ->
        recurringPayments_at st1 _id = recurringPayments_at st2 _id).
Proof.
  split; [| split].
  - destruct (executeRecurringPayment keccak256 recover env st ch _id)
      as [[st' ch'] | e] eqn:H; [intros _ | discriminate].
    apply executeRecurringPayment_Ok in H. tauto.
  - intros st' ch' H. apply executeRecurringPayment_Ok in H as (_ & _ & _ & ->).
    reflexivity.
  - intros env2 st1 ch1 st2 ch2 H1 H2.
    apply executeRecurringPayment_Ok in H1 as (_ & _ & _ & ->).
    apply executeRecurringPayment_Ok in H2 as (_ & _ & _ & ->).
    reflexivity.
Qed.

End Execute.

Lemma executeRecurringPayment_schedule_witness :
  exists st' ch',
    executeRecurringPayment Deployment.keccak256 Deployment.recover
      (Deployment.asScheduler Deployment.admin 999999) Deployment.scheduler0
      Deployment.chain0 9 = Ok (st', ch')
    /\ nextPaymentDue (recurringPayments_at st' 9) = 91400
    /\ is_ok (executeRecurringPayment Deployment.keccak256 Deployment.recover
                (Deployment.asScheduler Deployment.admin 4999)
                Deployment.scheduler0 Deployment.chain0 9) = false.
Proof.
  destruct (executeRecurringPayment Deployment.keccak256 Deployment.recover
              (Deployment.asScheduler Deployment.admin 999999)
              Deployment.scheduler0 Deployment.chain0 9)
    as [[st' ch'] | e] eqn:Hrun; [| vm_compute in Hrun; discriminate Hrun].
  exists st', ch'. split; [reflexivity |].
  split; [| vm_compute; reflexivity].
  rewrite (proj1 (proj2 (executeRecurringPayment_schedule _ _ _ _ _ _))
             st' ch' Hrun).
  vm_compute. reflexivity.
Defined.

End Scheduler.

(** ** TokenRegistry *)

Section Conversion.
Import TokenRegistry.
Variable keccak256 : list AbiValue -> bytes32.

(** C7: for two known tokens whose symbols hash differently and whose
    prices are nonzero, the number convertAmount returns is exactly
    [amount * priceFrom / 10^decimalsFrom] (rounded down) times
    [10^decimalsTo], divided by [priceTo] (rounded down); it does return
    that number whenever the two products and the two powers of ten fit in
    a uint256 (the checked arithmetic of the source reverts otherwise).
    With decimals 6 and price 1.00e8 for the source, decimals 18 and price
    3000.00e8 for the destination, 3000_000000 converts to
    1_000000000000000000. *)
Theorem convertAmount_formula st src dst a :
  tokenAddress (tokenInfos_at st src) <> 0 ->
  tokenAddress (tokenInfos_at st dst) <> 0 ->
  keccak256 [Str src] <> keccak256 [Str dst] ->
  0 < lastPrice (priceFeeds_at st src) ->
  0 < lastPrice (priceFeeds_at st dst) ->
  (forall r,
     convertAmount keccak256 st src dst a = Ok r ->
     r = a * lastPrice (priceFeeds_at st src)
           / 10 ^ decimals (tokenInfos_at st src)
         * 10 ^ decimals (tokenInfos_at st dst)
         / lastPrice (priceFeeds_at st dst))
  /\ (0 <= a ->
      0 <= decimals (tokenInfos_at st src) ->
      0 <= decimals (tokenInfos_at st dst) ->
      a * lastPrice (priceFeeds_at st src) <= MAX_UINT256 ->
      10 ^ decimals (tokenInfos_at st src) <= MAX_UINT256 ->
      10 ^ decimals (tokenInfos_at st dst) <= MAX_UINT256 ->
      a * lastPrice (priceFeeds_at st src)
        / 10 ^ decimals (tokenInfos_at st src)
        * 10 ^ decimals (tokenInfos_at st dst) <= MAX_UINT256 ->
      convertAmount keccak256 st src dst a
      = Ok (a * lastPrice (priceFeeds_at st src)
              / 10 ^ decimals (tokenInfos_at st src)
            * 10 ^ decimals (tokenInfos_at st dst)
            / lastPrice (priceFeeds_at st dst)))
  /\ (decimals (tokenInfos_at st src) = 6 ->
      lastPrice (priceFeeds_at st src) = 100000000 ->
      decimals (tokenInfos_at st dst) = 18 ->
      lastPrice (priceFeeds_at st dst) = 300000000000 ->
      convertAmount keccak256 st src dst 3000000000
      = Ok 1000000000000000000).
Proof.
  intros Hsrc Hdst Hne Hpf Hpt.
  assert (Hrun : forall x,
    convertAmount keccak256 st src dst x
    = (let* scaled := checked_mul x (lastPrice (priceFeeds_at st src)) in
       let* unitFrom := checked_pow 10 (decimals (tokenInfos_at st src)) in
       let* valueInUSD := checked_div scaled unitFrom in
       let* unitTo := checked_pow 10 (decimals (tokenInfos_at st dst)) in
       let* rescaled := checked_mul valueInUSD unitTo in
       let* convertedAmount :=
         checked_div rescaled (lastPrice (priceFeeds_at st dst)) in
       Ok convertedAmount)).
  { intros x. unfold convertAmount. rewrite !bind_require.
    apply Z.eqb_neq in Hsrc, Hdst, Hne.
    rewrite Hsrc, Hdst, Hne. cbn [negb]. cbv iota.
    destruct (Z.ltb_spec 0 (lastPrice (priceFeeds_at st src))); [| lia].
    destruct (Z.ltb_spec 0 (lastPrice (priceFeeds_at st dst))); [| lia].
    reflexivity. }
  split; [| split].
  - intros r H. rewrite Hrun in H.
    step_ok H as scaled H1. apply checked_Ok in H1 as [-> _].
    step_ok H as unitFrom H2. apply checked_Ok in H2 as [-> _].
    step_ok H as usd H3. apply checked_div_Ok in H3 as [-> _].
    step_ok H as unitTo H4. apply checked_Ok in H4 as [-> _].
    step_ok H as rescaled H5. apply checked_Ok in H5 as [-> _].
    step_ok H as converted H6. apply checked_div_Ok in H6 as [-> _].
    inversion H. reflexivity.
  - intros Ha Hdf Hdt H1 H2 H3 H4. rewrite Hrun.
    assert (Hunit1 : 0 < 10 ^ decimals (tokenInfos_at st src))
      by (apply Z.pow_pos_nonneg; lia).
    assert (Hunit2 : 0 < 10 ^ decimals (tokenInfos_at st dst))
      by (apply Z.pow_pos_nonneg; lia).
    assert (Husd : 0 <= a * lastPrice (priceFeeds_at st src)
                        / 10 ^ decimals (tokenInfos_at st src))
      by (apply Z.div_pos; nia).
    unfold checked_mul, checked_pow.
    rewrite (checked_in_range (a * _)) by nia. cbn [bind].
    rewrite (checked_in_range (10 ^ decimals (tokenInfos_at st src))) by lia.
    cbn [bind]. unfold checked_div at 1.
    destruct (Z.eqb_spec (10 ^ decimals (tokenInfos_at st src)) 0); [lia |].
    cbn [bind].
    rewrite (checked_in_range (10 ^ decimals (tokenInfos_at st dst))) by lia.
    cbn [bind].
    rewrite checked_in_range by nia. cbn [bind]. unfold checked_div.
    destruct (Z.eqb_spec (lastPrice (priceFeeds_at st dst)) 0); [lia |].
    reflexivity.
  - intros Hdf Hpf' Hdt Hpt'. rewrite Hrun, Hdf, Hpf', Hdt, Hpt'.
    vm_compute. reflexivity.
Qed.

(** C8: convertAmount reverts when the source symbol is unknown, when the
    destination symbol is unknown, and, for symbols that hash differently,
    when either price is zero; for a known symbol, converting an amount to
    the same symbol returns the amount, with no condition on the price
    feed (so also when the token's price is zero). *)
Theorem convertAmount_identity st src dst a :
  (tokenAddress (tokenInfos_at st src) = 0 ->
   convertAmount keccak256 st src dst a
   = Revert (RequireFailed "Source token does not exist"))
  /\ (tokenAddress (tokenInfos_at st src) <> 0 ->
      tokenAddress (tokenInfos_at st dst) = 0 ->
      convertAmount keccak256 st src dst a
      = Revert (RequireFailed "Destination token does not exist"))
  /\ (keccak256 [Str src] <> keccak256 [Str dst] ->
      lastPrice (priceFeeds_at st src) = 0
      \/ lastPrice (priceFeeds_at st dst) = 0 ->
      is_ok (convertAmount keccak256 st src dst a) = false)
  /\ (tokenAddress (tokenInfos_at st src) <> 0 ->
      convertAmount keccak256 st src src a = Ok a).
Proof.
  unfold convertAmount. rewrite !bind_require.
  split; [| split; [| split]].
  - intros ->. reflexivity.
  - intros Hsrc ->. apply Z.eqb_neq in Hsrc. rewrite Hsrc. reflexivity.
  - intros Hne Hprice. apply Z.eqb_neq in Hne. rewrite Hne.
    destruct (negb (tokenAddress (tokenInfos_at st src) =? 0));
      [| reflexivity].
    destruct (negb (tokenAddress (tokenInfos_at st dst) =? 0));
      [| reflexivity].
    destruct Hprice as [-> | ->]; cbn.
    + reflexivity.
    + destruct (0 <? lastPrice (priceFeeds_at st src)); reflexivity.
  - intros Hsrc. apply Z.eqb_neq in Hsrc. rewrite Hsrc. cbn [negb].
    rewrite Z.eqb_refl. reflexivity.
Qed.

End Conversion.

Lemma convertAmount_formula_witness :
  TokenRegistry.convertAmount Deployment.keccak256 Deployment.registry0
    "USDC" "ETH" 3000000000 = Ok 1000000000000000000
  /\ TokenRegistry.convertAmount Deployment.keccak256 Deployment.registry0
       "ETH" "USDC" 1234567890123456789 = Ok 3703703670.
Proof.
  split.
  - apply (proj2 (proj2 (convertAmount_formula Deployment.keccak256
                           Deployment.registry0 "USDC" "ETH" 0
                           ltac:(vm_compute; discriminate)
                           ltac:(vm_compute; discriminate)
                           ltac:(vm_compute; discriminate)
                           ltac:(vm_compute; reflexivity)
                           ltac:(vm_compute; reflexivity))));
      vm_compute; reflexivity.
  - rewrite (proj1 (proj2 (convertAmount_formula Deployment.keccak256
                           Deployment.registry0 "ETH" "USDC"
                           1234567890123456789
                           ltac:(vm_compute; discriminate)
                           ltac:(vm_compute; discriminate)
                           ltac:(vm_compute; discriminate)
                           ltac:(vm_compute; reflexivity)
                           ltac:(vm_compute; reflexivity))));
      vm_compute; congruence.
Defined.

Lemma convertAmount_identity_witness :
  TokenRegistry.lastPrice
    (TokenRegistry.priceFeeds_at Deployment.registry0 "DAI") = 0
  /\ TokenRegistry.convertAmount Deployment.keccak256 Deployment.registry0
       "DAI" "DAI" 42 = Ok 42
  /\ is_ok (TokenRegistry.convertAmount Deployment.keccak256
              Deployment.registry0 "DAI" "ETH" 42) = false
  /\ TokenRegistry.convertAmount Deployment.keccak256 Deployment.registry0
       "BTC" "ETH" 42
     = Revert (RequireFailed "Source token does not exist").
Proof.
  pose proof (convertAmount_identity Deployment.keccak256
                Deployment.registry0 "DAI" "ETH" 42) as (_ & _ & Hzero & Hid).
  pose proof (convertAmount_identity Deployment.keccak256
                Deployment.registry0 "BTC" "ETH" 42) as (Hunknown & _).
  split; [vm_compute; reflexivity |].
  split; [apply Hid; vm_compute; discriminate |].
  split; [apply Hzero; [vm_compute; discriminate | left; vm_compute; reflexivity] |].
  apply Hunknown. vm_compute. reflexivity.
Defined.

(** ** DocumentRegistry *)

Section Documents.
Import DocumentRegistry.

Lemma revokeDocument_Ok env st h reason st' :
  revokeDocument env st h reason = Ok st' ->
  hasRole (_roles st) DOCUMENT_MANAGER_ROLE (msg_sender env) = true
  /\ docHash (documents_at st h) <> 0
  /\ isRevoked (documents_at st h) = false
  /\ documents_at st' h
     = {| docHash := docHash (documents_at st h);
          registeredBy := registeredBy (documents_at st h);
          timestamp := timestamp (documents_at st h);
          docType := docType (documents_at st h);
          docReference := docReference (documents_at st h);
          isRevoked := true |}.
Proof.
  unfold revokeDocument, onlyRole. intros H.
  destruct (hasRole (_roles st) DOCUMENT_MANAGER_ROLE (msg_sender env));
    [| discriminate H]. cbn [bind] in H.
  step_ok H as u1 Hreg. req Hreg. apply negb_true_iff, Z.eqb_neq in Hreg.
  step_ok H as u2 Hrev. req Hrev. apply negb_true_iff in Hrev.
  inversion H; subst; clear H.
  repeat split; try assumption.
  unfold documents_at at 1; simpl. rewrite lookup_insert_eq. reflexivity.
Qed.

Lemma revokeDocument_refused env st h reason :
  docHash (documents_at st h) = 0 \/ isRevoked (documents_at st h) = true ->
  is_ok (revokeDocument env st h reason) = false.
Proof.
  intros Hbad.
  destruct (revokeDocument env st h reason) as [st' |] eqn:H;
    [| reflexivity].
  apply revokeDocument_Ok in H as (_ & Hreg & Hrev & _).
  destruct Hbad; congruence.
Qed.

(** C9: revokeDocument does not go through on an unregistered document
    nor on a revoked one; after a revocation that went through, no further
    revocation of that document goes through, whoever calls it (the same
    caller gets "Document already revoked"), and verifyDocument returns
    exists = true and isValid = false.  verifyDocument is a function of
    the storage alone and returns [(exists, exists && !revoked, record)],
    where exists says that the stored fingerprint is nonzero. *)
Theorem revokeDocument_once env st h reason :
  (docHash (documents_at st h) = 0 ->
   is_ok (revokeDocument env st h reason) = false)
  /\ (isRevoked (documents_at st h) = true ->
      is_ok (revokeDocument env st h reason) = false)
  /\ (forall st',
        revokeDocument env st h reason = Ok st' ->
        (forall env2 reason2,
           is_ok (revokeDocument env2 st' h reason2) = false)
        /\ revokeDocument env st' h reason
           = Revert (RequireFailed "Document already revoked")
        /\ fst (verifyDocument st' h) = (true, false))
  /\ verifyDocument st h
     = (negb (docHash (documents_at st h) =? 0),
        negb (docHash (documents_at st h) =? 0)
        && negb (isRevoked (documents_at st h)),
        documents_at st h).
Proof.
  split; [| split; [| split]].
  - intros H. apply revokeDocument_refused. left. exact H.
  - intros H. apply revokeDocument_refused. right. exact H.
  - intros st' H.
    pose proof H as H'.
    apply revokeDocument_Ok in H as (Hrole & Hreg & _ & Hdoc).
    assert (Hroles : _roles st' = _roles st).
    { unfold revokeDocument in H'. do 3 step_ok H'.
      inversion H'. reflexivity. }
    split; [| split].
    + intros env2 reason2. apply revokeDocument_refused.
      right. rewrite Hdoc. reflexivity.
    + unfold revokeDocument, onlyRole. rewrite Hroles, Hrole. cbn [bind].
      rewrite !bind_require, Hdoc. simpl.
      apply Z.eqb_neq in Hreg. rewrite Hreg. reflexivity.
    + unfold verifyDocument. rewrite Hdoc. simpl.
      apply Z.eqb_neq in Hreg. rewrite Hreg. reflexivity.
  - reflexivity.
Qed.

(** C10: for a caller that does not hold the document-manager role, both
    registerDocument and batchRegisterDocuments revert with
    AccessControl's unauthorized-account error, an authorization error,
    whatever their arguments, and the registry after the transaction is
    the registry before it. *)
Theorem register_requires_document_manager env st :
  hasRole (_roles st) DOCUMENT_MANAGER_ROLE (msg_sender env) = false ->
  (forall h t r,
     registerDocument env st h t r
     = Revert (AccessControlUnauthorizedAccount (msg_sender env)
                 DOCUMENT_MANAGER_ROLE)
     /\ commit st (registerDocument env st h t r) = st)
  /\ (forall hashes types refs,
        batchRegisterDocuments env st hashes types refs
        = Revert (AccessControlUnauthorizedAccount (msg_sender env)
                    DOCUMENT_MANAGER_ROLE)
        /\ commit st (batchRegisterDocuments env st hashes types refs) = st)
  /\ errorKind (AccessControlUnauthorizedAccount (msg_sender env)
                  DOCUMENT_MANAGER_ROLE) = AuthorizationError.
Proof.
  intros Hrole.
  split; [| split; [| reflexivity]].
  - intros h t r. unfold registerDocument, onlyRole. rewrite Hrole.
    split; reflexivity.
  - intros hashes types refs. unfold batchRegisterDocuments, onlyRole.
    rewrite Hrole. split; reflexivity.
Qed.

End Documents.

Lemma revokeDocument_once_witness :
  exists st',
    DocumentRegistry.revokeDocument
      (Deployment.asAdmin Deployment.documentsAddress 2000)
      Deployment.documents0 77 "superseded" = Ok st'
    /\ DocumentRegistry.revokeDocument
         (Deployment.asAdmin Deployment.documentsAddress 2000)
         st' 77 "superseded"
       = Revert (RequireFailed "Document already revoked")
    /\ fst (DocumentRegistry.verifyDocument st' 77) = (true, false)
    /\ fst (DocumentRegistry.verifyDocument Deployment.documents0 77)
       = (true, true)
    /\ is_ok (DocumentRegistry.revokeDocument
                (Deployment.asAdmin Deployment.documentsAddress 2000)
                Deployment.documents0 78 "unknown") = false.
Proof.
  destruct (DocumentRegistry.revokeDocument
              (Deployment.asAdmin Deployment.documentsAddress 2000)
              Deployment.documents0 77 "superseded") as [st' | e] eqn:Hrun;
    [| vm_compute in Hrun; discriminate Hrun].
  exists st'. split; [reflexivity |].
  destruct (revokeDocument_once
              (Deployment.asAdmin Deployment.documentsAddress 2000)
              Deployment.documents0 77 "superseded")
    as (_ & _ & Hafter & _).
  destruct (Hafter st' Hrun) as (_ & Hsecond & Hverify).
  split; [exact Hsecond |]. split; [exact Hverify |].
  split; [vm_compute; reflexivity |].
  apply (proj1 (revokeDocument_once _ _ 78 "unknown")).
  vm_compute. reflexivity.
Defined.

Lemma register_requires_document_manager_witness :
  DocumentRegistry.registerDocument
    (mkEnv Deployment.payer Deployment.documentsAddress 2000)
    Deployment.documents0 78 DocumentRegistry.Receipt "R-1"
  = Revert (AccessControlUnauthorizedAccount Deployment.payer
              DOCUMENT_MANAGER_ROLE)
  /\ DocumentRegistry.batchRegisterDocuments
       (mkEnv Deployment.payer Deployment.documentsAddress 2000)
       Deployment.documents0 [78; 79]
       [DocumentRegistry.Receipt; DocumentRegistry.Other] ["R-1"; "R-2"]
     = Revert (AccessControlUnauthorizedAccount Deployment.payer
                 DOCUMENT_MANAGER_ROLE)
  /\ is_ok (DocumentRegistry.batchRegisterDocuments
              (Deployment.asAdmin Deployment.documentsAddress 2000)
              Deployment.documents0 [78; 79]
              [DocumentRegistry.Receipt; DocumentRegistry.Other]
              ["R-1"; "R-2"]) = true.
Proof.
  pose proof (register_requires_document_manager
                (mkEnv Deployment.payer Deployment.documentsAddress 2000)
                Deployment.documents0 ltac:(vm_compute; reflexivity))
    as (Hone & Hbatch & _).
  split; [apply Hone |]. split; [apply Hbatch |].
  vm_compute. reflexivity.
Defined.
(** ** Role checks *)

Lemma onlyRole_Ok roles role env u :
  onlyRole roles role env = Ok u -> hasRole roles role (msg_sender env) = true.
Proof.
  unfold onlyRole. destruct (hasRole roles role (msg_sender env));
    [reflexivity | discriminate].
Qed.

Lemma onlyRole_true roles role env :
  hasRole roles role (msg_sender env) = true -> onlyRole roles role env = Ok tt.
Proof. unfold onlyRole. intros ->. reflexivity. Qed.

Lemma hasRole_grant roles role account r a :
  hasRole (_grantRole roles role account) r a
  = bool_decide ((r, a) = (role, account)) || hasRole roles r a.
Proof.
  unfold hasRole, _grantRole.
  destruct (decide ((r, a) = (role, account))) as [He | Hne].
  - rewrite (bool_decide_eq_true_2 _ He). simpl.
    apply bool_decide_eq_true_2, elem_of_union. left.
    apply elem_of_singleton. exact He.
  - rewrite (bool_decide_eq_false_2 _ Hne). simpl.
    apply bool_decide_ext. rewrite elem_of_union, elem_of_singleton. tauto.
Qed.

Lemma hasRole_revoke roles role account r a :
  hasRole (AccessControl._revokeRole roles role account) r a
  = negb (bool_decide ((r, a) = (role, account))) && hasRole roles r a.
Proof.
  unfold hasRole, AccessControl._revokeRole.
  destruct (decide ((r, a) = (role, account))) as [He | Hne].
  - rewrite (bool_decide_eq_true_2 _ He). simpl.
    apply bool_decide_eq_false_2.
    rewrite elem_of_difference, elem_of_singleton. tauto.
  - rewrite (bool_decide_eq_false_2 _ Hne). simpl.
    apply bool_decide_ext.
    rewrite elem_of_difference, elem_of_singleton. tauto.
Qed.

(** ** TokenRegistry: listing, prices and roles *)

Section Registry.
Import TokenRegistry.

Lemma tokenInfos_at_insert (m : gmap string TokenInfo) pf sup roles ev s info
    x :
  tokenInfos_at (mkStorage (<[s := info]> m) pf sup roles ev) x
  = if decide (s = x) then info else tokenInfos_at (mkStorage m pf sup roles ev) x.
Proof.
  unfold tokenInfos_at; simpl. rewrite lookup_insert.
  destruct (decide (s = x)); reflexivity.
Qed.

Lemma priceFeeds_at_insert ti (m : gmap string PriceFeed) sup roles ev s feed
    x :
  priceFeeds_at (mkStorage ti (<[s := feed]> m) sup roles ev) x
  = if decide (s = x) then feed else priceFeeds_at (mkStorage ti m sup roles ev) x.
Proof.
  unfold priceFeeds_at; simpl. rewrite lookup_insert.
  destruct (decide (s = x)); reflexivity.
Qed.

(** What each function that goes through does to the two tables. *)
Lemma addToken_Ok env st s a d m st' :
  addToken env st s a d m = Ok st' ->
  hasRole (_roles st) ADMIN_ROLE (msg_sender env) = true
  /\ s <> "" /\ a <> 0 /\ tokenAddress (tokenInfos_at st s) = 0
  /\ st' = {| tokenInfos :=
                <[s := {| symbol := s; tokenAddress := a; decimals := d;
                          isEnabled := true;
                          minimumTransferAmount := m |}]> (tokenInfos st);
              priceFeeds := priceFeeds st;
              supportedTokens := supportedTokens st ++ [s];
              _roles := _roles st;
              events := events st ++ [TokenAdded s a d m] |}.
Proof.
  unfold addToken. intros H.
  step_ok H as u0 Hrole. apply onlyRole_Ok in Hrole.
  step_ok H as u1 Hlen. req Hlen.
  step_ok H as u2 Ha. req Ha. apply negb_true_iff, Z.eqb_neq in Ha.
  step_ok H as u3 Hnew. req Hnew. apply Z.eqb_eq in Hnew.
  inversion H; subst; clear H.
  repeat split; try assumption.
  intros ->. simpl in Hlen. discriminate Hlen.
Qed.

Lemma updateToken_Ok env st s e m st' :
  updateToken env st s e m = Ok st' ->
  hasRole (_roles st) ADMIN_ROLE (msg_sender env) = true
  /\ tokenAddress (tokenInfos_at st s) <> 0
  /\ st' = {| tokenInfos :=
                <[s := {| symbol := symbol (tokenInfos_at st s);
                          tokenAddress := tokenAddress (tokenInfos_at st s);
                          decimals := decimals (tokenInfos_at st s);
                          isEnabled := e;
                          minimumTransferAmount := m |}]> (tokenInfos st);
              priceFeeds := priceFeeds st;
              supportedTokens := supportedTokens st;
              _roles := _roles st;
              events := events st ++ [TokenUpdated s e m] |}.
Proof.
  unfold updateToken. intros H.
  step_ok H as u0 Hrole. apply onlyRole_Ok in Hrole.
  step_ok H as u1 Hk. req Hk. apply negb_true_iff, Z.eqb_neq in Hk.
  inversion H; subst; clear H. auto.
Qed.

Lemma setPriceFeed_Ok env st s a st' :
  setPriceFeed env st s a = Ok st' ->
  hasRole (_roles st) ADMIN_ROLE (msg_sender env) = true
  /\ tokenAddress (tokenInfos_at st s) <> 0 /\ a <> 0
  /\ st' = {| tokenInfos := tokenInfos st;
              priceFeeds :=
                <[s := {| feedAddress := a;
                          lastPrice := lastPrice (priceFeeds_at st s);
                          lastUpdateTimestamp :=
                            lastUpdateTimestamp (priceFeeds_at st s) |}]>
                  (priceFeeds st);
              supportedTokens := supportedTokens st;
              _roles := _roles st;
              events := events st
                        ++ [PriceFeedUpdated s a
                              (lastPrice (priceFeeds_at st s))] |}.
Proof.
  unfold setPriceFeed. intros H.
  step_ok H as u0 Hrole. apply onlyRole_Ok in Hrole.
  step_ok H as u1 Hk. req Hk. apply negb_true_iff, Z.eqb_neq in Hk.
  step_ok H as u2 Ha. req Ha. apply negb_true_iff, Z.eqb_neq in Ha.
  inversion H; subst; clear H. auto.
Qed.

Lemma updatePrice_Ok env st s p st' :
  updatePrice env st s p = Ok st' ->
  hasRole (_roles st) PRICE_FEEDER_ROLE (msg_sender env) = true
  /\ tokenAddress (tokenInfos_at st s) <> 0
  /\ st' = {| tokenInfos := tokenInfos st;
              priceFeeds :=
                <[s := {| feedAddress := feedAddress (priceFeeds_at st s);
                          lastPrice := p;
                          lastUpdateTimestamp := block_timestamp env |}]>
                  (priceFeeds st);
              supportedTokens := supportedTokens st;
              _roles := _roles st;
              events := events st
                        ++ [PriceFeedUpdated s
                              (feedAddress (priceFeeds_at st s)) p] |}.
Proof.
  unfold updatePrice. intros H.
  step_ok H as u0 Hrole. apply onlyRole_Ok in Hrole.
  step_ok H as u1 Hk. req Hk. apply negb_true_iff, Z.eqb_neq in Hk.
  inversion H; subst; clear H. auto.
Qed.

Lemma grantPriceFeederRole_Ok env st a st' :
  grantPriceFeederRole env st a = Ok st' ->
  hasRole (_roles st) ADMIN_ROLE (msg_sender env) = true
  /\ hasRole (_roles st) DEFAULT_ADMIN_ROLE (msg_sender env) = true
  /\ st' = set_roles st (_grantRole (_roles st) PRICE_FEEDER_ROLE a).
Proof.
  unfold grantPriceFeederRole, AccessControl.grantRole. intros H.
  step_ok H as u0 Hrole. apply onlyRole_Ok in Hrole.
  step_ok H as roles Hg. step_ok Hg as u1 Hadmin. apply onlyRole_Ok in Hadmin.
  inversion Hg; subst. inversion H; subst. auto.
Qed.

Lemma revokePriceFeederRole_Ok env st a st' :
  revokePriceFeederRole env st a = Ok st' ->
  hasRole (_roles st) ADMIN_ROLE (msg_sender env) = true
  /\ hasRole (_roles st) DEFAULT_ADMIN_ROLE (msg_sender env) = true
  /\ st' = set_roles st
             (AccessControl._revokeRole (_roles st) PRICE_FEEDER_ROLE a).
Proof.
  unfold revokePriceFeederRole, AccessControl.revokeRole. intros H.
  step_ok H as u0 Hrole. apply onlyRole_Ok in Hrole.
  step_ok H as roles Hg. step_ok Hg as u1 Hadmin. apply onlyRole_Ok in Hadmin.
  inversion Hg; subst. inversion H; subst. auto.
Qed.

Lemma addToken_run env st s a d m :
  hasRole (_roles st) ADMIN_ROLE (msg_sender env) = true ->
  s <> "" -> a <> 0 -> tokenAddress (tokenInfos_at st s) = 0 ->
  is_ok (addToken env st s a d m) = true.
Proof.
  intros Hrole Hs Ha Hnew. unfold addToken.
  rewrite onlyRole_true by exact Hrole. cbn [bind]. rewrite !bind_require.
  destruct s as [| c s]; [contradiction |].
  apply Z.eqb_neq in Ha. rewrite Ha, Hnew. reflexivity.
Qed.

(** X1: addToken goes through exactly when the caller holds ADMIN_ROLE,
    the symbol is not empty, the token address is not null and the symbol
    is not listed yet.  After it, getTokenInfo returns the token as given,
    enabled; the symbol is appended to the list of supported tokens; the
    price feed of the symbol and the other tokens are as before; and no
    later addToken of the same symbol goes through, whoever calls it. *)
Theorem addToken_lists_token env st s a d m :
  (is_ok (addToken env st s a d m) = true <->
   hasRole (_roles st) ADMIN_ROLE (msg_sender env) = true
   /\ s <> "" /\ a <> 0 /\ tokenAddress (tokenInfos_at st s) = 0)
  /\ (forall st',
        addToken env st s a d m = Ok st' ->
        getTokenInfo st' s
        = Ok {| symbol := s; tokenAddress := a; decimals := d;
                isEnabled := true; minimumTransferAmount := m |}
        /\ getSupportedTokens st' = getSupportedTokens st ++ [s]
        /\ priceFeeds_at st' s = priceFeeds_at st s
        /\ (forall x, x <> s -> tokenInfos_at st' x = tokenInfos_at st x)
        /\ (forall env2 a2 d2 m2,
              is_ok (addToken env2 st' s a2 d2 m2) = false)).
Proof.
  split.
  - split.
    + destruct (addToken env st s a d m) as [st' |] eqn:H; [| discriminate].
      intros _. apply addToken_Ok in H. tauto.
    + intros (Hrole & Hs & Ha & Hnew). apply addToken_run; assumption.
  - intros st' H. apply addToken_Ok in H as (_ & _ & Ha & _ & ->).
    assert (Hinfo : forall x,
              tokenInfos_at
                {| tokenInfos :=
                     <[s := {| symbol := s; tokenAddress := a; decimals := d;
                               isEnabled := true;
                               minimumTransferAmount := m |}]> (tokenInfos st);
                   priceFeeds := priceFeeds st;
                   supportedTokens := supportedTokens st ++ [s];
                   _roles := _roles st;
                   events := events st ++ [TokenAdded s a d m] |} x
              = if decide (s = x)
                then {| symbol := s; tokenAddress := a; decimals := d;
                        isEnabled := true; minimumTransferAmount := m |}
                else tokenInfos_at st x).
    { intros x. apply tokenInfos_at_insert. }
    split; [| split; [reflexivity | split; [reflexivity | split]]].
    + unfold getTokenInfo. rewrite Hinfo.
      destruct (decide (s = s)); [| contradiction]. simpl.
      apply Z.eqb_neq in Ha. rewrite Ha. reflexivity.
    + intros x Hx. rewrite Hinfo.
      destruct (decide (s = x)); [congruence | reflexivity].
    + intros env2 a2 d2 m2.
      match goal with
      | |- is_ok ?r = false => destruct r as [st2 |] eqn:H2; [| reflexivity]
      end.
      apply addToken_Ok in H2 as (_ & _ & _ & Hnew & _).
      rewrite Hinfo in Hnew. destruct (decide (s = s)); [| contradiction].
      simpl in Hnew. contradiction.
Qed.

(** Reads of the two tables after each kind of write. *)
Lemma tokenInfos_at_set_roles st roles x :
  tokenInfos_at (set_roles st roles) x = tokenInfos_at st x.
Proof. reflexivity. Qed.

Lemma priceFeeds_at_set_roles st roles x :
  priceFeeds_at (set_roles st roles) x = priceFeeds_at st x.
Proof. reflexivity. Qed.

Lemma tokenInfos_at_write st s info pf sup roles ev x :
  tokenInfos_at (mkStorage (<[s := info]> (tokenInfos st)) pf sup roles ev) x
  = if decide (s = x) then info else tokenInfos_at st x.
Proof. apply tokenInfos_at_insert. Qed.

Lemma tokenInfos_at_keep st pf sup roles ev x :
  tokenInfos_at (mkStorage (tokenInfos st) pf sup roles ev) x
  = tokenInfos_at st x.
Proof. reflexivity. Qed.

Lemma priceFeeds_at_write st ti s feed sup roles ev x :
  priceFeeds_at (mkStorage ti (<[s := feed]> (priceFeeds st)) sup roles ev) x
  = if decide (s = x) then feed else priceFeeds_at st x.
Proof. apply priceFeeds_at_insert. Qed.

Lemma priceFeeds_at_keep st ti sup roles ev x :
  priceFeeds_at (mkStorage ti (priceFeeds st) sup roles ev) x
  = priceFeeds_at st x.
Proof. reflexivity. Qed.

(** Replaces a call that went through by the storage it leaves. *)
Ltac run_cases H :=
  match type of H with
  | run _ _ ?c = Ok _ =>
      destruct c; simpl in H;
      [ apply addToken_Ok in H as (? & ? & ? & ? & ->)
      | apply updateToken_Ok in H as (? & ? & ->)
      | apply setPriceFeed_Ok in H as (? & ? & ? & ->)
      | apply updatePrice_Ok in H as (? & ? & ->)
      | apply grantPriceFeederRole_Ok in H as (? & ? & ->)
      | apply revokePriceFeederRole_Ok in H as (? & ? & ->) ]
  end.

Ltac table_reads :=
  rewrite ?tokenInfos_at_set_roles, ?priceFeeds_at_set_roles,
    ?tokenInfos_at_write, ?priceFeeds_at_write,
    ?tokenInfos_at_keep, ?priceFeeds_at_keep in *.

(** X2: in every storage reached from the constructor by calls of the
    functions of the registry ([TokenRegistry.run]), the list of supported
    tokens has no duplicate and holds exactly the symbols that have a token
    address; a listed token carries its own symbol, which is not empty; and
    a symbol that is not listed has the zero price feed. *)
Theorem supportedTokens_lists_known st :
  reachable st ->
  NoDup (supportedTokens st)
  /\ (forall s, s ∈ supportedTokens st
                <-> tokenAddress (tokenInfos_at st s) <> 0)
  /\ (forall s, tokenAddress (tokenInfos_at st s) <> 0 ->
                symbol (tokenInfos_at st s) = s /\ s <> "")
  /\ (forall s, tokenAddress (tokenInfos_at st s) = 0 ->
                priceFeeds_at st s = mkPriceFeed 0 0 0).
Proof.
  induction 1 as [env | env st c st' Hreach (Hnodup & Hlist & Hsym & Hfeed) Hrun].
  - split; [constructor |]. split; [| split].
    + intros s. unfold tokenInfos_at; simpl. rewrite lookup_empty. simpl.
      split; [intros Hin; inversion Hin | intros H; contradiction].
    + intros s. unfold tokenInfos_at; simpl. rewrite lookup_empty. simpl.
      intros H; contradiction.
    + intros s _. unfold priceFeeds_at; simpl. rewrite lookup_empty.
      reflexivity.
  - run_cases Hrun; simpl; table_reads.
    + (* addToken *)
      split; [| split; [| split]].
      * apply NoDup_app. split; [exact Hnodup |].
        split; [| apply NoDup_singleton].
        intros x Hx Hx'. apply list_elem_of_singleton in Hx'. subst x.
        apply Hlist in Hx. contradiction.
      * intros s. rewrite elem_of_app, list_elem_of_singleton.
        table_reads. destruct (decide (_symbol = s)) as [-> | Hne]; simpl.
        -- split; [intros _; assumption | intros _; right; reflexivity].
        -- rewrite Hlist. split; [intros [Hk | ->]; [exact Hk | contradiction]
                                 | intros Hk; left; exact Hk].
      * intros s. table_reads.
        destruct (decide (_symbol = s)) as [-> | Hne]; simpl.
        -- intros _. split; [reflexivity | assumption].
        -- apply Hsym.
      * intros s. table_reads.
        destruct (decide (_symbol = s)) as [-> | Hne]; simpl.
        -- intros Hz. contradiction.
        -- apply Hfeed.
    + (* updateToken *)
      split; [exact Hnodup |]. split; [| split].
      * intros s. table_reads.
        destruct (decide (_symbol = s)) as [-> | Hne]; simpl; apply Hlist.
      * intros s. table_reads.
        destruct (decide (_symbol = s)) as [-> | Hne]; simpl; apply Hsym.
      * intros s. table_reads.
        destruct (decide (_symbol = s)) as [-> | Hne]; simpl; apply Hfeed.
    + (* setPriceFeed *)
      split; [exact Hnodup |]. split; [exact Hlist |]. split; [exact Hsym |].
      intros s Hs. table_reads.
      destruct (decide (_symbol = s)) as [-> | Hne]; [contradiction |].
      apply Hfeed. exact Hs.
    + (* updatePrice *)
      split; [exact Hnodup |]. split; [exact Hlist |]. split; [exact Hsym |].
      intros s Hs. table_reads.
      destruct (decide (_symbol = s)) as [-> | Hne]; [contradiction |].
      apply Hfeed. exact Hs.
    + auto.
    + auto.
Qed.

(** X3: no call of the registry changes the address, the decimals or the
    symbol of a listed token: there is no way to remove a token or to
    repoint it. *)
Theorem listed_token_is_permanent env st c st' s :
  run env st c = Ok st' ->
  tokenAddress (tokenInfos_at st s) <> 0 ->
  tokenAddress (tokenInfos_at st' s) = tokenAddress (tokenInfos_at st s)
  /\ decimals (tokenInfos_at st' s) = decimals (tokenInfos_at st s)
  /\ symbol (tokenInfos_at st' s) = symbol (tokenInfos_at st s).
Proof.
  intros Hrun Hknown. run_cases Hrun; table_reads;
    try (destruct (decide (_symbol = s)) as [-> | Hne]; simpl);
    try contradiction; auto.
Qed.

Section Conversions.
Variable keccak256 : list AbiValue -> bytes32.

(** A conversion between two symbols that hash differently goes through
    exactly when the prices are positive and no intermediate value leaves
    the uint256 range. *)
Lemma convertAmount_cross_Ok st src dst a r :
  keccak256 [Str src] <> keccak256 [Str dst] ->
  convertAmount keccak256 st src dst a = Ok r ->
  0 < lastPrice (priceFeeds_at st src)
  /\ 0 < lastPrice (priceFeeds_at st dst)
  /\ 0 <= a * lastPrice (priceFeeds_at st src) <= MAX_UINT256
  /\ 0 < 10 ^ decimals (tokenInfos_at st src) <= MAX_UINT256
  /\ 0 <= 10 ^ decimals (tokenInfos_at st dst) <= MAX_UINT256
  /\ 0 <= a * lastPrice (priceFeeds_at st src)
          / 10 ^ decimals (tokenInfos_at st src)
          * 10 ^ decimals (tokenInfos_at st dst) <= MAX_UINT256
  /\ r = a * lastPrice (priceFeeds_at st src)
           / 10 ^ decimals (tokenInfos_at st src)
         * 10 ^ decimals (tokenInfos_at st dst)
         / lastPrice (priceFeeds_at st dst).
Proof.
  intros Hne H. unfold convertAmount in H.
  do 2 step_ok H. apply Z.eqb_neq in Hne. rewrite Hne in H.
  step_ok H as u1 Hpf. req Hpf. apply Z.ltb_lt in Hpf.
  step_ok H as u2 Hpt. req Hpt. apply Z.ltb_lt in Hpt.
  step_ok H as scaled H1. apply checked_Ok in H1 as [-> H1].
  step_ok H as unitFrom H2. apply checked_Ok in H2 as [-> H2].
  step_ok H as usd H3. apply checked_div_Ok in H3 as [-> H3].
  step_ok H as unitTo H4. apply checked_Ok in H4 as [-> H4].
  step_ok H as rescaled H5. apply checked_Ok in H5 as [-> H5].
  step_ok H as converted H6. apply checked_div_Ok in H6 as [-> H6].
  inversion H; subst; clear H.
  assert (0 < 10 ^ decimals (tokenInfos_at st src)) by lia.
  assert (Husd : 0 <= a * lastPrice (priceFeeds_at st src)
                      / 10 ^ decimals (tokenInfos_at st src))
    by (apply Z.div_pos; lia).
  repeat split; try lia.
Qed.

Lemma convertAmount_cross_run st src dst a :
  tokenAddress (tokenInfos_at st src) <> 0 ->
  tokenAddress (tokenInfos_at st dst) <> 0 ->
  keccak256 [Str src] <> keccak256 [Str dst] ->
  0 < lastPrice (priceFeeds_at st src) ->
  0 < lastPrice (priceFeeds_at st dst) ->
  0 <= a * lastPrice (priceFeeds_at st src) <= MAX_UINT256 ->
  0 < 10 ^ decimals (tokenInfos_at st src) <= MAX_UINT256 ->
  0 <= 10 ^ decimals (tokenInfos_at st dst) <= MAX_UINT256 ->
  0 <= a * lastPrice (priceFeeds_at st src)
        / 10 ^ decimals (tokenInfos_at st src)
        * 10 ^ decimals (tokenInfos_at st dst) <= MAX_UINT256 ->
  convertAmount keccak256 st src dst a
  = Ok (a * lastPrice (priceFeeds_at st src)
          / 10 ^ decimals (tokenInfos_at st src)
        * 10 ^ decimals (tokenInfos_at st dst)
        / lastPrice (priceFeeds_at st dst)).
Proof.
  intros Hs Hd Hne Hpf Hpt H1 H2 H3 H4. unfold convertAmount.
  rewrite !bind_require.
  apply Z.eqb_neq in Hs, Hd, Hne. rewrite Hs, Hd, Hne. cbn [negb]. cbv iota.
  apply Z.ltb_lt in Hpf, Hpt. rewrite Hpf, Hpt.
  apply Z.ltb_lt in Hpf, Hpt.
  unfold checked_mul, checked_pow.
  rewrite (checked_in_range (a * _)) by exact H1. cbn [bind].
  rewrite (checked_in_range (10 ^ decimals (tokenInfos_at st src))) by lia.
  cbn [bind]. unfold checked_div at 1.
  destruct (Z.eqb_spec (10 ^ decimals (tokenInfos_at st src)) 0); [lia |].
  cbn [bind].
  rewrite (checked_in_range (10 ^ decimals (tokenInfos_at st dst)))
    by exact H3.
  cbn [bind]. rewrite checked_in_range by exact H4. cbn [bind].
  unfold checked_div.
  destruct (Z.eqb_spec (lastPrice (priceFeeds_at st dst)) 0); [lia |].
  reflexivity.
Qed.

Lemma convertAmount_known st src dst a r :
  convertAmount keccak256 st src dst a = Ok r ->
  tokenAddress (tokenInfos_at st src) <> 0
  /\ tokenAddress (tokenInfos_at st dst) <> 0.
Proof.
  unfold convertAmount. intros H.
  step_ok H as u1 Hs. req Hs. apply negb_true_iff, Z.eqb_neq in Hs.
  step_ok H as u2 Hd. req Hd. apply negb_true_iff, Z.eqb_neq in Hd.
  auto.
Qed.

Lemma convertAmount_same_hash st src dst a r :
  keccak256 [Str src] = keccak256 [Str dst] ->
  convertAmount keccak256 st src dst a = Ok r -> r = a.
Proof.
  intros He H. unfold convertAmount in H. do 2 step_ok H.
  rewrite He, Z.eqb_refl in H. inversion H. reflexivity.
Qed.

(** X4: a conversion between two different tokens never favours the
    caller: the result is not negative, its value is at most the value of
    the amount converted (both sides weighed with the prices and the
    decimals, without division), and converting the result back gives at
    most the amount one started from. *)
Theorem convertAmount_never_rounds_up st src dst a r :
  convertAmount keccak256 st src dst a = Ok r ->
  keccak256 [Str src] <> keccak256 [Str dst] ->
  0 <= r
  /\ r * lastPrice (priceFeeds_at st dst)
       * 10 ^ decimals (tokenInfos_at st src)
     <= a * lastPrice (priceFeeds_at st src)
          * 10 ^ decimals (tokenInfos_at st dst)
  /\ (forall back,
        convertAmount keccak256 st dst src r = Ok back -> back <= a).
Proof.
  intros H Hne.
  apply (convertAmount_cross_Ok _ _ _ _ _ Hne) in H
    as (Hpf & Hpt & H1 & H2 & H3 & H4 & Hr).
  set (pf := lastPrice (priceFeeds_at st src)) in *.
  set (pt := lastPrice (priceFeeds_at st dst)) in *.
  set (U := 10 ^ decimals (tokenInfos_at st src)) in *.
  set (V := 10 ^ decimals (tokenInfos_at st dst)) in *.
  assert (Hq1 : U * (a * pf / U) <= a * pf) by (apply Z.mul_div_le; lia).
  assert (Hq2 : pt * (a * pf / U * V / pt) <= a * pf / U * V)
    by (apply Z.mul_div_le; lia).
  assert (Hr0 : 0 <= r) by (subst r; apply Z.div_pos; lia).
  assert (Hup : r * pt * U <= a * pf * V).
  { subst r.
    transitivity (a * pf / U * V * U); [| nia].
    apply Z.mul_le_mono_nonneg_r; lia. }
  split; [exact Hr0 | split; [exact Hup |]].
  intros back Hback.
  assert (Hne' : keccak256 [Str dst] <> keccak256 [Str src]) by congruence.
  apply (convertAmount_cross_Ok _ _ _ _ _ Hne') in Hback
    as (_ & _ & B1 & B2 & B3 & B4 & Hb).
  fold pf pt U V in B1, B2, B3, B4, Hb.
  assert (Hb1 : V * (r * pt / V) <= r * pt) by (apply Z.mul_div_le; lia).
  assert (Hb2 : pf * (r * pt / V * U / pf) <= r * pt / V * U)
    by (apply Z.mul_div_le; lia).
  assert (Hdown : back * pf * V <= r * pt * U).
  { subst back.
    transitivity (r * pt / V * U * V); [| nia].
    apply Z.mul_le_mono_nonneg_r; lia. }
  assert (Hfin : back * (pf * V) <= a * (pf * V)) by nia.
  apply Z.mul_le_mono_pos_r in Hfin; [exact Hfin | nia].
Qed.

(** X5: convertAmount is monotone: when the conversion of [b] goes
    through, the conversion of any [a] between 0 and [b] goes through as
    well and gives no more. *)
Theorem convertAmount_monotone st src dst a b rb :
  convertAmount keccak256 st src dst b = Ok rb ->
  0 <= a <= b ->
  exists ra, convertAmount keccak256 st src dst a = Ok ra /\ ra <= rb.
Proof.
  intros Hb Hab.
  destruct (Z.eq_dec (keccak256 [Str src]) (keccak256 [Str dst])) as [He | Hne].
  - pose proof (convertAmount_same_hash _ _ _ _ _ He Hb) as ->.
    exists a. split; [| lia].
    unfold convertAmount in *.
    step_ok Hb as u1 Hreq1. step_ok Hb as u2 Hreq2.
    rewrite Hreq1, Hreq2. cbn [bind]. rewrite He, Z.eqb_refl. reflexivity.
  - pose proof (convertAmount_known _ _ _ _ _ Hb) as [Hs Hd].
    apply (convertAmount_cross_Ok _ _ _ _ _ Hne) in Hb
      as (Hpf & Hpt & H1 & H2 & H3 & H4 & ->).
    set (pf := lastPrice (priceFeeds_at st src)) in *.
    set (pt := lastPrice (priceFeeds_at st dst)) in *.
    set (U := 10 ^ decimals (tokenInfos_at st src)) in *.
    set (V := 10 ^ decimals (tokenInfos_at st dst)) in *.
    assert (Hm1 : a * pf <= b * pf) by nia.
    assert (Hm2 : a * pf / U <= b * pf / U) by (apply Z.div_le_mono; lia).
    assert (Hm0 : 0 <= a * pf / U) by (apply Z.div_pos; nia).
    assert (Hm3 : a * pf / U * V <= b * pf / U * V) by nia.
    eexists. split.
    + apply convertAmount_cross_run; fold pf pt U V; try assumption; nia.
    + fold pf pt U V. apply Z.div_le_mono; lia.
Qed.

(** A conversion reads the token address and decimals of its two symbols
    and their last prices, nothing else. *)
Lemma convertAmount_ext st st' src dst a :
  (forall x, x = src \/ x = dst ->
             tokenAddress (tokenInfos_at st' x)
             = tokenAddress (tokenInfos_at st x)
             /\ decimals (tokenInfos_at st' x) = decimals (tokenInfos_at st x)
             /\ lastPrice (priceFeeds_at st' x)
                = lastPrice (priceFeeds_at st x)) ->
  convertAmount keccak256 st' src dst a = convertAmount keccak256 st src dst a.
Proof.
  intros Hsame.
  destruct (Hsame src (or_introl eq_refl)) as (Ha1 & Hd1 & Hp1).
  destruct (Hsame dst (or_intror eq_refl)) as (Ha2 & Hd2 & Hp2).
  unfold convertAmount. rewrite Ha1, Ha2, Hd1, Hd2, Hp1, Hp2. reflexivity.
Qed.

(** X6: a call of the registry that is neither an addToken nor an
    updatePrice of the source or of the destination symbol leaves every
    conversion between the two as it was, failures included: updateToken
    (disabling a token, changing its minimum transfer amount), setPriceFeed
    and the role functions have no effect on convertAmount. *)
Theorem conversions_depend_on_quotes env st c st' src dst a :
  run env st c = Ok st' ->
  match c with
  | AddToken s _ _ _ => s <> src /\ s <> dst
  | UpdatePrice s _ => s <> src /\ s <> dst
  | _ => True
  end ->
  convertAmount keccak256 st' src dst a = convertAmount keccak256 st src dst a.
Proof.
  intros Hrun Hc. apply convertAmount_ext. intros x Hx.
  run_cases Hrun; table_reads;
    try (destruct (decide (_symbol = x)) as [-> | Hne]; simpl);
    try (destruct Hc; destruct Hx; congruence);
    auto.
Qed.

End Conversions.

Lemma updatePrice_run env st s p :
  hasRole (_roles st) PRICE_FEEDER_ROLE (msg_sender env) = true ->
  tokenAddress (tokenInfos_at st s) <> 0 ->
  is_ok (updatePrice env st s p) = true.
Proof.
  intros Hrole Hk. unfold updatePrice.
  rewrite onlyRole_true by exact Hrole. cbn [bind]. rewrite bind_require.
  apply Z.eqb_neq in Hk. rewrite Hk. reflexivity.
Qed.

(** X7: updatePrice goes through exactly when the caller holds
    PRICE_FEEDER_ROLE and the symbol is listed; any price is accepted.
    After it, getTokenPriceFeed returns the new price, stamped with the
    time of the block, and the feed address as before; and after a price of
    zero was published, every conversion between the token and another one
    fails. *)
Theorem updatePrice_publishes env st s p :
  (is_ok (updatePrice env st s p) = true <->
   hasRole (_roles st) PRICE_FEEDER_ROLE (msg_sender env) = true
   /\ tokenAddress (tokenInfos_at st s) <> 0)
  /\ (forall st',
        updatePrice env st s p = Ok st' ->
        getTokenPriceFeed st' s
        = Ok {| feedAddress := feedAddress (priceFeeds_at st s);
                lastPrice := p;
                lastUpdateTimestamp := block_timestamp env |}
        /\ (p = 0 ->
            forall keccak256 other a,
              keccak256 [Str s] <> keccak256 [Str other] ->
              is_ok (convertAmount keccak256 st' s other a) = false
              /\ is_ok (convertAmount keccak256 st' other s a) = false)).
Proof.
  split.
  - split.
    + destruct (updatePrice env st s p) as [st' |] eqn:H; [| discriminate].
      intros _. apply updatePrice_Ok in H. tauto.
    + intros [Hrole Hk]. apply updatePrice_run; assumption.
  - intros st' H. apply updatePrice_Ok in H as (_ & Hk & ->).
    split.
    + unfold getTokenPriceFeed. table_reads.
      destruct (decide (s = s)); [| contradiction].
      apply Z.eqb_neq in Hk. rewrite Hk. reflexivity.
    + intros -> keccak256 other a Hne.
      split.
      * match goal with
        | |- is_ok ?r = false => destruct r as [v |] eqn:Hc; [| reflexivity]
        end.
        apply (convertAmount_cross_Ok _ _ _ _ _ _ Hne) in Hc as (Hpf & _).
        table_reads. destruct (decide (s = s)); [| contradiction].
        simpl in Hpf. lia.
      * match goal with
        | |- is_ok ?r = false => destruct r as [v |] eqn:Hc; [| reflexivity]
        end.
        assert (Hne' : keccak256 [Str other] <> keccak256 [Str s])
          by congruence.
        apply (convertAmount_cross_Ok _ _ _ _ _ _ Hne') in Hc
          as (_ & Hpt & _).
        table_reads. destruct (decide (s = s)); [| contradiction].
        simpl in Hpt. lia.
Qed.

(** X8: grantPriceFeederRole and revokePriceFeederRole go through
    exactly when the caller holds both ADMIN_ROLE (the modifier of the
    function) and DEFAULT_ADMIN_ROLE (the admin of the role, checked by the
    inherited grantRole and revokeRole): ADMIN_ROLE alone is not enough.
    After a grant the account can publish the price of any listed token;
    after a revocation its updatePrice is refused as unauthorized. *)
Theorem price_feeder_role_lifecycle env st account :
  (is_ok (grantPriceFeederRole env st account) = true <->
   hasRole (_roles st) ADMIN_ROLE (msg_sender env) = true
   /\ hasRole (_roles st) DEFAULT_ADMIN_ROLE (msg_sender env) = true)
  /\ (is_ok (revokePriceFeederRole env st account) = true <->
      hasRole (_roles st) ADMIN_ROLE (msg_sender env) = true
      /\ hasRole (_roles st) DEFAULT_ADMIN_ROLE (msg_sender env) = true)
  /\ (forall st',
        grantPriceFeederRole env st account = Ok st' ->
        forall env2 s p,
          msg_sender env2 = account ->
          tokenAddress (tokenInfos_at st s) <> 0 ->
          is_ok (updatePrice env2 st' s p) = true)
  /\ (forall st',
        revokePriceFeederRole env st account = Ok st' ->
        forall env2 s p,
          msg_sender env2 = account ->
          updatePrice env2 st' s p
          = Revert (AccessControlUnauthorizedAccount account
                      PRICE_FEEDER_ROLE)).
Proof.
  assert (Hboth : forall (f : Env -> Storage -> address -> result Storage),
            (f = grantPriceFeederRole \/ f = revokePriceFeederRole) ->
            is_ok (f env st account) = true <->
            hasRole (_roles st) ADMIN_ROLE (msg_sender env) = true
            /\ hasRole (_roles st) DEFAULT_ADMIN_ROLE (msg_sender env) = true).
  { intros f Hf. split.
    - destruct (f env st account) as [st' |] eqn:H; [| discriminate].
      intros _. destruct Hf; subst f.
      + apply grantPriceFeederRole_Ok in H. tauto.
      + apply revokePriceFeederRole_Ok in H. tauto.
    - intros [H1 H2].
      destruct Hf; subst f;
        unfold grantPriceFeederRole, revokePriceFeederRole,
          AccessControl.grantRole, AccessControl.revokeRole,
          AccessControl.getRoleAdmin;
        rewrite !onlyRole_true by assumption; reflexivity. }
  split; [apply Hboth; auto |]. split; [apply Hboth; auto |]. split.
  - intros st' H env2 s p Hsender Hk.
    apply grantPriceFeederRole_Ok in H as (_ & _ & ->).
    apply updatePrice_run; [| exact Hk].
    simpl. rewrite hasRole_grant, Hsender.
    rewrite bool_decide_eq_true_2 by reflexivity. reflexivity.
  - intros st' H env2 s p Hsender.
    apply revokePriceFeederRole_Ok in H as (_ & _ & ->).
    unfold updatePrice, onlyRole. simpl.
    rewrite hasRole_revoke, Hsender.
    rewrite bool_decide_eq_true_2 by reflexivity. reflexivity.
Qed.

End Registry.

Lemma TokenRegistry_reachable_replay txs :
  forall st,
    TokenRegistry.reachable st ->
    TokenRegistry.reachable (replay TokenRegistry.run st txs).
Proof.
  induction txs as [| [env c] txs IH]; intros st Hst; [exact Hst |].
  apply IH. simpl.
  destruct (TokenRegistry.run env st c) as [st' |] eqn:Hrun; [| exact Hst].
  eapply TokenRegistry.reachable_call; eassumption.
Qed.

Lemma registry0_reachable : TokenRegistry.reachable Deployment.registry0.
Proof.
  assert (Hreplay :
    Deployment.registry0
    = replay TokenRegistry.run
        (TokenRegistry.constructor
           (Deployment.asAdmin Deployment.registryAddress 1000))
        (map (pair (Deployment.asAdmin Deployment.registryAddress 1000))
           [TokenRegistry.AddToken "USDC" 100 6 1000000;
            TokenRegistry.AddToken "ETH" 101 18 1;
            TokenRegistry.AddToken "DAI" 102 18 1;
            TokenRegistry.UpdatePrice "USDC" 100000000;
            TokenRegistry.UpdatePrice "ETH" 300000000000]))
    by (vm_compute; reflexivity).
  rewrite Hreplay. apply TokenRegistry_reachable_replay.
  apply TokenRegistry.reachable_constructor.
Qed.

Lemma addToken_lists_token_witness :
  exists st',
    TokenRegistry.addToken
      (Deployment.asAdmin Deployment.registryAddress 2000)
      Deployment.registry0 "WBTC" 103 8 1 = Ok st'
    /\ TokenRegistry.getTokenInfo st' "WBTC"
       = Ok (TokenRegistry.mkTokenInfo "WBTC" 103 8 true 1)
    /\ TokenRegistry.getSupportedTokens st'
       = ["USDC"; "ETH"; "DAI"; "WBTC"]
    /\ is_ok (TokenRegistry.addToken
                (Deployment.asAdmin Deployment.registryAddress 3000)
                st' "WBTC" 104 8 1) = false.
Proof.
  destruct (TokenRegistry.addToken
              (Deployment.asAdmin Deployment.registryAddress 2000)
              Deployment.registry0 "WBTC" 103 8 1) as [st' | e] eqn:Hrun;
    [| vm_compute in Hrun; discriminate Hrun].
  exists st'. split; [reflexivity |].
  destruct (proj2 (addToken_lists_token _ _ _ _ _ _) st' Hrun)
    as (Hinfo & Hlist & _ & _ & Hagain).
  split; [exact Hinfo |]. split; [rewrite Hlist; vm_compute; reflexivity |].
  apply Hagain.
Defined.

Lemma supportedTokens_lists_known_witness :
  NoDup (TokenRegistry.supportedTokens Deployment.registry0)
  /\ (forall s, s ∈ TokenRegistry.supportedTokens Deployment.registry0
                <-> TokenRegistry.tokenAddress
                      (TokenRegistry.tokenInfos_at Deployment.registry0 s)
                    <> 0).
Proof.
  destruct (supportedTokens_lists_known Deployment.registry0
              registry0_reachable) as (Hnodup & Hlist & _).
  split; [exact Hnodup | exact Hlist].
Defined.

Lemma listed_token_is_permanent_witness :
  exists st',
    TokenRegistry.run (Deployment.asAdmin Deployment.registryAddress 2000)
      Deployment.registry0 (TokenRegistry.UpdateToken "USDC" false 5)
    = Ok st'
    /\ TokenRegistry.tokenAddress (TokenRegistry.tokenInfos_at st' "USDC")
       = 100
    /\ TokenRegistry.decimals (TokenRegistry.tokenInfos_at st' "USDC") = 6.
Proof.
  destruct (TokenRegistry.run
              (Deployment.asAdmin Deployment.registryAddress 2000)
              Deployment.registry0 (TokenRegistry.UpdateToken "USDC" false 5))
    as [st' | e] eqn:Hrun; [| vm_compute in Hrun; discriminate Hrun].
  exists st'. split; [reflexivity |].
  destruct (listed_token_is_permanent _ _ _ _ "USDC" Hrun
              ltac:(vm_compute; discriminate)) as (Ha & Hd & _).
  rewrite Ha, Hd. vm_compute. split; reflexivity.
Defined.

Lemma convertAmount_never_rounds_up_witness :
  TokenRegistry.convertAmount Deployment.keccak256 Deployment.registry0
    "ETH" "USDC" 1234567890123456789 = Ok 3703703670
  /\ forall back,
       TokenRegistry.convertAmount Deployment.keccak256 Deployment.registry0
         "USDC" "ETH" 3703703670 = Ok back ->
       back <= 1234567890123456789.
Proof.
  assert (Hrun : TokenRegistry.convertAmount Deployment.keccak256
                   Deployment.registry0 "ETH" "USDC" 1234567890123456789
                 = Ok 3703703670) by (vm_compute; reflexivity).
  split; [exact Hrun |].
  apply (convertAmount_never_rounds_up _ _ _ _ _ _ Hrun).
  vm_compute. discriminate.
Defined.

Lemma convertAmount_monotone_witness :
  exists ra,
    TokenRegistry.convertAmount Deployment.keccak256 Deployment.registry0
      "USDC" "ETH" 1000000000 = Ok ra
    /\ ra <= 1000000000000000000.
Proof.
  apply (convertAmount_monotone Deployment.keccak256 Deployment.registry0
           "USDC" "ETH" 1000000000 3000000000 1000000000000000000).
  - vm_compute. reflexivity.
  - lia.
Defined.

Lemma conversions_depend_on_quotes_witness :
  exists st',
    TokenRegistry.run (Deployment.asAdmin Deployment.registryAddress 2000)
      Deployment.registry0 (TokenRegistry.UpdateToken "USDC" false 5)
    = Ok st'
    /\ TokenRegistry.isTokenEnabled st' "USDC" = Ok false
    /\ TokenRegistry.convertAmount Deployment.keccak256 st' "USDC" "ETH"
         3000000000 = Ok 1000000000000000000.
Proof.
  destruct (TokenRegistry.run
              (Deployment.asAdmin Deployment.registryAddress 2000)
              Deployment.registry0 (TokenRegistry.UpdateToken "USDC" false 5))
    as [st' | e] eqn:Hrun; [| vm_compute in Hrun; discriminate Hrun].
  exists st'. split; [reflexivity |].
  split.
  - assert (Hread :
      (let* s := TokenRegistry.run
                   (Deployment.asAdmin Deployment.registryAddress 2000)
                   Deployment.registry0
                   (TokenRegistry.UpdateToken "USDC" false 5) in
       TokenRegistry.isTokenEnabled s "USDC") = Ok false)
      by (vm_compute; reflexivity).
    rewrite Hrun in Hread. exact Hread.
  - rewrite (conversions_depend_on_quotes Deployment.keccak256 _ _ _ _
               "USDC" "ETH" 3000000000 Hrun I).
    vm_compute. reflexivity.
Defined.

Lemma updatePrice_publishes_witness :
  exists st',
    TokenRegistry.updatePrice
      (Deployment.asAdmin Deployment.registryAddress 2000)
      Deployment.registry0 "ETH" 0 = Ok st'
    /\ TokenRegistry.getTokenPriceFeed st' "ETH"
       = Ok (TokenRegistry.mkPriceFeed 0 0 2000)
    /\ is_ok (TokenRegistry.convertAmount Deployment.keccak256 st'
                "USDC" "ETH" 3000000000) = false.
Proof.
  destruct (TokenRegistry.updatePrice
              (Deployment.asAdmin Deployment.registryAddress 2000)
              Deployment.registry0 "ETH" 0) as [st' | e] eqn:Hrun;
    [| vm_compute in Hrun; discriminate Hrun].
  exists st'. split; [reflexivity |].
  destruct (proj2 (updatePrice_publishes _ _ _ _) st' Hrun) as [Hfeed Hzero].
  split; [rewrite Hfeed; vm_compute; reflexivity |].
  apply (Hzero eq_refl Deployment.keccak256 "USDC" 3000000000).
  vm_compute. discriminate.
Defined.

Lemma price_feeder_role_lifecycle_witness :
  is_ok (TokenRegistry.updatePrice
           (mkEnv Deployment.paymentManager Deployment.registryAddress 2000)
           Deployment.registry0 "ETH" 310000000000) = false
  /\ exists st',
       TokenRegistry.grantPriceFeederRole
         (Deployment.asAdmin Deployment.registryAddress 2000)
         Deployment.registry0 Deployment.paymentManager = Ok st'
       /\ is_ok (TokenRegistry.updatePrice
                   (mkEnv Deployment.paymentManager
                      Deployment.registryAddress 2000)
                   st' "ETH" 310000000000) = true.
Proof.
  split; [vm_compute; reflexivity |].
  destruct (TokenRegistry.grantPriceFeederRole
              (Deployment.asAdmin Deployment.registryAddress 2000)
              Deployment.registry0 Deployment.paymentManager)
    as [st' | e] eqn:Hrun; [| vm_compute in Hrun; discriminate Hrun].
  exists st'. split; [reflexivity |].
  destruct (price_feeder_role_lifecycle
              (Deployment.asAdmin Deployment.registryAddress 2000)
              Deployment.registry0 Deployment.paymentManager)
    as (_ & _ & Hgrant & _).
  apply (Hgrant st' Hrun); [reflexivity |]. vm_compute. discriminate.
Defined.
(** ** DocumentRegistry: registration, index and roles *)

Section Notary.
Import DocumentRegistry.

Lemma documents_at_write st h doc ud roles ev x :
  documents_at (mkStorage (<[h := doc]> (documents st)) ud roles ev) x
  = if decide (h = x) then doc else documents_at st x.
Proof.
  unfold documents_at; simpl. rewrite lookup_insert.
  destruct (decide (h = x)); reflexivity.
Qed.

Lemma userDocuments_at_write st docs a l roles ev x :
  userDocuments_at (mkStorage docs (<[a := l]> (userDocuments st)) roles ev) x
  = if decide (a = x) then l else userDocuments_at st x.
Proof.
  unfold userDocuments_at; simpl. rewrite lookup_insert.
  destruct (decide (a = x)); reflexivity.
Qed.

Lemma register_Ok env st h t r st' :
  register env st h t r = Ok st' ->
  h <> 0 /\ docHash (documents_at st h) = 0
  /\ st' = {| documents :=
                <[h := {| docHash := h;
                          registeredBy := msg_sender env;
                          timestamp := block_timestamp env;
                          docType := t;
                          docReference := r;
                          isRevoked := false |}]> (documents st);
              userDocuments :=
                <[msg_sender env := userDocuments_at st (msg_sender env) ++ [h]]>
                  (userDocuments st);
              _roles := _roles st;
              events := events st
                        ++ [DocumentRegistered h (msg_sender env) t r] |}.
Proof.
  unfold register. intros H.
  step_ok H as u1 Hh. req Hh. apply negb_true_iff, Z.eqb_neq in Hh.
  step_ok H as u2 Hnew. req Hnew. apply Z.eqb_eq in Hnew.
  inversion H; subst; clear H. auto.
Qed.

Lemma register_run env st h t r :
  h <> 0 -> docHash (documents_at st h) = 0 ->
  is_ok (register env st h t r) = true.
Proof.
  intros Hh Hnew. unfold register. rewrite !bind_require.
  apply Z.eqb_neq in Hh. rewrite Hh, Hnew. reflexivity.
Qed.

(** What a registration that went through leaves. *)
Lemma register_effect env st h t r st' :
  register env st h t r = Ok st' ->
  h <> 0 /\ docHash (documents_at st h) = 0
  /\ (forall x, documents_at st' x
                = if decide (h = x)
                  then {| docHash := h;
                          registeredBy := msg_sender env;
                          timestamp := block_timestamp env;
                          docType := t;
                          docReference := r;
                          isRevoked := false |}
                  else documents_at st x)
  /\ (forall a, userDocuments_at st' a
                = if decide (msg_sender env = a)
                  then userDocuments_at st a ++ [h]
                  else userDocuments_at st a)
  /\ _roles st' = _roles st.
Proof.
  intros H. apply register_Ok in H as (Hh & Hnew & ->).
  split; [exact Hh |]. split; [exact Hnew |]. split; [| split].
  - intros x. apply documents_at_write.
  - intros a. rewrite userDocuments_at_write.
    destruct (decide (msg_sender env = a)) as [<- | Hne]; reflexivity.
  - reflexivity.
Qed.

Lemma registerDocument_Ok env st h t r st' :
  registerDocument env st h t r = Ok st' ->
  hasRole (_roles st) DOCUMENT_MANAGER_ROLE (msg_sender env) = true
  /\ register env st h t r = Ok st'.
Proof.
  unfold registerDocument. intros H.
  step_ok H as u Hrole. apply onlyRole_Ok in Hrole. auto.
Qed.

(** X9: registerDocument goes through exactly when the caller holds
    DOCUMENT_MANAGER_ROLE, the hash is not zero and the hash is not
    registered.  After it, verifyDocument reports the document as existing
    and valid, registered by the caller at the time of the block with the
    given type and reference; the hash is appended to the caller's
    documents; every other document and every other user's list is as
    before; and no later registration of the same hash goes through. *)
Theorem registerDocument_notarizes env st h t r :
  (is_ok (registerDocument env st h t r) = true <->
   hasRole (_roles st) DOCUMENT_MANAGER_ROLE (msg_sender env) = true
   /\ h <> 0 /\ docHash (documents_at st h) = 0)
  /\ (forall st',
        registerDocument env st h t r = Ok st' ->
        verifyDocument st' h
        = (true, true,
           {| docHash := h;
              registeredBy := msg_sender env;
              timestamp := block_timestamp env;
              docType := t;
              docReference := r;
              isRevoked := false |})
        /\ getUserDocuments st' (msg_sender env)
           = getUserDocuments st (msg_sender env) ++ [h]
        /\ (forall x, x <> h -> verifyDocument st' x = verifyDocument st x)
        /\ (forall a, a <> msg_sender env ->
                      getUserDocuments st' a = getUserDocuments st a)
        /\ (forall env2 t2 r2,
              is_ok (registerDocument env2 st' h t2 r2) = false)).
Proof.
  split.
  - split.
    + destruct (registerDocument env st h t r) as [st' |] eqn:H;
        [| discriminate].
      intros _. apply registerDocument_Ok in H as [Hrole H].
      apply register_Ok in H. tauto.
    + intros (Hrole & Hh & Hnew). unfold registerDocument.
      rewrite onlyRole_true by exact Hrole. cbn [bind].
      apply register_run; assumption.
  - intros st' H. apply registerDocument_Ok in H as [_ H].
    apply register_effect in H as (Hh & _ & Hdocs & Husers & _).
    split; [| split; [| split; [| split]]].
    + unfold verifyDocument. rewrite Hdocs.
      destruct (decide (h = h)); [| contradiction]. simpl.
      apply Z.eqb_neq in Hh. rewrite Hh. reflexivity.
    + unfold getUserDocuments. rewrite Husers.
      destruct (decide (msg_sender env = msg_sender env)); [| contradiction].
      reflexivity.
    + intros x Hx. unfold verifyDocument. rewrite Hdocs.
      destruct (decide (h = x)); [congruence | reflexivity].
    + intros a Ha. unfold getUserDocuments. rewrite Husers.
      destruct (decide (msg_sender env = a)); [congruence | reflexivity].
    + intros env2 t2 r2.
      destruct (registerDocument env2 st' h t2 r2) as [st2 |] eqn:H2;
        [| reflexivity].
      apply registerDocument_Ok in H2 as [_ H2].
      apply register_Ok in H2 as (_ & Hnew2 & _).
      rewrite Hdocs in Hnew2. destruct (decide (h = h)); [| contradiction].
      simpl in Hnew2. contradiction.
Qed.

(** The loop of the batch: what it leaves when every item went through. *)
Lemma registerItems_Ok env hs :
  forall ts rs st st',
    registerItems env hs ts rs st = Ok st' ->
    NoDup hs
    /\ (forall h, h ∈ hs -> h <> 0 /\ docHash (documents_at st h) = 0)
    /\ (forall x, x ∉ hs -> documents_at st' x = documents_at st x)
    /\ (forall i h t r,
          hs !! i = Some h -> ts !! i = Some t -> rs !! i = Some r ->
          documents_at st' h
          = {| docHash := h;
               registeredBy := msg_sender env;
               timestamp := block_timestamp env;
               docType := t;
               docReference := r;
               isRevoked := false |})
    /\ (forall a, userDocuments_at st' a
                  = if decide (msg_sender env = a)
                    then userDocuments_at st a ++ hs
                    else userDocuments_at st a)
    /\ _roles st' = _roles st
    /\ (forall h, h ∈ hs ->
                  docHash (documents_at st' h) = h
                  /\ registeredBy (documents_at st' h) = msg_sender env
                  /\ isRevoked (documents_at st' h) = false).
Proof.
  induction hs as [| h hs IH]; intros ts rs st st' H.
  - simpl in H. inversion H; subst; clear H.
    split; [constructor |]. split; [intros h Hin; inversion Hin |].
    split; [reflexivity |].
    split; [intros i h t r Hi; rewrite lookup_nil in Hi; discriminate |].
    split; [| split; [reflexivity | intros h Hin; inversion Hin]].
    intros a. rewrite app_nil_r. destruct (decide _); reflexivity.
  - destruct ts as [| t ts]; [discriminate H |].
    destruct rs as [| r rs]; [discriminate H |].
    cbn [registerItems] in H. step_ok H as st1 Hreg.
    apply register_effect in Hreg as (Hh & Hnew & Hdocs1 & Husers1 & Hroles1).
    apply IH in H
      as (Hnodup & Hfresh & Hkeep & Hstored & Husers & Hroles & Hbasic).
    assert (Hnotin : h ∉ hs).
    { intros Hin. apply Hfresh in Hin as [_ Hz]. rewrite Hdocs1 in Hz.
      destruct (decide (h = h)); [| contradiction]. simpl in Hz.
      contradiction. }
    split; [constructor; assumption |].
    split; [| split; [| split; [| split; [| split]]]].
    + intros x Hx. apply elem_of_cons in Hx as [-> | Hx]; [auto |].
      destruct (Hfresh x Hx) as [Hx0 Hxz]. split; [exact Hx0 |].
      rewrite Hdocs1 in Hxz.
      destruct (decide (h = x)) as [-> | Hne]; [contradiction | exact Hxz].
    + intros x Hx. apply not_elem_of_cons in Hx as [Hxh Hx].
      rewrite (Hkeep x Hx), Hdocs1.
      destruct (decide (h = x)); [congruence | reflexivity].
    + intros i h' t' r' Hi Ht Hr. destruct i as [| i]; simpl in Hi, Ht, Hr.
      * inversion Hi; inversion Ht; inversion Hr; subst.
        rewrite (Hkeep h' Hnotin), Hdocs1.
        destruct (decide (h' = h')); [reflexivity | contradiction].
      * eapply Hstored; eassumption.
    + intros a. rewrite Husers, Husers1.
      destruct (decide (msg_sender env = a)); [| reflexivity].
      rewrite <- app_assoc. reflexivity.
    + congruence.
    + intros x Hx. apply elem_of_cons in Hx as [-> | Hx].
      * rewrite (Hkeep h Hnotin), Hdocs1.
        destruct (decide (h = h)); [auto | contradiction].
      * apply Hbasic. exact Hx.
Qed.

(** An item the loop refuses: a null fingerprint, a fingerprint already
    registered, or one that an earlier item of the batch has. *)
Lemma registerItems_refused env hs :
  forall ts rs st i h,
    hs !! i = Some h ->
    h = 0 \/ docHash (documents_at st h) <> 0
    \/ (exists j, (j < i)%nat /\ hs !! j = Some h) ->
    is_ok (registerItems env hs ts rs st) = false.
Proof.
  intros ts rs st i h Hi Hbad.
  destruct (registerItems env hs ts rs st) as [st' |] eqn:H; [| reflexivity].
  exfalso. apply registerItems_Ok in H as (Hnodup & Hfresh & _).
  assert (Hin : h ∈ hs) by (apply list_elem_of_lookup; eauto).
  destruct (Hfresh h Hin) as [Hh Hz].
  destruct Hbad as [-> | [Hreg | (j & Hj & Hjh)]]; [contradiction .. |].
  assert (i = j) by (eapply NoDup_lookup; eassumption). lia.
Qed.

(** X10: batchRegisterDocuments registers all the documents or none.
    When one hash of the batch is zero, is already registered, or repeats
    an earlier hash of the batch, the call fails and the storage is left as
    it was.  For a document manager, arrays of different lengths are
    refused with "Array length mismatch".  After a call that went through,
    every document of the batch verifies as existing and valid with its own
    type and reference, the caller's list has grown by the hashes of the
    batch in order, and the documents outside the batch are as before. *)
Theorem batchRegisterDocuments_all_or_nothing env st hs ts rs :
  (forall i h,
     hs !! i = Some h ->
     h = 0 \/ docHash (documents_at st h) <> 0
     \/ (exists j, (j < i)%nat /\ hs !! j = Some h) ->
     is_ok (batchRegisterDocuments env st hs ts rs) = false
     /\ commit st (batchRegisterDocuments env st hs ts rs) = st)
  /\ (hasRole (_roles st) DOCUMENT_MANAGER_ROLE (msg_sender env) = true ->
      length hs <> length ts \/ length ts <> length rs ->
      batchRegisterDocuments env st hs ts rs
      = Revert (RequireFailed "Array length mismatch"))
  /\ (forall st',
        batchRegisterDocuments env st hs ts rs = Ok st' ->
        (forall i h t r,
           hs !! i = Some h -> ts !! i = Some t -> rs !! i = Some r ->
           verifyDocument st' h
           = (true, true,
              {| docHash := h;
                 registeredBy := msg_sender env;
                 timestamp := block_timestamp env;
                 docType := t;
                 docReference := r;
                 isRevoked := false |}))
        /\ getUserDocuments st' (msg_sender env)
           = getUserDocuments st (msg_sender env) ++ hs
        /\ (forall x, x ∉ hs -> verifyDocument st' x = verifyDocument st x)).
Proof.
  split; [| split].
  - intros i h Hi Hbad.
    assert (Hfail : is_ok (batchRegisterDocuments env st hs ts rs) = false).
    { unfold batchRegisterDocuments.
      destruct (onlyRole (_roles st) DOCUMENT_MANAGER_ROLE env);
        [| reflexivity]. cbn [bind]. rewrite !bind_require.
      destruct (length hs =? length ts)%nat; [| reflexivity].
      destruct (length ts =? length rs)%nat; [| reflexivity].
      eapply registerItems_refused; eassumption. }
    split; [exact Hfail | apply commit_not_ok; exact Hfail].
  - intros Hrole Hlen. unfold batchRegisterDocuments.
    rewrite onlyRole_true by exact Hrole. cbn [bind]. rewrite !bind_require.
    destruct (Nat.eqb_spec (length hs) (length ts)) as [H1 | H1];
      [| reflexivity].
    destruct (Nat.eqb_spec (length ts) (length rs)) as [H2 | H2];
      [| reflexivity].
    destruct Hlen; contradiction.
  - intros st' H. unfold batchRegisterDocuments in H. do 3 step_ok H.
    apply registerItems_Ok in H
      as (_ & Hfresh & Hkeep & Hstored & Husers & _).
    split; [| split].
    + intros i h t r Hi Ht Hr. unfold verifyDocument.
      rewrite (Hstored i h t r Hi Ht Hr). simpl.
      assert (Hin : h ∈ hs) by (apply list_elem_of_lookup; eauto).
      destruct (Hfresh h Hin) as [Hh _].
      apply Z.eqb_neq in Hh. rewrite Hh. reflexivity.
    + unfold getUserDocuments. rewrite Husers.
      destruct (decide (msg_sender env = msg_sender env)); [| contradiction].
      reflexivity.
    + intros x Hx. unfold verifyDocument. rewrite (Hkeep x Hx). reflexivity.
Qed.

Lemma batchRegisterDocuments_Ok env st hs ts rs st' :
  batchRegisterDocuments env st hs ts rs = Ok st' ->
  hasRole (_roles st) DOCUMENT_MANAGER_ROLE (msg_sender env) = true
  /\ registerItems env hs ts rs st = Ok st'.
Proof.
  unfold batchRegisterDocuments. intros H.
  step_ok H as u Hrole. apply onlyRole_Ok in Hrole. do 2 step_ok H. auto.
Qed.

Lemma revokeDocument_effect env st h reason st' :
  revokeDocument env st h reason = Ok st' ->
  docHash (documents_at st h) <> 0
  /\ (forall x, documents_at st' x
                = if decide (h = x)
                  then {| docHash := docHash (documents_at st h);
                          registeredBy := registeredBy (documents_at st h);
                          timestamp := timestamp (documents_at st h);
                          docType := docType (documents_at st h);
                          docReference := docReference (documents_at st h);
                          isRevoked := true |}
                  else documents_at st x)
  /\ (forall a, userDocuments_at st' a = userDocuments_at st a).
Proof.
  unfold revokeDocument. intros H.
  step_ok H as u0 Hrole.
  step_ok H as u1 Hreg. req Hreg. apply negb_true_iff, Z.eqb_neq in Hreg.
  step_ok H as u2 Hrev. inversion H; subst; clear H.
  split; [exact Hreg |]. split; [| reflexivity].
  intros x. apply documents_at_write.
Qed.

Lemma grantDocumentManagerRole_Ok env st a st' :
  grantDocumentManagerRole env st a = Ok st' ->
  hasRole (_roles st) ADMIN_ROLE (msg_sender env) = true
  /\ hasRole (_roles st) DEFAULT_ADMIN_ROLE (msg_sender env) = true
  /\ st' = set_roles st (_grantRole (_roles st) DOCUMENT_MANAGER_ROLE a).
Proof.
  unfold grantDocumentManagerRole, AccessControl.grantRole. intros H.
  step_ok H as u0 Hrole. apply onlyRole_Ok in Hrole.
  step_ok H as roles Hg. step_ok Hg as u1 Hadmin. apply onlyRole_Ok in Hadmin.
  inversion Hg; subst. inversion H; subst. auto.
Qed.

Lemma revokeDocumentManagerRole_Ok env st a st' :
  revokeDocumentManagerRole env st a = Ok st' ->
  hasRole (_roles st) ADMIN_ROLE (msg_sender env) = true
  /\ hasRole (_roles st) DEFAULT_ADMIN_ROLE (msg_sender env) = true
  /\ st' = set_roles st
             (AccessControl._revokeRole (_roles st) DOCUMENT_MANAGER_ROLE a).
Proof.
  unfold revokeDocumentManagerRole, AccessControl.revokeRole. intros H.
  step_ok H as u0 Hrole. apply onlyRole_Ok in Hrole.
  step_ok H as roles Hg. step_ok Hg as u1 Hadmin. apply onlyRole_Ok in Hadmin.
  inversion Hg; subst. inversion H; subst. auto.
Qed.

(** What any call that went through does to the documents and to the
    per-registrant lists: it registers a list [hs] of fresh fingerprints
    for its caller, or revokes one registered document, or touches
    neither table. *)
Lemma run_effect env st c st' :
  run env st c = Ok st' ->
  (exists hs,
     NoDup hs
     /\ (forall h, h ∈ hs -> h <> 0 /\ docHash (documents_at st h) = 0)
     /\ (forall x, x ∉ hs -> documents_at st' x = documents_at st x)
     /\ (forall h, h ∈ hs ->
                   docHash (documents_at st' h) = h
                   /\ registeredBy (documents_at st' h) = msg_sender env
                   /\ isRevoked (documents_at st' h) = false)
     /\ (forall a, userDocuments_at st' a
                   = if decide (msg_sender env = a)
                     then userDocuments_at st a ++ hs
                     else userDocuments_at st a))
  \/ (exists h,
        docHash (documents_at st h) <> 0
        /\ (forall x, documents_at st' x
                      = if decide (h = x)
                        then {| docHash := docHash (documents_at st h);
                                registeredBy :=
                                  registeredBy (documents_at st h);
                                timestamp := timestamp (documents_at st h);
                                docType := docType (documents_at st h);
                                docReference :=
                                  docReference (documents_at st h);
                                isRevoked := true |}
                        else documents_at st x)
        /\ (forall a, userDocuments_at st' a = userDocuments_at st a)).
Proof.
  intros H. destruct c; simpl in H.
  - left. exists [_docHash].
    apply registerDocument_Ok in H as [_ H].
    apply register_effect in H as (Hh & Hnew & Hdocs & Husers & _).
    split; [apply NoDup_singleton |].
    split; [intros h Hin; apply list_elem_of_singleton in Hin; subst; auto |].
    split.
    { intros x Hx. rewrite Hdocs.
      destruct (decide (_docHash = x)) as [<- | Hne]; [| reflexivity].
      exfalso. apply Hx. apply list_elem_of_singleton. reflexivity. }
    split; [| exact Husers].
    intros h Hin. apply list_elem_of_singleton in Hin. subst h.
    rewrite Hdocs. destruct (decide (_docHash = _docHash)); [| contradiction].
    auto.
  - left. exists _docHashes.
    apply batchRegisterDocuments_Ok in H as [_ H].
    apply registerItems_Ok in H
      as (Hnodup & Hfresh & Hkeep & _ & Husers & _ & Hbasic).
    auto.
  - right. exists _docHash. apply revokeDocument_effect in H. exact H.
  - left. exists []. apply grantDocumentManagerRole_Ok in H as (_ & _ & ->).
    split; [constructor |]. split; [intros h Hin; inversion Hin |].
    split; [reflexivity |]. split; [intros h Hin; inversion Hin |].
    intros a. rewrite app_nil_r. destruct (decide _); reflexivity.
  - left. exists []. apply revokeDocumentManagerRole_Ok in H as (_ & _ & ->).
    split; [constructor |]. split; [intros h Hin; inversion Hin |].
    split; [reflexivity |]. split; [intros h Hin; inversion Hin |].
    intros a. rewrite app_nil_r. destruct (decide _); reflexivity.
Qed.

(** X11: no call of the document registry changes the hash, the
    registrant, the timestamp, the type or the reference of a registered
    document, and none lifts a revocation. *)
Theorem documents_are_permanent env st c st' h :
  run env st c = Ok st' ->
  docHash (documents_at st h) <> 0 ->
  docHash (documents_at st' h) = docHash (documents_at st h)
  /\ registeredBy (documents_at st' h) = registeredBy (documents_at st h)
  /\ timestamp (documents_at st' h) = timestamp (documents_at st h)
  /\ docType (documents_at st' h) = docType (documents_at st h)
  /\ docReference (documents_at st' h) = docReference (documents_at st h)
  /\ (isRevoked (documents_at st h) = true ->
      isRevoked (documents_at st' h) = true).
Proof.
  intros Hrun Hreg.
  apply run_effect in Hrun
    as [(hs & _ & Hfresh & Hkeep & _) | (h0 & _ & Hdocs & _)].
  - assert (Hnotin : h ∉ hs).
    { intros Hin. apply Hfresh in Hin as [_ Hz]. contradiction. }
    rewrite (Hkeep h Hnotin). auto 10.
  - rewrite Hdocs. destruct (decide (h0 = h)) as [-> | Hne]; simpl; auto 10.
Qed.

(** X12: in every storage reached from the constructor by calls of the
    functions of the document registry ([DocumentRegistry.run]), a document
    is stored under its own hash; the list of a user holds exactly the
    hashes of the documents that user registered, each once; and a hash
    that is not registered is not marked revoked. *)
Theorem userDocuments_index_consistent st :
  reachable st ->
  (forall h, docHash (documents_at st h) = 0
             \/ docHash (documents_at st h) = h)
  /\ (forall a h, h ∈ getUserDocuments st a
                  <-> docHash (documents_at st h) <> 0
                      /\ registeredBy (documents_at st h) = a)
  /\ (forall a, NoDup (getUserDocuments st a))
  /\ (forall h, docHash (documents_at st h) = 0 ->
                isRevoked (documents_at st h) = false).
Proof.
  unfold getUserDocuments.
  induction 1 as [env | env st c st' Hreach (Hkey & Hindex & Hnodup & Hzero) Hrun].
  - split; [| split; [| split]].
    + intros h. left. reflexivity.
    + intros a h. unfold userDocuments_at, documents_at; simpl.
      rewrite !lookup_empty. simpl.
      split; [intros Hin; inversion Hin | intros [H _]; contradiction].
    + intros a. unfold userDocuments_at; simpl. rewrite lookup_empty.
      constructor.
    + intros h _. reflexivity.
  - apply run_effect in Hrun
      as [(hs & Hnd & Hfresh & Hkeep & Hnew & Husers)
         | (h0 & Hreg & Hdocs & Husers)].
    + split; [| split; [| split]].
      * intros h. destruct (decide (h ∈ hs)) as [Hin | Hnotin].
        -- right. apply Hnew. exact Hin.
        -- rewrite (Hkeep h Hnotin). apply Hkey.
      * intros a h. rewrite Husers.
        destruct (decide (h ∈ hs)) as [Hin | Hnotin].
        -- destruct (Hnew h Hin) as (Hd & Hby & _).
           destruct (Hfresh h Hin) as [Hh0 Hz].
           rewrite Hd, Hby.
           destruct (decide (msg_sender env = a)) as [<- | Hne].
           ++ rewrite elem_of_app. tauto.
           ++ rewrite Hindex. split; [intros [Hc _]; contradiction |].
              intros [_ Hc]. contradiction.
        -- rewrite (Hkeep h Hnotin).
           destruct (decide (msg_sender env = a)) as [<- | Hne].
           ++ rewrite elem_of_app, Hindex. tauto.
           ++ apply Hindex.
      * intros a. rewrite Husers.
        destruct (decide (msg_sender env = a)) as [<- | Hne];
          [| apply Hnodup].
        apply NoDup_app. split; [apply Hnodup |]. split; [| exact Hnd].
        intros x Hx Hx'. apply Hindex in Hx as [Hx _].
        apply Hfresh in Hx' as [_ Hz]. contradiction.
      * intros h Hz. destruct (decide (h ∈ hs)) as [Hin | Hnotin].
        -- apply Hnew. exact Hin.
        -- rewrite (Hkeep h Hnotin) in *. apply Hzero. exact Hz.
    + split; [| split; [| split]].
      * intros h. rewrite Hdocs.
        destruct (decide (h0 = h)) as [-> | Hne]; simpl; apply Hkey.
      * intros a h. rewrite Husers, Hdocs.
        destruct (decide (h0 = h)) as [-> | Hne]; simpl; apply Hindex.
      * intros a. rewrite Husers. apply Hnodup.
      * intros h. rewrite Hdocs.
        destruct (decide (h0 = h)) as [-> | Hne]; simpl;
          [intros Hc; contradiction | apply Hzero].
Qed.

Lemma registerDocument_run env st h t r :
  hasRole (_roles st) DOCUMENT_MANAGER_ROLE (msg_sender env) = true ->
  h <> 0 -> docHash (documents_at st h) = 0 ->
  is_ok (registerDocument env st h t r) = true.
Proof.
  intros Hrole Hh Hnew. unfold registerDocument.
  rewrite onlyRole_true by exact Hrole. cbn [bind].
  apply register_run; assumption.
Qed.

(** X13: grantDocumentManagerRole and revokeDocumentManagerRole go
    through exactly when the caller holds both ADMIN_ROLE and
    DEFAULT_ADMIN_ROLE.  After a grant the account can register any new
    document; after a revocation none of its registerDocument,
    batchRegisterDocuments and revokeDocument calls goes through. *)
Theorem document_manager_role_lifecycle env st account :
  (is_ok (grantDocumentManagerRole env st account) = true <->
   hasRole (_roles st) ADMIN_ROLE (msg_sender env) = true
   /\ hasRole (_roles st) DEFAULT_ADMIN_ROLE (msg_sender env) = true)
  /\ (is_ok (revokeDocumentManagerRole env st account) = true <->
      hasRole (_roles st) ADMIN_ROLE (msg_sender env) = true
      /\ hasRole (_roles st) DEFAULT_ADMIN_ROLE (msg_sender env) = true)
  /\ (forall st',
        grantDocumentManagerRole env st account = Ok st' ->
        forall env2 h t r,
          msg_sender env2 = account ->
          h <> 0 -> docHash (documents_at st h) = 0 ->
          is_ok (registerDocument env2 st' h t r) = true)
  /\ (forall st',
        revokeDocumentManagerRole env st account = Ok st' ->
        forall env2,
          msg_sender env2 = account ->
          (forall h t r, is_ok (registerDocument env2 st' h t r) = false)
          /\ (forall hs ts rs,
                is_ok (batchRegisterDocuments env2 st' hs ts rs) = false)
          /\ (forall h reason,
                is_ok (revokeDocument env2 st' h reason) = false)).
Proof.
  assert (Hboth : forall (f : Env -> Storage -> address -> result Storage),
            (f = grantDocumentManagerRole \/ f = revokeDocumentManagerRole) ->
            is_ok (f env st account) = true <->
            hasRole (_roles st) ADMIN_ROLE (msg_sender env) = true
            /\ hasRole (_roles st) DEFAULT_ADMIN_ROLE (msg_sender env) = true).
  { intros f Hf. split.
    - destruct (f env st account) as [st' |] eqn:H; [| discriminate].
      intros _. destruct Hf; subst f.
      + apply grantDocumentManagerRole_Ok in H. tauto.
      + apply revokeDocumentManagerRole_Ok in H. tauto.
    - intros [H1 H2].
      destruct Hf; subst f;
        unfold grantDocumentManagerRole, revokeDocumentManagerRole,
          AccessControl.grantRole, AccessControl.revokeRole,
          AccessControl.getRoleAdmin;
        rewrite !onlyRole_true by assumption; reflexivity. }
  split; [apply Hboth; auto |]. split; [apply Hboth; auto |]. split.
  - intros st' H env2 h t r Hsender Hh Hnew.
    apply grantDocumentManagerRole_Ok in H as (_ & _ & ->).
    apply registerDocument_run; [| exact Hh | exact Hnew].
    simpl. rewrite hasRole_grant, Hsender.
    rewrite bool_decide_eq_true_2 by reflexivity. reflexivity.
  - intros st' H env2 Hsender.
    apply revokeDocumentManagerRole_Ok in H as (_ & _ & ->).
    assert (Hno : hasRole
                    (AccessControl._revokeRole (_roles st)
                       DOCUMENT_MANAGER_ROLE account)
                    DOCUMENT_MANAGER_ROLE (msg_sender env2) = false).
    { rewrite hasRole_revoke, Hsender.
      rewrite bool_decide_eq_true_2 by reflexivity. reflexivity. }
    split; [| split]; intros;
      unfold registerDocument, batchRegisterDocuments, revokeDocument,
        onlyRole; simpl; rewrite Hno; reflexivity.
Qed.

End Notary.

Lemma DocumentRegistry_reachable_replay txs :
  forall st,
    DocumentRegistry.reachable st ->
    DocumentRegistry.reachable (replay DocumentRegistry.run st txs).
Proof.
  induction txs as [| [env c] txs IH]; intros st Hst; [exact Hst |].
  apply IH. simpl.
  destruct (DocumentRegistry.run env st c) as [st' |] eqn:Hrun; [| exact Hst].
  eapply DocumentRegistry.reachable_call; eassumption.
Qed.

Lemma documents0_reachable : DocumentRegistry.reachable Deployment.documents0.
Proof.
  assert (Hreplay :
    Deployment.documents0
    = replay DocumentRegistry.run
        (DocumentRegistry.constructor
           (Deployment.asAdmin Deployment.documentsAddress 1000))
        [(Deployment.asAdmin Deployment.documentsAddress 1000,
          DocumentRegistry.RegisterDocument 77 DocumentRegistry.Invoice
            "INV-001")])
    by (vm_compute; reflexivity).
  rewrite Hreplay. apply DocumentRegistry_reachable_replay.
  apply DocumentRegistry.reachable_constructor.
Qed.

Lemma registerDocument_notarizes_witness :
  exists st',
    DocumentRegistry.registerDocument
      (Deployment.asAdmin Deployment.documentsAddress 2000)
      Deployment.documents0 78 DocumentRegistry.Receipt "R-1" = Ok st'
    /\ DocumentRegistry.verifyDocument st' 78
       = (true, true,
          DocumentRegistry.mkDocument 78 1 2000 DocumentRegistry.Receipt
            "R-1" false)
    /\ DocumentRegistry.getUserDocuments st' 1 = [77; 78]
    /\ is_ok (DocumentRegistry.registerDocument
                (Deployment.asAdmin Deployment.documentsAddress 3000)
                st' 78 DocumentRegistry.Other "again") = false.
Proof.
  destruct (DocumentRegistry.registerDocument
              (Deployment.asAdmin Deployment.documentsAddress 2000)
              Deployment.documents0 78 DocumentRegistry.Receipt "R-1")
    as [st' | e] eqn:Hrun; [| vm_compute in Hrun; discriminate Hrun].
  exists st'. split; [reflexivity |].
  destruct (proj2 (registerDocument_notarizes _ _ _ _ _) st' Hrun)
    as (Hverify & Hlist & _ & _ & Hagain).
  split; [exact Hverify |].
  split; [| apply Hagain].
  etransitivity; [exact Hlist |]. vm_compute. reflexivity.
Defined.

Lemma batchRegisterDocuments_all_or_nothing_witness :
  is_ok (DocumentRegistry.batchRegisterDocuments
           (Deployment.asAdmin Deployment.documentsAddress 2000)
           Deployment.documents0 [78; 79; 78]
           [DocumentRegistry.Receipt; DocumentRegistry.Other;
            DocumentRegistry.Receipt] ["R-1"; "R-2"; "R-3"]) = false
  /\ is_ok (DocumentRegistry.batchRegisterDocuments
              (Deployment.asAdmin Deployment.documentsAddress 2000)
              Deployment.documents0 [78; 77]
              [DocumentRegistry.Receipt; DocumentRegistry.Other]
              ["R-1"; "R-2"]) = false
  /\ exists st',
       DocumentRegistry.batchRegisterDocuments
         (Deployment.asAdmin Deployment.documentsAddress 2000)
         Deployment.documents0 [78; 79]
         [DocumentRegistry.Receipt; DocumentRegistry.Other] ["R-1"; "R-2"]
       = Ok st'
       /\ DocumentRegistry.verifyDocument st' 79
          = (true, true,
             DocumentRegistry.mkDocument 79 1 2000 DocumentRegistry.Other
               "R-2" false)
       /\ DocumentRegistry.getUserDocuments st' 1 = [77; 78; 79].
Proof.
  split; [| split].
  - apply (proj1 (batchRegisterDocuments_all_or_nothing _ _ [78; 79; 78] _ _)
             2%nat 78 eq_refl).
    right; right. exists 0%nat. split; [lia | reflexivity].
  - apply (proj1 (batchRegisterDocuments_all_or_nothing _ _ [78; 77] _ _)
             1%nat 77 eq_refl).
    right; left. vm_compute. discriminate.
  - destruct (DocumentRegistry.batchRegisterDocuments
                (Deployment.asAdmin Deployment.documentsAddress 2000)
                Deployment.documents0 [78; 79]
                [DocumentRegistry.Receipt; DocumentRegistry.Other]
                ["R-1"; "R-2"]) as [st' | e] eqn:Hrun;
      [| vm_compute in Hrun; discriminate Hrun].
    exists st'. split; [reflexivity |].
    destruct (proj2 (proj2 (batchRegisterDocuments_all_or_nothing _ _ _ _ _))
                st' Hrun) as (Hverify & Hlist & _).
    split.
    + apply (Hverify 1%nat); reflexivity.
    + etransitivity; [exact Hlist |]. vm_compute. reflexivity.
Defined.

Lemma documents_are_permanent_witness :
  exists st',
    DocumentRegistry.run (Deployment.asAdmin Deployment.documentsAddress 2000)
      Deployment.documents0 (DocumentRegistry.RevokeDocument 77 "superseded")
    = Ok st'
    /\ DocumentRegistry.registeredBy (DocumentRegistry.documents_at st' 77)
       = 1
    /\ DocumentRegistry.docReference (DocumentRegistry.documents_at st' 77)
       = "INV-001".
Proof.
  destruct (DocumentRegistry.run
              (Deployment.asAdmin Deployment.documentsAddress 2000)
              Deployment.documents0
              (DocumentRegistry.RevokeDocument 77 "superseded"))
    as [st' | e] eqn:Hrun; [| vm_compute in Hrun; discriminate Hrun].
  exists st'. split; [reflexivity |].
  destruct (documents_are_permanent _ _ _ _ 77 Hrun
              ltac:(vm_compute; discriminate))
    as (_ & Hby & _ & _ & Href & _).
  rewrite Hby, Href. vm_compute. split; reflexivity.
Defined.

Lemma userDocuments_index_consistent_witness :
  (forall a h,
     h ∈ DocumentRegistry.getUserDocuments Deployment.documents0 a
     <-> DocumentRegistry.docHash
           (DocumentRegistry.documents_at Deployment.documents0 h) <> 0
         /\ DocumentRegistry.registeredBy
              (DocumentRegistry.documents_at Deployment.documents0 h) = a)
  /\ forall a,
       NoDup (DocumentRegistry.getUserDocuments Deployment.documents0 a).
Proof.
  destruct (userDocuments_index_consistent Deployment.documents0
              documents0_reachable) as (_ & Hindex & Hnodup & _).
  split; [exact Hindex | exact Hnodup].
Defined.

Lemma document_manager_role_lifecycle_witness :
  is_ok (DocumentRegistry.registerDocument
           (mkEnv Deployment.paymentManager Deployment.documentsAddress 2000)
           Deployment.documents0 78 DocumentRegistry.Receipt "R-1") = false
  /\ exists st',
       DocumentRegistry.grantDocumentManagerRole
         (Deployment.asAdmin Deployment.documentsAddress 2000)
         Deployment.documents0 Deployment.paymentManager = Ok st'
       /\ is_ok (DocumentRegistry.registerDocument
                   (mkEnv Deployment.paymentManager
                      Deployment.documentsAddress 2000)
                   st' 78 DocumentRegistry.Receipt "R-1") = true.
Proof.
  split; [vm_compute; reflexivity |].
  destruct (DocumentRegistry.grantDocumentManagerRole
              (Deployment.asAdmin Deployment.documentsAddress 2000)
              Deployment.documents0 Deployment.paymentManager)
    as [st' | e] eqn:Hrun; [| vm_compute in Hrun; discriminate Hrun].
  exists st'. split; [reflexivity |].
  destruct (document_manager_role_lifecycle
              (Deployment.asAdmin Deployment.documentsAddress 2000)
              Deployment.documents0 Deployment.paymentManager)
    as (_ & _ & Hgrant & _).
  apply (Hgrant st' Hrun); [reflexivity | discriminate |].
  vm_compute. reflexivity.
Defined.
(** ** PaymentProcessor: records, custody and settings *)

Section Processor.
Import PaymentProcessor.
Variable keccak256 : list AbiValue -> bytes32.
Variable recover : bytes32 -> bytes -> option address.

(** Everything a single payment that went through has checked and done. *)
Lemma processPayment_effect env st led id p tok a ref sig st' led' :
  processPayment keccak256 recover env st led id p tok a ref sig
    = Ok (st', led') ->
  p <> 0 /\ tok <> 0 /\ 0 < a
  /\ paymentId (payments_at st id) = 0
  /\ processed_at st (paymentHash keccak256 id p tok a) = false
  /\ 0 <= a * platformFeePercentage st <= MAX_UINT256
  /\ 0 <= a - feeOf (platformFeePercentage st) a
  /\ st' = emit
             (set_payment st (paymentHash keccak256 id p tok a)
                {| paymentId := id;
                   payer := msg_sender env;
                   payee := p;
                   tokenAddress := tok;
                   amount := a;
                   feeAmount := feeOf (platformFeePercentage st) a;
                   timestamp := block_timestamp env;
                   referenceHash := ref |})
             (PaymentProcessed id (msg_sender env) p tok a
                (feeOf (platformFeePercentage st) a) ref)
  /\ ERC20.transfers led'
     = ERC20.transfers led
       ++ ERC20.mkTransfer tok (msg_sender env) p
            (a - feeOf (platformFeePercentage st) a)
          :: (if 0 <? feeOf (platformFeePercentage st) a
              then [ERC20.mkTransfer tok (msg_sender env) (feeCollector st)
                      (feeOf (platformFeePercentage st) a)]
              else [])
  /\ (forall x,
        ERC20.balanceOf led' tok x
        = ERC20.balanceOf led tok x
          - delta x (msg_sender env) a
          + delta x p (a - feeOf (platformFeePercentage st) a)
          + delta x (feeCollector st) (feeOf (platformFeePercentage st) a)).
Proof.
  unfold processPayment, feeOf. intros H.
  step_ok H as u1 Hp. req Hp. apply negb_true_iff, Z.eqb_neq in Hp.
  step_ok H as u2 Htok. req Htok. apply negb_true_iff, Z.eqb_neq in Htok.
  step_ok H as u3 Hpos. req Hpos. apply Z.ltb_lt in Hpos.
  step_ok H as u4 Hfree. req Hfree. apply Z.eqb_eq in Hfree.
  step_ok H as u5 Hseen. req Hseen. apply negb_true_iff in Hseen.
  step_ok H as u6 Hsig.
  step_ok H as product Hproduct. apply checked_Ok in Hproduct as [-> Hrange].
  step_ok H as payeeAmount Hsub. apply checked_Ok in Hsub as [-> Hsub].
  step_ok H as led1 Hpay. apply ERC20_transferFrom_spec in Hpay as [Ht1 Hb1].
  step_ok H as led2 Hfee. inversion H; subst; clear H.
  set (fee := a * platformFeePercentage st / 10000) in *.
  assert (Hfee0 : 0 <= fee) by (apply Z.div_pos; lia).
  assert (Hfee' : ERC20.transfers led'
                  = ERC20.transfers led1
                    ++ (if 0 <? fee
                        then [ERC20.mkTransfer tok (msg_sender env)
                                (feeCollector st) fee] else [])
                  /\ forall y, ERC20.balanceOf led' tok y
                       = ERC20.balanceOf led1 tok y
                         - delta y (msg_sender env) fee
                         + delta y (feeCollector st) fee).
  { simpl in Hfee. destruct (0 <? fee) eqn:Hf.
    - apply ERC20_transferFrom_spec in Hfee. exact Hfee.
    - inversion Hfee; subst. rewrite app_nil_r. split; [reflexivity |].
      intros y. assert (fee = 0) as -> by (apply Z.ltb_ge in Hf; lia).
      unfold delta.
      destruct (y =? msg_sender env), (y =? feeCollector st); lia. }
  destruct Hfee' as [Ht2 Hb2].
  repeat split; try assumption; try lia.
  - rewrite Ht2, Ht1, <- app_assoc. reflexivity.
  - intros y. rewrite Hb2, Hb1. unfold delta.
    destruct (y =? msg_sender env), (y =? p), (y =? feeCollector st); lia.
Qed.

Lemma payments_at_set_payment_other st h r x :
  x <> paymentId r ->
  payments_at (set_payment st h r) x = payments_at st x.
Proof.
  intros Hx. unfold payments_at, set_payment; simpl.
  rewrite lookup_insert_ne by congruence. reflexivity.
Qed.

Lemma payments_at_set_payment_eq st h r x :
  x = paymentId r -> payments_at (set_payment st h r) x = r.
Proof. intros ->. apply payments_at_set_payment. Qed.

Lemma processed_at_emit st e h :
  processed_at (emit st e) h = processed_at st h.
Proof. reflexivity. Qed.

Lemma processed_at_set_payment_other st h r x :
  x <> h -> processed_at (set_payment st h r) x = processed_at st x.
Proof.
  intros Hx. unfold processed_at, set_payment; simpl.
  rewrite lookup_insert_ne by congruence. reflexivity.
Qed.

(** X14: after a single payment with a nonzero identifier went through,
    verifyPayment, which reported the identifier as unknown before, reports
    it as existing, with the caller as payer, the payee, the token, the
    amount and the reference as given, the fee [amount * feeBps / 10000]
    and the time of the block; the answer for every other identifier is as
    before. *)
Theorem verifyPayment_after_payment env st led id p tok a ref sig st' led' :
  processPayment keccak256 recover env st led id p tok a ref sig
    = Ok (st', led') ->
  id <> 0 ->
  fst (verifyPayment st id) = false
  /\ verifyPayment st' id
     = (true,
        {| paymentId := id;
           payer := msg_sender env;
           payee := p;
           tokenAddress := tok;
           amount := a;
           feeAmount := a * platformFeePercentage st / 10000;
           timestamp := block_timestamp env;
           referenceHash := ref |})
  /\ (forall x, x <> id -> verifyPayment st' x = verifyPayment st x).
Proof.
  intros H Hid.
  apply processPayment_effect in H
    as (_ & _ & _ & Hfree & _ & _ & _ & -> & _).
  unfold verifyPayment. split; [rewrite Hfree; reflexivity |]. split.
  - rewrite payments_at_emit, payments_at_set_payment_eq by reflexivity.
    simpl. apply Z.eqb_neq in Hid. rewrite Hid. reflexivity.
  - intros x Hx. rewrite payments_at_emit, payments_at_set_payment_other
      by exact Hx. reflexivity.
Qed.

(** The validation loop of a batch writes records and fingerprints, and
    nothing else; it overwrites no record of a used identifier and clears
    no fingerprint. *)
Lemma validateItems_frame env tok amounts :
  forall ids payees refs st tA tF st1 tA1 tF1,
    validateItems keccak256 env tok ids payees amounts refs st tA tF
      = Ok (st1, tA1, tF1) ->
    feeCollector st1 = feeCollector st
    /\ platformFeePercentage st1 = platformFeePercentage st
    /\ tokenRegistry st1 = tokenRegistry st
    /\ _roles st1 = _roles st
    /\ events st1 = events st
    /\ (forall h, processed_at st h = true -> processed_at st1 h = true)
    /\ (forall x, paymentId (payments_at st x) <> 0 ->
                  payments_at st1 x = payments_at st x)
    /\ (forall x, x ∉ ids -> payments_at st1 x = payments_at st x).
Proof.
  induction amounts as [| a amounts IH];
    intros ids payees refs st tA tF st1 tA1 tF1 H.
  - simpl in H. inversion H; subst. auto 10.
  - destruct payees as [| p payees]; [discriminate H |].
    destruct ids as [| id ids]; [discriminate H |].
    destruct refs as [| r refs]; [discriminate H |].
    cbn [validateItems] in H.
    do 2 step_ok H. step_ok H as u Hfree. req Hfree. apply Z.eqb_eq in Hfree.
    step_ok H.
    step_ok H as product Hproduct. step_ok H as tA' HtA.
    step_ok H as tF' HtF.
    apply IH in H as (H1 & H2 & H3 & H4 & H5 & Hproc & Hused & Hother).
    simpl in H1, H2, H3, H4, H5.
    repeat split; try assumption.
    + intros h Hh. apply Hproc. apply set_payment_keeps_processed. exact Hh.
    + intros x Hx. rewrite Hused.
      * apply payments_at_set_payment_other. simpl. congruence.
      * apply set_payment_keeps_used; simpl; assumption.
    + intros x Hx. apply not_elem_of_cons in Hx as [Hxid Hx].
      rewrite (Hother x Hx). apply payments_at_set_payment_other.
      simpl. exact Hxid.
Qed.

(** What the validation loop has checked and stored for each item. *)
Lemma validateItems_items env tok amounts :
  forall ids payees refs st tA tF st1 tA1 tF1,
    validateItems keccak256 env tok ids payees amounts refs st tA tF
      = Ok (st1, tA1, tF1) ->
    forall i id p a r,
      ids !! i = Some id -> payees !! i = Some p ->
      amounts !! i = Some a -> refs !! i = Some r ->
      p <> 0 /\ 0 < a
      /\ paymentId (payments_at st id) = 0
      /\ 0 <= a * platformFeePercentage st <= MAX_UINT256
      /\ processed_at st1 (paymentHash keccak256 id p tok a) = true
      /\ (id <> 0 ->
          payments_at st1 id
          = {| paymentId := id;
               payer := msg_sender env;
               payee := p;
               tokenAddress := tok;
               amount := a;
               feeAmount := feeOf (platformFeePercentage st) a;
               timestamp := block_timestamp env;
               referenceHash := r |}).
Proof.
  induction amounts as [| a0 amounts IH];
    intros ids payees refs st tA tF st1 tA1 tF1 H i id p a r Hi Hp Ha Hr.
  - rewrite lookup_nil in Ha. discriminate Ha.
  - destruct payees as [| p0 payees]; [discriminate H |].
    destruct ids as [| id0 ids]; [discriminate H |].
    destruct refs as [| r0 refs]; [discriminate H |].
    cbn [validateItems] in H.
    step_ok H as u1 Hp0. req Hp0. apply negb_true_iff, Z.eqb_neq in Hp0.
    step_ok H as u2 Ha0. req Ha0. apply Z.ltb_lt in Ha0.
    step_ok H as u3 Hfree. req Hfree. apply Z.eqb_eq in Hfree.
    step_ok H as u4 Hseen.
    step_ok H as product Hproduct. apply checked_Ok in Hproduct as [-> Hrange].
    step_ok H as tA' HtA. step_ok H as tF' HtF.
    pose proof (validateItems_frame _ _ _ _ _ _ _ _ _ _ _ _ H)
      as (_ & Hbps & _ & _ & _ & Hproc & Hused & _).
    simpl in Hbps.
    destruct i as [| i]; simpl in Hi, Hp, Ha, Hr.
    + inversion Hi; inversion Hp; inversion Ha; inversion Hr; subst.
      split; [exact Hp0 |]. split; [exact Ha0 |]. split; [exact Hfree |].
      split; [exact Hrange |]. split.
      * apply Hproc. apply processed_at_set_payment.
      * intros Hid. rewrite Hused.
        -- apply payments_at_set_payment_eq. reflexivity.
        -- rewrite payments_at_set_payment_eq by reflexivity. exact Hid.
    + destruct (IH _ _ _ _ _ _ _ _ _ H i id p a r Hi Hp Ha Hr)
        as (Q1 & Q2 & Q3 & Q4 & Q5 & Q6).
      simpl in Q4.
      split; [exact Q1 |]. split; [exact Q2 |]. split.
      { destruct (Z.eq_dec id id0) as [-> | Hne]; [exact Hfree |].
        rewrite payments_at_set_payment_other in Q3 by (simpl; exact Hne).
        exact Q3. }
      split; [exact Q4 |]. split; [exact Q5 |]. exact Q6.
Qed.

(** The distribution loop of a batch only appends events to the storage. *)
Lemma distributeItems_frame env tok payees :
  forall ids amounts refs st led st2 led2,
    distributeItems env tok ids payees amounts refs st led = Ok (st2, led2) ->
    feeCollector st2 = feeCollector st
    /\ platformFeePercentage st2 = platformFeePercentage st
    /\ tokenRegistry st2 = tokenRegistry st
    /\ _roles st2 = _roles st
    /\ payments st2 = payments st
    /\ processedPayments st2 = processedPayments st.
Proof.
  induction payees as [| p payees IH];
    intros ids amounts refs st led st2 led2 H.
  - simpl in H. inversion H; subst. auto 10.
  - destruct amounts as [| a amounts]; [discriminate H |].
    destruct ids as [| id ids]; [discriminate H |].
    destruct refs as [| r refs]; [discriminate H |].
    cbn [distributeItems] in H. do 3 step_ok H.
    apply IH in H. exact H.
Qed.

(** The two loops of a batch that went through. *)
Lemma processBatchPayment_Ok env st led ids payees tok amounts refs st' led' :
  processBatchPayment keccak256 env st led ids payees tok amounts refs
    = Ok (st', led') ->
  hasRole (_roles st) PAYMENT_MANAGER_ROLE (msg_sender env) = true
  /\ length ids = length payees /\ length payees = length amounts
  /\ length amounts = length refs /\ tok <> 0
  /\ exists st1 led1 led2,
       validateItems keccak256 env tok ids payees amounts refs st 0 0
         = Ok (st1, batchTotal amounts,
               batchFees (platformFeePercentage st) amounts)
       /\ ERC20.transferFrom (this env) led tok (msg_sender env) (this env)
            (batchTotal amounts) = Ok led1
       /\ distributeItems env tok ids payees amounts refs st1 led1
          = Ok (st', led2)
       /\ (if 0 <? batchFees (platformFeePercentage st) amounts
           then ERC20.transfer (this env) led2 tok (feeCollector st)
                  (batchFees (platformFeePercentage st) amounts)
           else Ok led2) = Ok led'.
Proof.
  unfold processBatchPayment. intros H.
  step_ok H as u0 Hrole. apply onlyRole_Ok in Hrole.
  step_ok H as u1 H1. req H1. apply Nat.eqb_eq in H1.
  step_ok H as u2 H2. req H2. apply Nat.eqb_eq in H2.
  step_ok H as u3 H3. req H3. apply Nat.eqb_eq in H3.
  step_ok H as u4 Htok. req Htok. apply negb_true_iff, Z.eqb_neq in Htok.
  step_ok H as v Hvalid. destruct v as [[st1 totalAmount] totalFees].
  pose proof (validateItems_Ok _ _ _ _ _ _ _ _ _ _ _ _ _ Hvalid)
    as (-> & -> & Hbps & Hfc).
  rewrite !Z.add_0_l in *.
  step_ok H as led1 Hpull.
  step_ok H as d Hdist. destruct d as [st2 led2].
  pose proof (distributeItems_frame _ _ _ _ _ _ _ _ _ _ Hdist)
    as (Hfc2 & _).
  step_ok H as led3 Hfee. inversion H; subst; clear H.
  rewrite Hfc2, Hfc in Hfee.
  repeat split; try assumption.
  exists st1, led1, led2. auto.
Qed.

Lemma payments_at_same st st' x :
  payments st' = payments st -> payments_at st' x = payments_at st x.
Proof. unfold payments_at. intros ->. reflexivity. Qed.

Lemma processed_at_same st st' h :
  processedPayments st' = processedPayments st ->
  processed_at st' h = processed_at st h.
Proof. unfold processed_at. intros ->. reflexivity. Qed.

(** X15: after a batch payment went through, every item with a nonzero
    identifier, unknown before, verifies as existing, with the caller as
    payer, its own payee, amount and reference, the token of the batch, its
    own fee [amount * feeBps / 10000] and the time of the block; the answer
    of verifyPayment for the identifiers outside the batch is as before. *)
Theorem processBatchPayment_records env st led ids payees tok amounts refs
    st' led' :
  processBatchPayment keccak256 env st led ids payees tok amounts refs
    = Ok (st', led') ->
  (forall i id p a r,
     ids !! i = Some id -> payees !! i = Some p ->
     amounts !! i = Some a -> refs !! i = Some r ->
     id <> 0 ->
     fst (verifyPayment st id) = false
     /\ verifyPayment st' id
        = (true,
           {| paymentId := id;
              payer := msg_sender env;
              payee := p;
              tokenAddress := tok;
              amount := a;
              feeAmount := a * platformFeePercentage st / 10000;
              timestamp := block_timestamp env;
              referenceHash := r |}))
  /\ (forall x, x ∉ ids -> verifyPayment st' x = verifyPayment st x).
Proof.
  intros H.
  apply processBatchPayment_Ok in H
    as (_ & _ & _ & _ & _ & st1 & led1 & led2 & Hvalid & _ & Hdist & _).
  apply distributeItems_frame in Hdist as (_ & _ & _ & _ & Hpay & _).
  split.
  - intros i id p a r Hi Hp Ha Hr Hid.
    destruct (validateItems_items _ _ _ _ _ _ _ _ _ _ _ _ Hvalid
                i id p a r Hi Hp Ha Hr) as (_ & _ & Hfree & _ & _ & Hrec).
    unfold verifyPayment. split; [rewrite Hfree; reflexivity |].
    rewrite (payments_at_same _ _ _ Hpay), (Hrec Hid). simpl.
    apply Z.eqb_neq in Hid. rewrite Hid. reflexivity.
  - intros x Hx.
    apply validateItems_frame in Hvalid as (_ & _ & _ & _ & _ & _ & _ & Hother).
    unfold verifyPayment.
    rewrite (payments_at_same _ _ _ Hpay), (Hother x Hx). reflexivity.
Qed.

(** The administrative functions. *)
Lemma updatePlatformFee_Ok env st n st' :
  updatePlatformFee env st n = Ok st' ->
  hasRole (_roles st) ADMIN_ROLE (msg_sender env) = true
  /\ n <= MAX_FEE
  /\ st' = {| feeCollector := feeCollector st;
              platformFeePercentage := n;
              tokenRegistry := tokenRegistry st;
              payments := payments st;
              processedPayments := processedPayments st;
              _roles := _roles st;
              events := events st ++ [FeeUpdated n] |}.
Proof.
  unfold updatePlatformFee. intros H.
  step_ok H as u0 Hrole. apply onlyRole_Ok in Hrole.
  step_ok H as u1 Hn. req Hn. apply Z.leb_le in Hn.
  inversion H; subst; clear H. auto.
Qed.

Lemma updateFeeCollector_Ok env st a st' :
  updateFeeCollector env st a = Ok st' ->
  hasRole (_roles st) ADMIN_ROLE (msg_sender env) = true
  /\ a <> 0
  /\ st' = {| feeCollector := a;
              platformFeePercentage := platformFeePercentage st;
              tokenRegistry := tokenRegistry st;
              payments := payments st;
              processedPayments := processedPayments st;
              _roles := _roles st;
              events := events st ++ [FeeCollectorUpdated a] |}.
Proof.
  unfold updateFeeCollector. intros H.
  step_ok H as u0 Hrole. apply onlyRole_Ok in Hrole.
  step_ok H as u1 Ha. req Ha. apply negb_true_iff, Z.eqb_neq in Ha.
  inversion H; subst; clear H. auto.
Qed.

Lemma setTokenRegistry_Ok env st a st' :
  setTokenRegistry env st a = Ok st' ->
  hasRole (_roles st) ADMIN_ROLE (msg_sender env) = true
  /\ a <> 0
  /\ st' = {| feeCollector := feeCollector st;
              platformFeePercentage := platformFeePercentage st;
              tokenRegistry := a;
              payments := payments st;
              processedPayments := processedPayments st;
              _roles := _roles st;
              events := events st |}.
Proof.
  unfold setTokenRegistry. intros H.
  step_ok H as u0 Hrole. apply onlyRole_Ok in Hrole.
  step_ok H as u1 Ha. req Ha. apply negb_true_iff, Z.eqb_neq in Ha.
  inversion H; subst; clear H. auto.
Qed.

Lemma grantRole_Ok env st role account st' :
  grantRole env st role account = Ok st' ->
  hasRole (_roles st) DEFAULT_ADMIN_ROLE (msg_sender env) = true
  /\ st' = {| feeCollector := feeCollector st;
              platformFeePercentage := platformFeePercentage st;
              tokenRegistry := tokenRegistry st;
              payments := payments st;
              processedPayments := processedPayments st;
              _roles := _grantRole (_roles st) role account;
              events := events st |}.
Proof.
  unfold grantRole. intros H.
  step_ok H as u0 Hrole. apply onlyRole_Ok in Hrole.
  inversion H; subst; clear H. auto.
Qed.

(** What any call that went through does to the settings and to the two
    tables: the settings stay within their bounds, no record of a used
    identifier is overwritten and no fingerprint is cleared. *)
Lemma run_frame env st led c st' led' :
  run keccak256 recover env st led c = Ok (st', led') ->
  (platformFeePercentage st <= MAX_FEE ->
   platformFeePercentage st' <= MAX_FEE)
  /\ (feeCollector st <> 0 -> feeCollector st' <> 0)
  /\ (tokenRegistry st <> 0 -> tokenRegistry st' <> 0)
  /\ (forall h, processed_at st h = true -> processed_at st' h = true)
  /\ (forall x, paymentId (payments_at st x) <> 0 ->
                payments_at st' x = payments_at st x).
Proof.
  intros H. destruct c; simpl in H.
  - apply processPayment_effect in H
      as (_ & _ & _ & Hfree & _ & _ & _ & -> & _).
    simpl. repeat split; try tauto.
    + intros h Hh. rewrite processed_at_emit.
      apply set_payment_keeps_processed. exact Hh.
    + intros x Hx. rewrite payments_at_emit.
      apply payments_at_set_payment_other. simpl. congruence.
  - apply processBatchPayment_Ok in H
      as (_ & _ & _ & _ & _ & st1 & led1 & led2 & Hvalid & _ & Hdist & _).
    apply validateItems_frame in Hvalid
      as (V1 & V2 & V3 & _ & _ & Vproc & Vused & _).
    apply distributeItems_frame in Hdist as (D1 & D2 & D3 & _ & D5 & D6).
    rewrite D1, D2, D3, V1, V2, V3. repeat split; try tauto.
    + intros h Hh. rewrite (processed_at_same _ _ _ D6). apply Vproc, Hh.
    + intros x Hx. rewrite (payments_at_same _ _ _ D5). apply Vused, Hx.
  - step_ok H as st1 Hop. inversion H; subst; clear H.
    apply updatePlatformFee_Ok in Hop as (_ & Hn & ->). simpl.
    repeat split; tauto.
  - step_ok H as st1 Hop. inversion H; subst; clear H.
    apply updateFeeCollector_Ok in Hop as (_ & Ha & ->). simpl.
    repeat split; tauto.
  - step_ok H as st1 Hop. inversion H; subst; clear H.
    apply setTokenRegistry_Ok in Hop as (_ & Ha & ->). simpl.
    repeat split; tauto.
  - step_ok H as st1 Hop. inversion H; subst; clear H.
    apply grantRole_Ok in Hop as (_ & ->). simpl.
    repeat split; tauto.
Qed.

(** X16: no call of the processor changes what verifyPayment answers for
    a payment that exists: a record is written once. *)
Theorem payment_records_are_immutable env st led c st' led' x :
  run keccak256 recover env st led c = Ok (st', led') ->
  fst (verifyPayment st x) = true ->
  verifyPayment st' x = verifyPayment st x.
Proof.
  intros H Hx. apply run_frame in H as (_ & _ & _ & _ & Hkeep).
  unfold verifyPayment in *. simpl in Hx.
  apply negb_true_iff, Z.eqb_neq in Hx. rewrite (Hkeep x Hx). reflexivity.
Qed.

Lemma replay_keeps_processed txs :
  forall st led h,
    processed_at st h = true ->
    processed_at
      (fst (replay (fun env s c => run keccak256 recover env (fst s) (snd s) c)
              (st, led) txs)) h = true.
Proof.
  induction txs as [| [env c] txs IH]; intros st led h Hh; [exact Hh |].
  simpl.
  destruct (run keccak256 recover env st led c) as [[st1 led1] |] eqn:Hrun;
    simpl.
  - apply IH. apply run_frame in Hrun as (_ & _ & _ & Hproc & _).
    apply Hproc, Hh.
  - apply IH, Hh.
Qed.

(** A record stored under its identifier is still there, unchanged, after
    any sequence of calls. *)
Lemma replay_keeps_record txs :
  forall st led x,
    paymentId (payments_at st x) <> 0 ->
    payments_at
      (fst (replay (fun env s c => run keccak256 recover env (fst s) (snd s) c)
              (st, led) txs)) x = payments_at st x.
Proof.
  induction txs as [| [env c] txs IH]; intros st led x Hx; [reflexivity |].
  simpl.
  destruct (run keccak256 recover env st led c) as [[st1 led1] |] eqn:Hrun;
    simpl.
  - apply run_frame in Hrun as (_ & _ & _ & _ & Hkeep).
    rewrite IH; [apply Hkeep, Hx |]. rewrite (Hkeep x Hx). exact Hx.
  - apply IH, Hx.
Qed.

(** X17: after a single payment went through, and after any sequence of
    later calls of the processor (those that revert leave the storage as it
    was), no processPayment with the same identifier, payee, token and
    amount goes through, whatever its caller, reference and signature. *)
Theorem processPayment_fingerprint_is_spent env st led id p tok a ref sig
    st1 led1 :
  processPayment keccak256 recover env st led id p tok a ref sig
    = Ok (st1, led1) ->
  forall txs env2 led2 ref2 sig2,
    is_ok (processPayment keccak256 recover env2
             (fst (replay
                     (fun env s c =>
                        run keccak256 recover env (fst s) (snd s) c)
                     (st1, led1) txs))
             led2 id p tok a ref2 sig2) = false.
Proof.
  intros H txs env2 led2 ref2 sig2.
  apply processPayment_effect in H as (_ & _ & _ & _ & _ & _ & _ & -> & _).
  match goal with
  | |- is_ok ?r = false => destruct r as [[st2 led3] |] eqn:H2; [| reflexivity]
  end.
  apply processPayment_effect in H2 as (_ & _ & _ & _ & Hseen & _).
  rewrite replay_keeps_processed in Hseen; [discriminate Hseen |].
  rewrite processed_at_emit. apply processed_at_set_payment.
Qed.

(** With a fee rate of at most [MAX_FEE] the fee is at most a twentieth of
    the amount. *)
Lemma feeOf_bound bps a :
  0 < a -> bps <= MAX_FEE -> 0 <= a * bps ->
  0 <= feeOf bps a /\ 20 * feeOf bps a <= a.
Proof.
  unfold feeOf, MAX_FEE. intros Ha Hbps Hnonneg.
  split; [apply Z.div_pos; lia |].
  transitivity (20 * (a * 500 / 10000)).
  - apply Z.mul_le_mono_nonneg_l; [lia |].
    apply Z.div_le_mono; [lia | nia].
  - change 10000 with (20 * 500). rewrite Z.div_mul_cancel_r by lia.
    apply Z.mul_div_le. lia.
Qed.

Lemma validRecord_set_payment st id sender p tok a fee now ref x :
  p <> 0 -> tok <> 0 -> 0 < a -> 0 <= fee -> 20 * fee <= a ->
  paymentId (payments_at st id) = 0 ->
  validRecord keccak256 st x ->
  validRecord keccak256
    (set_payment st (paymentHash keccak256 id p tok a)
       {| paymentId := id; payer := sender; payee := p; tokenAddress := tok;
          amount := a; feeAmount := fee; timestamp := now;
          referenceHash := ref |}) x.
Proof.
  intros Hp Htok Ha Hfee0 Hfee Hfree Hvalid. unfold validRecord in *.
  destruct (Z.eq_dec x id) as [-> | Hne].
  - rewrite payments_at_set_payment_eq by reflexivity. simpl.
    destruct (Z.eq_dec id 0) as [-> | Hid]; [right; left; auto |].
    right; right. repeat split; try assumption.
    apply processed_at_set_payment.
  - rewrite payments_at_set_payment_other by (simpl; exact Hne).
    destruct Hvalid as [Hz | [Hzero | (V1 & V2 & V3 & V4 & V5 & V6 & V7 & V8)]];
      [left; exact Hz | right; left; exact Hzero |].
    right; right. repeat split; try assumption.
    apply set_payment_keeps_processed. exact V8.
Qed.

Lemma validateItems_valid env tok amounts :
  forall ids payees refs st tA tF st1 tA1 tF1,
    validateItems keccak256 env tok ids payees amounts refs st tA tF
      = Ok (st1, tA1, tF1) ->
    tok <> 0 -> platformFeePercentage st <= MAX_FEE ->
    (forall x, validRecord keccak256 st x) ->
    forall x, validRecord keccak256 st1 x.
Proof.
  induction amounts as [| a amounts IH];
    intros ids payees refs st tA tF st1 tA1 tF1 H Htok Hbps Hvalid.
  - simpl in H. inversion H; subst. exact Hvalid.
  - destruct payees as [| p payees]; [discriminate H |].
    destruct ids as [| id ids]; [discriminate H |].
    destruct refs as [| r refs]; [discriminate H |].
    cbn [validateItems] in H.
    step_ok H as u1 Hp. req Hp. apply negb_true_iff, Z.eqb_neq in Hp.
    step_ok H as u2 Ha. req Ha. apply Z.ltb_lt in Ha.
    step_ok H as u3 Hfree. req Hfree. apply Z.eqb_eq in Hfree.
    step_ok H as u4 Hseen.
    step_ok H as product Hproduct. apply checked_Ok in Hproduct as [-> Hrange].
    step_ok H as tA' HtA. step_ok H as tF' HtF.
    destruct (feeOf_bound (platformFeePercentage st) a Ha Hbps
                ltac:(lia)) as [Hfee0 Hfee].
    eapply IH; [exact H | exact Htok | exact Hbps |].
    intros x. apply validRecord_set_payment; auto.
Qed.

Lemma validRecord_same st st' x :
  payments st' = payments st ->
  processedPayments st' = processedPayments st ->
  validRecord keccak256 st x -> validRecord keccak256 st' x.
Proof.
  intros Hpay Hproc. unfold validRecord.
  rewrite (payments_at_same _ _ x Hpay).
  rewrite (processed_at_same _ _ _ Hproc). tauto.
Qed.

(** The invariant of the storage. *)
Lemma reachable_invariant st :
  reachable keccak256 recover st ->
  platformFeePercentage st <= MAX_FEE
  /\ feeCollector st <> 0
  /\ tokenRegistry st <> 0
  /\ (forall x, validRecord keccak256 st x).
Proof.
  induction 1 as [env fc fee reg st Hcons
                 | env st led c st' led' Hreach (Hfee & Hfc & Hreg & Hvalid) Hrun].
  - unfold constructor in Hcons.
    step_ok Hcons as u1 H1. req H1. apply negb_true_iff, Z.eqb_neq in H1.
    step_ok Hcons as u2 H2. req H2. apply Z.leb_le in H2.
    step_ok Hcons as u3 H3. req H3. apply negb_true_iff, Z.eqb_neq in H3.
    inversion Hcons; subst; clear Hcons. simpl.
    repeat split; try assumption.
    intros x. left. unfold payments_at; simpl. rewrite lookup_empty.
    reflexivity.
  - pose proof (run_frame _ _ _ _ _ _ Hrun) as (F1 & F2 & F3 & _ & _).
    split; [auto |]. split; [auto |]. split; [auto |].
    destruct c; simpl in Hrun.
    + apply processPayment_effect in Hrun
        as (Hp & Htok & Ha & Hfree & _ & Hrange & _ & -> & _).
      destruct (feeOf_bound (platformFeePercentage st) _amount Ha Hfee
                  ltac:(lia)) as [Hfee0 Hfee20].
      intros x. eapply validRecord_same; [| | apply validRecord_set_payment];
        [reflexivity | reflexivity | auto ..].
    + apply processBatchPayment_Ok in Hrun
        as (_ & _ & _ & _ & Htok & st1 & led1 & led2 & Hval & _ & Hdist & _).
      apply distributeItems_frame in Hdist as (_ & _ & _ & _ & D5 & D6).
      intros x. apply (validRecord_same st1); [exact D5 | exact D6 |].
      eapply validateItems_valid; eassumption.
    + step_ok Hrun as st1 Hop. inversion Hrun; subst; clear Hrun.
      apply updatePlatformFee_Ok in Hop as (_ & _ & ->).
      intros x. apply (validRecord_same st); [reflexivity .. |]. apply Hvalid.
    + step_ok Hrun as st1 Hop. inversion Hrun; subst; clear Hrun.
      apply updateFeeCollector_Ok in Hop as (_ & _ & ->).
      intros x. apply (validRecord_same st); [reflexivity .. |]. apply Hvalid.
    + step_ok Hrun as st1 Hop. inversion Hrun; subst; clear Hrun.
      apply setTokenRegistry_Ok in Hop as (_ & _ & ->).
      intros x. apply (validRecord_same st); [reflexivity .. |]. apply Hvalid.
    + step_ok Hrun as st1 Hop. inversion Hrun; subst; clear Hrun.
      apply grantRole_Ok in Hop as (_ & ->).
      intros x. apply (validRecord_same st); [reflexivity .. |]. apply Hvalid.
Qed.

(** X18: in every storage reached from the constructor by calls of the
    functions of the processor ([PaymentProcessor.run]), the fee rate is at
    most [MAX_FEE] (5%), the fee collector and the token registry are not
    null, every payment record is well formed ([validRecord]: apart from
    what is written under the identifier zero, a record is stored under its
    own identifier, with a payee, a token, a positive amount, a fee of at
    most a twentieth of the amount, and its fingerprint consumed), and a
    nonzero identifier that verifyPayment reports as unknown reads as the
    zero record. *)
Theorem processor_storage_invariant st :
  reachable keccak256 recover st ->
  platformFeePercentage st <= MAX_FEE
  /\ feeCollector st <> 0
  /\ tokenRegistry st <> 0
  /\ (forall x, validRecord keccak256 st x)
  /\ (forall x, fst (verifyPayment st x) = false ->
                x <> 0 ->
                snd (verifyPayment st x) = mkPaymentRecord 0 0 0 0 0 0 0 0).
Proof.
  intros Hreach.
  destruct (reachable_invariant st Hreach) as (H1 & H2 & H3 & H4).
  repeat split; try assumption.
  intros x Hx Hx0. unfold verifyPayment in *. simpl in *.
  apply negb_false_iff, Z.eqb_eq in Hx.
  destruct (H4 x) as [Hz | [[Hc _] | (_ & Hc & _)]];
    [exact Hz | contradiction | congruence].
Qed.

(** X19: on a reachable storage, a single payment that goes through
    splits the amount into a payout and a fee that add up to it, with a fee
    between zero and a twentieth of the amount, so the payee receives at
    least 95% of it; the fee is the one recorded, and the call makes one
    transfer of the payout to the payee followed, when the fee is positive,
    by one transfer of the fee to the fee collector. *)
Theorem payee_receives_at_least_95_percent env st led id p tok a ref sig
    st' led' :
  reachable keccak256 recover st ->
  processPayment keccak256 recover env st led id p tok a ref sig
    = Ok (st', led') ->
  exists payout fee,
    payout + fee = a
    /\ 0 <= fee /\ 20 * fee <= a /\ 19 * a <= 20 * payout
    /\ feeAmount (payments_at st' id) = fee
    /\ ERC20.transfers led'
       = ERC20.transfers led
         ++ ERC20.mkTransfer tok (msg_sender env) p payout
            :: (if 0 <? fee
                then [ERC20.mkTransfer tok (msg_sender env)
                        (feeCollector st) fee]
                else []).
Proof.
  intros Hreach H.
  destruct (reachable_invariant st Hreach) as (Hbps & _).
  apply processPayment_effect in H
    as (_ & _ & Ha & _ & _ & Hrange & _ & -> & Hlog & _).
  destruct (feeOf_bound (platformFeePercentage st) a Ha Hbps ltac:(lia))
    as [Hfee0 Hfee20].
  exists (a - feeOf (platformFeePercentage st) a),
         (feeOf (platformFeePercentage st) a).
  split; [lia |]. split; [exact Hfee0 |]. split; [exact Hfee20 |].
  split; [lia |]. split; [| exact Hlog].
  rewrite payments_at_emit, payments_at_set_payment_eq by reflexivity.
  reflexivity.
Qed.

Lemma delta_add x who u v : delta x who u + delta x who v = delta x who (u + v).
Proof. unfold delta. destruct (x =? who); lia. Qed.

Lemma delta_zero x who : delta x who 0 = 0.
Proof. unfold delta. destruct (x =? who); reflexivity. Qed.

(** The sum of the payouts of a batch. *)
Lemma distributeItems_balances env tok payees :
  forall ids amounts refs st led st2 led2,
    distributeItems env tok ids payees amounts refs st led = Ok (st2, led2) ->
    length payees = length amounts ->
    forall x,
      ERC20.balanceOf led2 tok x
      = ERC20.balanceOf led tok x
        - delta x (this env)
            (batchTotal amounts
             - batchFees (platformFeePercentage st) amounts)
        + batchReceived (platformFeePercentage st) payees amounts x.
Proof.
  induction payees as [| p payees IH];
    intros ids amounts refs st led st2 led2 H Hlen x.
  - destruct amounts; [| discriminate Hlen].
    simpl in H. inversion H; subst.
    unfold batchTotal, batchFees, batchReceived. simpl.
    rewrite delta_zero. lia.
  - destruct amounts as [| a amounts]; [discriminate H |].
    destruct ids as [| id ids]; [discriminate H |].
    destruct refs as [| r refs]; [discriminate H |].
    cbn [distributeItems] in H.
    step_ok H as product Hproduct. apply checked_Ok in Hproduct as [-> _].
    step_ok H as payeeAmount Hsub. apply checked_Ok in Hsub as [-> _].
    step_ok H as led1 Hpay. apply ERC20_transfer_spec in Hpay as [_ Hb].
    simpl in Hlen.
    rewrite (IH _ _ _ _ _ _ _ H ltac:(lia) x).
    change (platformFeePercentage (emit st _)) with (platformFeePercentage st).
    rewrite Hb.
    change (batchTotal (a :: amounts)) with (a + batchTotal amounts).
    change (batchFees (platformFeePercentage st) (a :: amounts))
      with (feeOf (platformFeePercentage st) a
            + batchFees (platformFeePercentage st) amounts).
    change (batchReceived (platformFeePercentage st) (p :: payees)
              (a :: amounts) x)
      with (delta x p (a - feeOf (platformFeePercentage st) a)
            + batchReceived (platformFeePercentage st) payees amounts x).
    change (a * platformFeePercentage st / 10000)
      with (feeOf (platformFeePercentage st) a).
    set (f := feeOf (platformFeePercentage st) a).
    set (T := batchTotal amounts).
    set (F := batchFees (platformFeePercentage st) amounts).
    replace (a + T - (f + F)) with ((a - f) + (T - F)) by lia.
    rewrite <- delta_add. lia.
Qed.

Lemma batchReceived_absent bps payees :
  forall amounts x, x ∉ payees -> batchReceived bps payees amounts x = 0.
Proof.
  induction payees as [| p payees IH]; intros amounts x Hx; [reflexivity |].
  destruct amounts as [| a amounts]; [reflexivity |].
  apply not_elem_of_cons in Hx as [Hxp Hx].
  unfold batchReceived in *. simpl. rewrite (IH amounts x Hx).
  unfold delta. apply Z.eqb_neq in Hxp. rewrite Hxp. reflexivity.
Qed.

Lemma validateItems_fees env tok amounts :
  forall ids payees refs st tA tF st1 tA1 tF1,
    validateItems keccak256 env tok ids payees amounts refs st tA tF
      = Ok (st1, tA1, tF1) ->
    0 <= batchFees (platformFeePercentage st) amounts.
Proof.
  induction amounts as [| a amounts IH];
    intros ids payees refs st tA tF st1 tA1 tF1 H.
  - unfold batchFees. simpl. lia.
  - destruct payees as [| p payees]; [discriminate H |].
    destruct ids as [| id ids]; [discriminate H |].
    destruct refs as [| r refs]; [discriminate H |].
    cbn [validateItems] in H. do 4 step_ok H.
    step_ok H as product Hproduct. apply checked_Ok in Hproduct as [-> Hrange].
    do 2 step_ok H. apply IH in H. simpl in H.
    change (batchFees (platformFeePercentage st) (a :: amounts))
      with (feeOf (platformFeePercentage st) a
            + batchFees (platformFeePercentage st) amounts).
    assert (0 <= feeOf (platformFeePercentage st) a)
      by (apply Z.div_pos; lia).
    lia.
Qed.

(** What a batch that went through leaves on every account. *)
Lemma processBatchPayment_balance_sheet env st led ids payees tok amounts
    refs st' led' :
  processBatchPayment keccak256 env st led ids payees tok amounts refs
    = Ok (st', led') ->
  forall x,
    ERC20.balanceOf led' tok x
    = ERC20.balanceOf led tok x
      - delta x (msg_sender env) (batchTotal amounts)
      + batchReceived (platformFeePercentage st) payees amounts x
      + delta x (feeCollector st)
          (batchFees (platformFeePercentage st) amounts).
Proof.
  intros H.
  apply processBatchPayment_Ok in H
    as (_ & _ & Hlen & _ & _ & st1 & led1 & led2 & Hvalid & Hpull & Hdist & Hfee).
  pose proof (validateItems_fees _ _ _ _ _ _ _ _ _ _ _ _ Hvalid) as Hfees0.
  apply validateItems_frame in Hvalid as (_ & Hbps & _).
  apply ERC20_transferFrom_spec in Hpull as [_ Hb1].
  pose proof (distributeItems_balances _ _ _ _ _ _ _ _ _ _ Hdist Hlen)
    as Hb2.
  rewrite Hbps in Hb2.
  set (fees := batchFees (platformFeePercentage st) amounts) in *.
  assert (Hb3 : forall x, ERC20.balanceOf led' tok x
                  = ERC20.balanceOf led2 tok x - delta x (this env) fees
                    + delta x (feeCollector st) fees).
  { destruct (0 <? fees) eqn:Hf.
    - apply ERC20_transfer_spec in Hfee as [_ Hb]. exact Hb.
    - inversion Hfee; subst. intros x.
      assert (fees = 0) as -> by (apply Z.ltb_ge in Hf; lia).
      rewrite !delta_zero. lia. }
  intros x. rewrite Hb3, Hb2, Hb1.
  assert (Hsplit : delta x (this env) (batchTotal amounts)
                   = delta x (this env) (batchTotal amounts - fees)
                     + delta x (this env) fees)
    by (rewrite delta_add; f_equal; lia).
  lia.
Qed.

(** X20: after a batch payment went through, the balance of every
    account in the token of the batch is its balance before, minus the sum
    of the amounts when it is the caller, plus the payouts of the items it
    is the payee of, plus the sum of the fees when it is the fee collector.
    The processor, through which the tokens pass, holds at the end what it
    held before (when it is not itself the caller, the collector or a
    payee). *)
Theorem processBatchPayment_balances env st led ids payees tok amounts refs
    st' led' :
  processBatchPayment keccak256 env st led ids payees tok amounts refs
    = Ok (st', led') ->
  (forall x,
     ERC20.balanceOf led' tok x
     = ERC20.balanceOf led tok x
       - delta x (msg_sender env) (batchTotal amounts)
       + batchReceived (platformFeePercentage st) payees amounts x
       + delta x (feeCollector st)
           (batchFees (platformFeePercentage st) amounts))
  /\ (this env <> msg_sender env -> this env <> feeCollector st ->
      this env ∉ payees ->
      ERC20.balanceOf led' tok (this env) = ERC20.balanceOf led tok (this env)).
Proof.
  intros H.
  pose proof (processBatchPayment_balance_sheet _ _ _ _ _ _ _ _ _ _ H)
    as Hall.
  split; [exact Hall |].
  intros Hs Hc Hp. rewrite Hall, (batchReceived_absent _ _ _ _ Hp).
  unfold delta. apply Z.eqb_neq in Hs, Hc. rewrite Hs, Hc. lia.
Qed.

(** A [transferFrom] within the allowance and the balance goes through,
    and spends the allowance unless it is the unlimited one. *)
Lemma ERC20_transferFrom_run caller l tok src dst v :
  src <> 0 -> dst <> 0 -> caller <> 0 ->
  v <= ERC20.allowance l tok src caller ->
  v <= ERC20.balanceOf l tok src ->
  exists l',
    ERC20.transferFrom caller l tok src dst v = Ok l'
    /\ ERC20.allowance l' tok src caller
       = (if ERC20.allowance l tok src caller <? MAX_UINT256
          then ERC20.allowance l tok src caller - v
          else ERC20.allowance l tok src caller).
Proof.
  intros Hsrc Hdst Hcaller Hallow Hbal.
  unfold ERC20.transferFrom, ERC20._spendAllowance.
  destruct (ERC20.allowance l tok src caller <? MAX_UINT256) eqn:Hinf.
  - destruct (Z.ltb_spec (ERC20.allowance l tok src caller) v); [lia |].
    unfold ERC20._approve.
    apply Z.eqb_neq in Hsrc, Hdst, Hcaller. rewrite Hsrc, Hcaller.
    cbn [bind]. unfold ERC20._transfer. rewrite Hsrc, Hdst.
    unfold ERC20._update.
    change (ERC20.balanceOf
              {| ERC20._balances := ERC20._balances l;
                 ERC20._allowances :=
                   <[(tok, src, caller) :=
                       ERC20.allowance l tok src caller - v]>
                     (ERC20._allowances l);
                 ERC20.transfers := ERC20.transfers l |} tok src)
      with (ERC20.balanceOf l tok src).
    destruct (Z.ltb_spec (ERC20.balanceOf l tok src) v); [lia |].
    eexists. split; [reflexivity |].
    unfold ERC20.allowance at 1. simpl. rewrite lookup_insert_eq. reflexivity.
  - cbn [bind]. unfold ERC20._transfer.
    apply Z.eqb_neq in Hsrc, Hdst. rewrite Hsrc, Hdst.
    unfold ERC20._update.
    destruct (Z.ltb_spec (ERC20.balanceOf l tok src) v); [lia |].
    eexists. split; reflexivity.
Qed.

(** X21: processPayment called by a payment manager goes through when
    the payee and the token are not null, the amount is positive and fits a
    uint256, the identifier and the fingerprint are unused, the fee rate is
    at most 10000 basis points and the product of the amount and the rate
    does not overflow, the caller, the processor and the fee collector are
    not the null address, and the caller holds the amount and has approved
    the processor for it. *)
Theorem processPayment_goes_through env st led id p tok a ref sig :
  p <> 0 -> tok <> 0 -> 0 < a <= MAX_UINT256 ->
  paymentId (payments_at st id) = 0 ->
  processed_at st (paymentHash keccak256 id p tok a) = false ->
  hasRole (_roles st) PAYMENT_MANAGER_ROLE (msg_sender env) = true ->
  0 <= platformFeePercentage st <= 10000 ->
  a * platformFeePercentage st <= MAX_UINT256 ->
  msg_sender env <> 0 -> this env <> 0 -> feeCollector st <> 0 ->
  a <= ERC20.balanceOf led tok (msg_sender env) ->
  a <= ERC20.allowance led tok (msg_sender env) (this env) ->
  is_ok (processPayment keccak256 recover env st led id p tok a ref sig)
  = true.
Proof.
  intros Hp Htok [Ha Hmax] Hfree Hseen Hrole Hbps Hmul Hsender Hthis Hfc Hbal
    Hallow.
  unfold processPayment. rewrite !bind_require.
  apply Z.eqb_neq in Hp, Htok. rewrite Hp, Htok. cbn [negb].
  apply Z.ltb_lt in Ha. rewrite Ha. apply Z.ltb_lt in Ha.
  rewrite Hfree, Hseen. cbn [negb Z.eqb]. cbv iota.
  unfold verifySignature. rewrite Hrole. cbn [negb bind].
  unfold checked_mul. rewrite checked_in_range by nia. cbn [bind].
  set (fee := a * platformFeePercentage st / 10000).
  assert (Hfee0 : 0 <= fee) by (apply Z.div_pos; nia).
  assert (Hfee : fee <= a).
  { unfold fee. apply Z.div_le_upper_bound; nia. }
  unfold checked_sub. rewrite checked_in_range by lia. cbn [bind].
  apply Z.eqb_neq in Hp.
  destruct (ERC20_transferFrom_run (this env) led tok (msg_sender env) p
              (a - fee) Hsender Hp Hthis ltac:(lia) ltac:(lia))
    as (led1 & Hpay & Hallow1).
  rewrite Hpay. cbn [bind].
  destruct (0 <? fee) eqn:Hf; [| reflexivity].
  pose proof (ERC20_transferFrom_spec _ _ _ _ _ _ _ Hpay) as [_ Hb1].
  destruct (ERC20_transferFrom_run (this env) led1 tok (msg_sender env)
              (feeCollector st) fee Hsender Hfc Hthis) as (led2 & Hfee2 & _).
  - rewrite Hallow1.
    destruct (ERC20.allowance led tok (msg_sender env) (this env)
              <? MAX_UINT256); lia.
  - rewrite Hb1. unfold delta. rewrite Z.eqb_refl.
    destruct (msg_sender env =? p); lia.
  - simpl. rewrite Hfee2. reflexivity.
Qed.

Lemma updatePlatformFee_run env st n :
  hasRole (_roles st) ADMIN_ROLE (msg_sender env) = true -> n <= MAX_FEE ->
  is_ok (updatePlatformFee env st n) = true.
Proof.
  intros Hrole Hn. unfold updatePlatformFee.
  rewrite onlyRole_true by exact Hrole. cbn [bind]. rewrite bind_require.
  apply Z.leb_le in Hn. rewrite Hn. reflexivity.
Qed.

Lemma updateFeeCollector_run env st a :
  hasRole (_roles st) ADMIN_ROLE (msg_sender env) = true -> a <> 0 ->
  is_ok (updateFeeCollector env st a) = true.
Proof.
  intros Hrole Ha. unfold updateFeeCollector.
  rewrite onlyRole_true by exact Hrole. cbn [bind]. rewrite bind_require.
  apply Z.eqb_neq in Ha. rewrite Ha. reflexivity.
Qed.

(** X22: updatePlatformFee goes through exactly when the caller holds
    ADMIN_ROLE and the new rate is at most [MAX_FEE]; updateFeeCollector
    exactly when the caller holds ADMIN_ROLE and the new collector is not
    null.  The next payment uses the new setting: after updatePlatformFee
    its fee is [amount * newRate / 10000], recorded and paid to the
    collector; after updateFeeCollector the fee is paid to the new
    collector. *)
Theorem fee_settings_take_effect env st :
  (forall n,
     is_ok (updatePlatformFee env st n) = true <->
     hasRole (_roles st) ADMIN_ROLE (msg_sender env) = true /\ n <= MAX_FEE)
  /\ (forall c,
        is_ok (updateFeeCollector env st c) = true <->
        hasRole (_roles st) ADMIN_ROLE (msg_sender env) = true /\ c <> 0)
  /\ (forall n st1 env2 led id p tok a ref sig st2 led2,
        updatePlatformFee env st n = Ok st1 ->
        processPayment keccak256 recover env2 st1 led id p tok a ref sig
          = Ok (st2, led2) ->
        feeAmount (payments_at st2 id) = a * n / 10000
        /\ forall x, ERC20.balanceOf led2 tok x
                     = ERC20.balanceOf led tok x
                       - delta x (msg_sender env2) a
                       + delta x p (a - a * n / 10000)
                       + delta x (feeCollector st) (a * n / 10000))
  /\ (forall c st1 env2 led id p tok a ref sig st2 led2,
        updateFeeCollector env st c = Ok st1 ->
        processPayment keccak256 recover env2 st1 led id p tok a ref sig
          = Ok (st2, led2) ->
        forall x, ERC20.balanceOf led2 tok x
                  = ERC20.balanceOf led tok x
                    - delta x (msg_sender env2) a
                    + delta x p (a - a * platformFeePercentage st / 10000)
                    + delta x c (a * platformFeePercentage st / 10000)).
Proof.
  split; [| split; [| split]].
  - intros n. split.
    + destruct (updatePlatformFee env st n) as [st' |] eqn:H; [| discriminate].
      intros _. apply updatePlatformFee_Ok in H. tauto.
    + intros [H1 H2]. apply updatePlatformFee_run; assumption.
  - intros c. split.
    + destruct (updateFeeCollector env st c) as [st' |] eqn:H;
        [| discriminate].
      intros _. apply updateFeeCollector_Ok in H. tauto.
    + intros [H1 H2]. apply updateFeeCollector_run; assumption.
  - intros n st1 env2 led id p tok a ref sig st2 led2 Hset Hpay.
    apply updatePlatformFee_Ok in Hset as (_ & _ & ->).
    apply processPayment_effect in Hpay
      as (_ & _ & _ & _ & _ & _ & _ & -> & _ & Hbal).
    split; [| exact Hbal].
    rewrite payments_at_emit, payments_at_set_payment_eq by reflexivity.
    reflexivity.
  - intros c st1 env2 led id p tok a ref sig st2 led2 Hset Hpay.
    apply updateFeeCollector_Ok in Hset as (_ & _ & ->).
    apply processPayment_effect in Hpay
      as (_ & _ & _ & _ & _ & _ & _ & _ & _ & Hbal).
    exact Hbal.
Qed.

End Processor.

Lemma PaymentProcessor_reachable_replay keccak256 recover txs :
  forall st led,
    PaymentProcessor.reachable keccak256 recover st ->
    PaymentProcessor.reachable keccak256 recover
      (fst (replay
              (fun env s c =>
                 PaymentProcessor.run keccak256 recover env (fst s) (snd s) c)
              (st, led) txs)).
Proof.
  induction txs as [| [env c] txs IH]; intros st led Hst; [exact Hst |].
  simpl.
  destruct (PaymentProcessor.run keccak256 recover env st led c)
    as [[st' led'] |] eqn:Hrun; simpl.
  - apply IH. eapply PaymentProcessor.reachable_call; eassumption.
  - apply IH. exact Hst.
Qed.

Lemma processor0_reachable :
  PaymentProcessor.reachable Deployment.keccak256 Deployment.recover
    Deployment.processor0.
Proof.
  assert (Hcons :
    PaymentProcessor.constructor (Deployment.asAdmin 50 1000) 5 250 60
    = Ok (commit Deployment.processor0
            (PaymentProcessor.constructor (Deployment.asAdmin 50 1000)
               5 250 60)))
    by (vm_compute; reflexivity).
  assert (Hreplay :
    Deployment.processor0
    = fst (replay
             (fun env s c =>
                PaymentProcessor.run Deployment.keccak256 Deployment.recover
                  env (fst s) (snd s) c)
             (commit Deployment.processor0
                (PaymentProcessor.constructor (Deployment.asAdmin 50 1000)
                   5 250 60),
              Deployment.ledger0)
             [(Deployment.asAdmin 50 1000,
               PaymentProcessor.GrantRole PAYMENT_MANAGER_ROLE 2);
              (Deployment.asAdmin 50 1000,
               PaymentProcessor.GrantRole PAYMENT_MANAGER_ROLE 70)]))
    by (vm_compute; reflexivity).
  rewrite Hreplay. apply PaymentProcessor_reachable_replay.
  eapply PaymentProcessor.reachable_constructor. exact Hcons.
Qed.

Lemma paid_run :
  PaymentProcessor.processPayment Deployment.keccak256 Deployment.recover
    (Deployment.asManager 2000) Deployment.processor0 Deployment.ledger0
    7 Deployment.payee Deployment.USDC 100000000 9 []
  = Ok (fst Deployment.paid, snd Deployment.paid).
Proof. vm_compute. reflexivity. Qed.

Lemma verifyPayment_after_payment_witness :
  fst (PaymentProcessor.verifyPayment Deployment.processor0 7) = false
  /\ PaymentProcessor.verifyPayment (fst Deployment.paid) 7
     = (true,
        PaymentProcessor.mkPaymentRecord 7 2 4 100 100000000 2500000 2000 9).
Proof.
  destruct (verifyPayment_after_payment _ _ _ _ _ _ _ _ _ _ _ _ _ paid_run
              ltac:(discriminate)) as (Hbefore & Hafter & _).
  split; [exact Hbefore | exact Hafter].
Defined.

Lemma processBatchPayment_records_witness :
  exists st' led',
    PaymentProcessor.processBatchPayment Deployment.keccak256
      (Deployment.asManager 2000) Deployment.processor0 Deployment.ledger0
      [11; 12; 13] [4; 6; 7] Deployment.USDC
      [100000000; 150000000; 200000000] [21; 22; 23] = Ok (st', led')
    /\ PaymentProcessor.verifyPayment st' 12
       = (true,
          PaymentProcessor.mkPaymentRecord 12 2 6 100 150000000 3750000
            2000 22).
Proof.
  destruct (PaymentProcessor.processBatchPayment Deployment.keccak256
              (Deployment.asManager 2000) Deployment.processor0
              Deployment.ledger0 [11; 12; 13] [4; 6; 7] Deployment.USDC
              [100000000; 150000000; 200000000] [21; 22; 23])
    as [[st' led'] | e] eqn:Hrun; [| vm_compute in Hrun; discriminate Hrun].
  exists st', led'. split; [reflexivity |].
  destruct (proj1 (processBatchPayment_records _ _ _ _ _ _ _ _ _ _ _ Hrun)
              1%nat 12 6 150000000 22 eq_refl eq_refl eq_refl eq_refl
              ltac:(discriminate)) as [_ Hafter].
  exact Hafter.
Defined.

Lemma payment_records_are_immutable_witness :
  exists st' led',
    PaymentProcessor.run Deployment.keccak256 Deployment.recover
      (Deployment.asAdmin 50 3000) (fst Deployment.paid) (snd Deployment.paid)
      (PaymentProcessor.UpdatePlatformFee 300) = Ok (st', led')
    /\ PaymentProcessor.platformFeePercentage st' = 300
    /\ PaymentProcessor.verifyPayment st' 7
       = (true,
          PaymentProcessor.mkPaymentRecord 7 2 4 100 100000000 2500000
            2000 9).
Proof.
  assert (Hrun :
    PaymentProcessor.run Deployment.keccak256 Deployment.recover
      (Deployment.asAdmin 50 3000) (fst Deployment.paid) (snd Deployment.paid)
      (PaymentProcessor.UpdatePlatformFee 300)
    = Ok (fst (commit Deployment.paid
                 (PaymentProcessor.run Deployment.keccak256
                    Deployment.recover (Deployment.asAdmin 50 3000)
                    (fst Deployment.paid) (snd Deployment.paid)
                    (PaymentProcessor.UpdatePlatformFee 300))),
          snd Deployment.paid)) by (vm_compute; reflexivity).
  eexists _, _. split; [exact Hrun |].
  split; [vm_compute; reflexivity |].
  rewrite (payment_records_are_immutable _ _ _ _ _ _ _ _ 7 Hrun
             ltac:(vm_compute; reflexivity)).
  vm_compute. reflexivity.
Defined.

Lemma processPayment_fingerprint_is_spent_witness :
  is_ok (PaymentProcessor.processPayment Deployment.keccak256
           Deployment.recover (Deployment.asManager 4000)
           (fst (replay
                   (fun env s c =>
                      PaymentProcessor.run Deployment.keccak256
                        Deployment.recover env (fst s) (snd s) c)
                   (fst Deployment.paid, snd Deployment.paid)
                   [(Deployment.asAdmin 50 3000,
                     PaymentProcessor.UpdatePlatformFee 300)]))
           Deployment.ledger0 7 Deployment.payee Deployment.USDC 100000000
           10 []) = false.
Proof.
  apply (processPayment_fingerprint_is_spent _ _ _ _ _ _ _ _ _ _ _ _ _
           paid_run).
Defined.

Lemma processor_storage_invariant_witness :
  PaymentProcessor.platformFeePercentage (fst Deployment.paid) <= 500
  /\ PaymentProcessor.feeCollector (fst Deployment.paid) <> 0
  /\ validRecord Deployment.keccak256 (fst Deployment.paid) 7
  /\ snd (PaymentProcessor.verifyPayment (fst Deployment.paid) 8)
     = PaymentProcessor.mkPaymentRecord 0 0 0 0 0 0 0 0.
Proof.
  assert (Hreach : PaymentProcessor.reachable Deployment.keccak256
                     Deployment.recover (fst Deployment.paid)).
  { exact (PaymentProcessor.reachable_call _ _ (Deployment.asManager 2000)
             _ Deployment.ledger0
             (PaymentProcessor.ProcessPayment 7 4 100 100000000 9 [])
             _ (snd Deployment.paid) processor0_reachable paid_run). }
  destruct (processor_storage_invariant _ _ _ Hreach)
    as (Hfee & Hfc & _ & Hvalid & Hzero).
  split; [exact Hfee |]. split; [exact Hfc |]. split; [apply Hvalid |].
  apply Hzero; [vm_compute; reflexivity | discriminate].
Defined.

Lemma payee_receives_at_least_95_percent_witness :
  exists payout fee,
    payout + fee = 100000000 /\ 19 * 100000000 <= 20 * payout
    /\ ERC20.transfers (snd Deployment.paid)
       = ERC20.transfers Deployment.ledger0
         ++ ERC20.mkTransfer 100 2 4 payout
            :: (if 0 <? fee then [ERC20.mkTransfer 100 2 5 fee] else []).
Proof.
  destruct (payee_receives_at_least_95_percent _ _ _ _ _ _ _ _ _ _ _ _ _
              processor0_reachable paid_run)
    as (payout & fee & Hsum & _ & _ & H95 & _ & Hlog).
  exists payout, fee. split; [exact Hsum |]. split; [exact H95 | exact Hlog].
Defined.

Lemma processBatchPayment_balances_witness :
  exists st' led',
    PaymentProcessor.processBatchPayment Deployment.keccak256
      (Deployment.asManager 2000) Deployment.processor0 Deployment.ledger0
      [11; 12; 13] [4; 6; 4] Deployment.USDC
      [100000000; 150000000; 200000000] [21; 22; 23] = Ok (st', led')
    /\ ERC20.balanceOf led' 100 4 = 292500000
    /\ ERC20.balanceOf led' 100 2 = 10000000000 - 450000000
    /\ ERC20.balanceOf led' 100 5 = 11250000
    /\ ERC20.balanceOf led' 100 50 = 0.
Proof.
  destruct (PaymentProcessor.processBatchPayment Deployment.keccak256
              (Deployment.asManager 2000) Deployment.processor0
              Deployment.ledger0 [11; 12; 13] [4; 6; 4] Deployment.USDC
              [100000000; 150000000; 200000000] [21; 22; 23])
    as [[st' led'] | e] eqn:Hrun; [| vm_compute in Hrun; discriminate Hrun].
  exists st', led'. split; [reflexivity |].
  destruct (processBatchPayment_balances _ _ _ _ _ _ _ _ _ _ _ Hrun)
    as [Hbal _].
  rewrite !Hbal. vm_compute. repeat split; reflexivity.
Defined.

Lemma processPayment_goes_through_witness :
  is_ok (PaymentProcessor.processPayment Deployment.keccak256
           Deployment.recover (Deployment.asManager 2000)
           Deployment.processor0 Deployment.ledger0 7 Deployment.payee
           Deployment.USDC 100000000 9 []) = true.
Proof.
  apply processPayment_goes_through; vm_compute;
    first [ reflexivity | discriminate
          | split; discriminate | split; [reflexivity | discriminate] ].
Defined.

Lemma fee_settings_take_effect_witness :
  is_ok (PaymentProcessor.updatePlatformFee (Deployment.asAdmin 50 3000)
           Deployment.processor0 500) = true
  /\ is_ok (PaymentProcessor.updatePlatformFee (Deployment.asAdmin 50 3000)
              Deployment.processor0 501) = false
  /\ is_ok (PaymentProcessor.updateFeeCollector (Deployment.asManager 3000)
              Deployment.processor0 8) = false.
Proof.
  destruct (fee_settings_take_effect Deployment.keccak256 Deployment.recover
              (Deployment.asAdmin 50 3000) Deployment.processor0)
    as (Hfee & _).
  destruct (fee_settings_take_effect Deployment.keccak256 Deployment.recover
              (Deployment.asManager 3000) Deployment.processor0)
    as (_ & Hcollector & _).
  split; [apply Hfee; split; [vm_compute; reflexivity | discriminate] |].
  split.
  - destruct (PaymentProcessor.updatePlatformFee
                (Deployment.asAdmin 50 3000) Deployment.processor0 501)
      eqn:H; [| reflexivity].
    assert (Hok : is_ok (PaymentProcessor.updatePlatformFee
                           (Deployment.asAdmin 50 3000)
                           Deployment.processor0 501) = true)
      by (rewrite H; reflexivity).
    apply Hfee in Hok as [_ Hn]. exfalso. apply Hn. reflexivity.
  - destruct (PaymentProcessor.updateFeeCollector
                (Deployment.asManager 3000) Deployment.processor0 8)
      eqn:H; [| reflexivity].
    assert (Hok : is_ok (PaymentProcessor.updateFeeCollector
                           (Deployment.asManager 3000)
                           Deployment.processor0 8) = true)
      by (rewrite H; reflexivity).
    apply Hcollector in Hok as [Hrole _]. vm_compute in Hrole.
    discriminate Hrole.
Defined.
(** ** PaymentProcessor: used identifiers, and the batch as a whole *)

Section UsedIdentifiers.
Import PaymentProcessor.
Variable keccak256 : list AbiValue -> bytes32.
Variable recover : bytes32 -> bytes -> option address.

(** A call on an identifier under which a record with a nonzero
    [paymentId] is stored stops at the first of the four leading checks
    that fails, in the order of the source: payee, token, amount,
    identifier. *)
Lemma processPayment_used_id env st led id p tok a ref sig :
  paymentId (payments_at st id) <> 0 ->
  processPayment keccak256 recover env st led id p tok a ref sig
  = Revert (RequireFailed
              (if p =? 0 then "Invalid payee"
               else if tok =? 0 then "Invalid token"
               else if 0 <? a then "Payment ID already used"
               else "Amount must be greater than 0")).
Proof.
  intros Hused. unfold processPayment. rewrite !bind_require.
  destruct (p =? 0); [reflexivity |]. cbn [negb].
  destruct (tok =? 0); [reflexivity |]. cbn [negb].
  destruct (0 <? a); [| reflexivity].
  apply Z.eqb_neq in Hused. rewrite Hused. reflexivity.
Qed.

(** C1 (amended): once processPayment has accepted a nonzero payment
    identifier, the record it stored under the identifier stays as written
    through any sequence of later calls of the processor, and every
    processPayment call with that identifier on a storage that holds the
    record, whatever its caller, payee, token, amount, reference and
    signature, reverts and leaves storage and ledger as they were.  The
    revert is that of the first failing check in the order of the source:
    "Invalid payee" when the payee is null, else "Invalid token" when the
    token is null, else "Amount must be greater than 0" when the amount is
    not positive (three validation errors), and "Payment ID already used"
    (a state conflict) when the three arguments are valid. *)
Theorem processPayment_replay env1 st led id p1 t1 a1 r1 s1 st1 led1 :
  id <> 0 ->
  processPayment keccak256 recover env1 st led id p1 t1 a1 r1 s1
    = Ok (st1, led1) ->
  (forall txs,
     payments_at
       (fst (replay
               (fun env s c => run keccak256 recover env (fst s) (snd s) c)
               (st1, led1) txs)) id
     = payments_at st1 id)
  /\ forall env2 st2 led2 p2 t2 a2 r2 s2,
       payments_at st2 id = payments_at st1 id ->
       exists e,
         processPayment keccak256 recover env2 st2 led2 id p2 t2 a2 r2 s2
           = Revert e
         /\ e = RequireFailed
                  (if p2 =? 0 then "Invalid payee"
                   else if t2 =? 0 then "Invalid token"
                   else if 0 <? a2 then "Payment ID already used"
                   else "Amount must be greater than 0")
         /\ errorKind e
            = (if negb (p2 =? 0) && negb (t2 =? 0) && (0 <? a2)
               then StateConflictError else ValidationError)
         /\ (errorKind e = StateConflictError
             \/ errorKind e = ValidationError)
         /\ (p2 <> 0 -> t2 <> 0 -> 0 < a2 ->
             e = RequireFailed "Payment ID already used")
         /\ commit (st2, led2)
              (processPayment keccak256 recover env2 st2 led2 id p2 t2 a2 r2
                 s2)
            = (st2, led2)
         /\ payments_at st2 id
            = {| paymentId := id;
                 payer := msg_sender env1;
                 payee := p1;
                 tokenAddress := t1;
                 amount := a1;
                 feeAmount := a1 * platformFeePercentage st / 10000;
                 timestamp := block_timestamp env1;
                 referenceHash := r1 |}.
Proof.
  intros Hid Hfirst.
  apply processPayment_stores in Hfirst.
  assert (Hstored : paymentId (payments_at st1 id) <> 0)
    by (rewrite Hfirst; exact Hid).
  split.
  - intros txs. apply replay_keeps_record. exact Hstored.
  - intros env2 st2 led2 p2 t2 a2 r2 s2 Hsame.
    assert (Hused : paymentId (payments_at st2 id) <> 0)
      by (rewrite Hsame; exact Hstored).
    rewrite (processPayment_used_id env2 st2 led2 id p2 t2 a2 r2 s2 Hused).
    eexists. split; [reflexivity |]. split; [reflexivity |].
    split; [| split; [| split; [| split]]].
    + destruct (p2 =? 0); [reflexivity |].
      destruct (t2 =? 0); [reflexivity |].
      destruct (0 <? a2); reflexivity.
    + destruct (p2 =? 0); [right; reflexivity |].
      destruct (t2 =? 0); [right; reflexivity |].
      destruct (0 <? a2); [left | right]; reflexivity.
    + intros Hp Ht Ha.
      apply Z.eqb_neq in Hp, Ht. apply Z.ltb_lt in Ha.
      rewrite Hp, Ht, Ha. reflexivity.
    + reflexivity.
    + rewrite Hsame. exact Hfirst.
Qed.



End UsedIdentifiers.

Section UsedIdentifiersExamples.
Import PaymentProcessor.

Lemma processPayment_replay_witness :
  exists st1 led1,
    PaymentProcessor.processPayment Deployment.keccak256 Deployment.recover
      (Deployment.asManager 2000) Deployment.processor0 Deployment.ledger0
      7 Deployment.payee Deployment.USDC 100000000 9 [] = Ok (st1, led1)
    /\ PaymentProcessor.processPayment Deployment.keccak256
         Deployment.recover (Deployment.asManager 2001) st1 led1 7
         Deployment.feeCollector Deployment.USDC 5 11 []
       = Revert (RequireFailed "Payment ID already used")
    /\ PaymentProcessor.processPayment Deployment.keccak256
         Deployment.recover (Deployment.asManager 2001) st1 led1 7
         0 Deployment.USDC 0 11 []
       = Revert (RequireFailed "Invalid payee")
    /\ PaymentProcessor.processPayment Deployment.keccak256
         Deployment.recover (Deployment.asManager 2001) st1 led1 7
         Deployment.payee Deployment.USDC 0 11 []
       = Revert (RequireFailed "Amount must be greater than 0")
    /\ PaymentProcessor.amount (PaymentProcessor.payments_at st1 7)
       = 100000000
    /\ PaymentProcessor.amount
         (PaymentProcessor.payments_at
            (fst (replay
                    (fun env s c =>
                       PaymentProcessor.run Deployment.keccak256
                         Deployment.recover env (fst s) (snd s) c)
                    (st1, led1)
                    [(Deployment.asAdmin 50 3000,
                      PaymentProcessor.UpdatePlatformFee 300);
                     (Deployment.asManager 3001,
                      PaymentProcessor.ProcessPayment 7 6 100 5 12 []);
                     (Deployment.asManager 3002,
                      PaymentProcessor.ProcessBatchPayment [8; 7] [6; 6] 100
                        [5; 5] [13; 14])])) 7)
       = 100000000.
Proof.
  destruct (PaymentProcessor.processPayment Deployment.keccak256
              Deployment.recover (Deployment.asManager 2000)
              Deployment.processor0 Deployment.ledger0 7 Deployment.payee
              Deployment.USDC 100000000 9 [])
    as [[st1 led1] | e] eqn:Hfirst;
    [| vm_compute in Hfirst; discriminate Hfirst].
  exists st1, led1. split; [reflexivity |].
  destruct (processPayment_replay Deployment.keccak256 Deployment.recover
              _ _ _ 7 _ _ _ _ _ _ _ ltac:(discriminate) Hfirst)
    as [Hkeep Hrefuse].
  destruct (Hrefuse (Deployment.asManager 2001) st1 led1
              Deployment.feeCollector Deployment.USDC 5 11 [] eq_refl)
    as (e1 & Hrun1 & He1 & _ & _ & _ & _ & Hrecord).
  destruct (Hrefuse (Deployment.asManager 2001) st1 led1
              0 Deployment.USDC 0 11 [] eq_refl)
    as (e2 & Hrun2 & He2 & _).
  destruct (Hrefuse (Deployment.asManager 2001) st1 led1
              Deployment.payee Deployment.USDC 0 11 [] eq_refl)
    as (e3 & Hrun3 & He3 & _).
  split; [rewrite Hrun1, He1; reflexivity |].
  split; [rewrite Hrun2, He2; reflexivity |].
  split; [rewrite Hrun3, He3; reflexivity |].
  split; [rewrite Hrecord; reflexivity |].
  rewrite Hkeep, Hrecord. reflexivity.
Defined.

Lemma processPayment_replay_counterexample :
  match processPayment Deployment.keccak256 Deployment.recover
          (Deployment.asManager 2000) Deployment.processor0
          Deployment.ledger0 0 Deployment.payee Deployment.USDC
          100000000 9 [] with
  | Ok (st1, led1) =>
      match processPayment Deployment.keccak256 Deployment.recover
              (Deployment.asManager 2001) st1 led1 0 Deployment.payee
              Deployment.USDC 5 9 [] with
      | Ok (st2, _) =>
          amount (payments_at st1 0) = 100000000
          /\ amount (payments_at st2 0) = 5
      | Revert _ => False
      end
  | Revert _ => False
  end
  /\ match processPayment Deployment.keccak256 Deployment.recover
            (Deployment.asManager 2000) Deployment.processor0
            Deployment.ledger0 7 Deployment.payee Deployment.USDC
            100000000 9 [] with
     | Ok (st1, led1) =>
         processPayment Deployment.keccak256 Deployment.recover
           (Deployment.asManager 2001) st1 led1 7 0 Deployment.USDC
           100000000 9 []
         = Revert (RequireFailed "Invalid payee")
         /\ errorKind (RequireFailed "Invalid payee") = ValidationError
     | Revert _ => False
     end.
Proof. vm_compute. repeat split; reflexivity. Qed.




End UsedIdentifiersExamples.
(** ** RecurringPayment: subscriptions and their schedule *)

Section Subscriptions.
Import RecurringPayment.

Lemma recurringPayments_at_write st pp s sub ur uv roles ev x :
  recurringPayments_at
    (mkStorage pp (<[s := sub]> (recurringPayments st)) ur uv roles ev) x
  = if decide (s = x) then sub else recurringPayments_at st x.
Proof.
  unfold recurringPayments_at; simpl. rewrite lookup_insert.
  destruct (decide (s = x)); reflexivity.
Qed.

Lemma recurringPayments_at_store_read st s sub e x :
  recurringPayments_at (store st s sub e) x
  = if decide (s = x) then sub else recurringPayments_at st x.
Proof. apply recurringPayments_at_write. Qed.

Lemma push_read (m : gmap Z (list Z)) a v x :
  default [] (push m a v !! x)
  = if decide (a = x) then default [] (m !! a) ++ [v] else default [] (m !! x).
Proof.
  unfold push. rewrite lookup_insert.
  destruct (decide (a = x)); reflexivity.
Qed.

Lemma createRecurringPayment_Ok env st _id p tok a f due ref st' :
  createRecurringPayment env st _id p tok a f due ref = Ok st' ->
  p <> 0 /\ tok <> 0 /\ 0 < a /\ 0 < f /\ block_timestamp env < due
  /\ id (recurringPayments_at st _id) = 0
  /\ st' = {| paymentProcessor := paymentProcessor st;
              recurringPayments :=
                <[_id := {| id := _id;
                            payer := msg_sender env;
                            payee := p;
                            tokenAddress := tok;
                            amount := a;
                            frequency := f;
                            nextPaymentDue := due;
                            isActive := true;
                            referenceId := ref |}]> (recurringPayments st);
              userRecurringPayments :=
                push (userRecurringPayments st) (msg_sender env) _id;
              userReceivedPayments := push (userReceivedPayments st) p _id;
              _roles := _roles st;
              events := events st
                        ++ [RecurringPaymentCreated _id (msg_sender env) p
                              tok a f due] |}.
Proof.
  unfold createRecurringPayment. intros H.
  step_ok H as u1 H1. req H1. apply negb_true_iff, Z.eqb_neq in H1.
  step_ok H as u2 H2. req H2. apply negb_true_iff, Z.eqb_neq in H2.
  step_ok H as u3 H3. req H3. apply Z.ltb_lt in H3.
  step_ok H as u4 H4. req H4. apply Z.ltb_lt in H4.
  step_ok H as u5 H5. req H5. apply Z.ltb_lt in H5.
  step_ok H as u6 H6. req H6. apply Z.eqb_eq in H6.
  inversion H; subst; clear H. auto 10.
Qed.

Lemma createRecurringPayment_run env st _id p tok a f due ref :
  p <> 0 -> tok <> 0 -> 0 < a -> 0 < f -> block_timestamp env < due ->
  id (recurringPayments_at st _id) = 0 ->
  is_ok (createRecurringPayment env st _id p tok a f due ref) = true.
Proof.
  intros H1 H2 H3 H4 H5 H6. unfold createRecurringPayment.
  rewrite !bind_require.
  apply Z.eqb_neq in H1, H2. apply Z.ltb_lt in H3, H4, H5.
  rewrite H1, H2, H3, H4, H5, H6. reflexivity.
Qed.

Lemma cancelRecurringPayment_effect env st _id st' :
  cancelRecurringPayment env st _id = Ok st' ->
  id (recurringPayments_at st _id) <> 0
  /\ st' = store st _id
             {| id := id (recurringPayments_at st _id);
                payer := payer (recurringPayments_at st _id);
                payee := payee (recurringPayments_at st _id);
                tokenAddress := tokenAddress (recurringPayments_at st _id);
                amount := amount (recurringPayments_at st _id);
                frequency := frequency (recurringPayments_at st _id);
                nextPaymentDue := nextPaymentDue (recurringPayments_at st _id);
                isActive := false;
                referenceId := referenceId (recurringPayments_at st _id) |}
             (RecurringPaymentCancelled _id).
Proof.
  unfold cancelRecurringPayment. intros H.
  step_ok H as u1 H1. req H1. apply negb_true_iff, Z.eqb_neq in H1.
  step_ok H as u2 H2. inversion H; subst; clear H. auto.
Qed.

Lemma updateRecurringPayment_effect env st _id a f st' :
  updateRecurringPayment env st _id a f = Ok st' ->
  id (recurringPayments_at st _id) <> 0
  /\ isActive (recurringPayments_at st _id) = true
  /\ 0 < a /\ 0 < f
  /\ st' = store st _id
             {| id := id (recurringPayments_at st _id);
                payer := payer (recurringPayments_at st _id);
                payee := payee (recurringPayments_at st _id);
                tokenAddress := tokenAddress (recurringPayments_at st _id);
                amount := a;
                frequency := f;
                nextPaymentDue := nextPaymentDue (recurringPayments_at st _id);
                isActive := isActive (recurringPayments_at st _id);
                referenceId := referenceId (recurringPayments_at st _id) |}
             (RecurringPaymentUpdated _id).
Proof.
  unfold updateRecurringPayment. intros H.
  step_ok H as u1 H1. req H1. apply negb_true_iff, Z.eqb_neq in H1.
  step_ok H as u2 H2. req H2.
  step_ok H as u3 H3.
  step_ok H as u4 H4. req H4. apply Z.ltb_lt in H4.
  step_ok H as u5 H5. req H5. apply Z.ltb_lt in H5.
  inversion H; subst; clear H. auto 10.
Qed.

Lemma setPaymentProcessor_Ok env st a st' :
  setPaymentProcessor env st a = Ok st' ->
  st' = {| paymentProcessor := a;
           recurringPayments := recurringPayments st;
           userRecurringPayments := userRecurringPayments st;
           userReceivedPayments := userReceivedPayments st;
           _roles := _roles st;
           events := events st |}.
Proof.
  unfold setPaymentProcessor. intros H. do 2 step_ok H.
  inversion H; subst; clear H. reflexivity.
Qed.

(** X23: createRecurringPayment goes through exactly when the payee and
    the token are not null, the amount and the frequency are positive, the
    first due date is strictly after the time of the block and no
    subscription carries the identifier; no role is needed.  After it, the
    identifier is appended to the caller's subscriptions and to the payee's
    incoming ones, and the subscription is not due yet; when the identifier
    is not zero, getRecurringPaymentDetails returns the subscription as
    given, active, with the caller as payer, and no later creation with the
    same identifier goes through. *)
Theorem createRecurringPayment_subscribes env st _id p tok a f due ref :
  (is_ok (createRecurringPayment env st _id p tok a f due ref) = true <->
   p <> 0 /\ tok <> 0 /\ 0 < a /\ 0 < f /\ block_timestamp env < due
   /\ id (recurringPayments_at st _id) = 0)
  /\ (forall st',
        createRecurringPayment env st _id p tok a f due ref = Ok st' ->
        getUserRecurringPayments st' (msg_sender env)
        = getUserRecurringPayments st (msg_sender env) ++ [_id]
        /\ getUserReceivedPayments st' p
           = getUserReceivedPayments st p ++ [_id]
        /\ isPaymentDue env st' _id = false
        /\ (_id <> 0 ->
            getRecurringPaymentDetails st' _id
            = Ok {| id := _id;
                    payer := msg_sender env;
                    payee := p;
                    tokenAddress := tok;
                    amount := a;
                    frequency := f;
                    nextPaymentDue := due;
                    isActive := true;
                    referenceId := ref |}
            /\ forall env2 p2 tok2 a2 f2 due2 ref2,
                 is_ok (createRecurringPayment env2 st' _id p2 tok2 a2 f2
                          due2 ref2) = false)).
Proof.
  split.
  - split.
    + destruct (createRecurringPayment env st _id p tok a f due ref)
        as [st' |] eqn:H; [| discriminate].
      intros _. apply createRecurringPayment_Ok in H. tauto.
    + intros (H1 & H2 & H3 & H4 & H5 & H6).
      apply createRecurringPayment_run; assumption.
  - intros st' H.
    apply createRecurringPayment_Ok in H as (_ & _ & _ & _ & Hdue & _ & ->).
    split; [| split; [| split]].
    + unfold getUserRecurringPayments; simpl. rewrite push_read.
      destruct (decide (msg_sender env = msg_sender env)); [| contradiction].
      reflexivity.
    + unfold getUserReceivedPayments; simpl. rewrite push_read.
      destruct (decide (p = p)); [| contradiction]. reflexivity.
    + unfold isPaymentDue. rewrite recurringPayments_at_write.
      destruct (decide (_id = _id)); [| contradiction]. simpl.
      destruct (_id =? 0); [reflexivity |]. simpl.
      apply Z.leb_gt. exact Hdue.
    + intros Hid. split.
      * unfold getRecurringPaymentDetails.
        rewrite recurringPayments_at_write.
        destruct (decide (_id = _id)); [| contradiction]. simpl.
        apply Z.eqb_neq in Hid. rewrite Hid. reflexivity.
      * intros env2 p2 tok2 a2 f2 due2 ref2.
        destruct (createRecurringPayment env2 _ _id p2 tok2 a2 f2 due2 ref2)
          as [st2 |] eqn:H2; [| reflexivity].
        apply createRecurringPayment_Ok in H2 as (_ & _ & _ & _ & _ & Hnew & _).
        rewrite recurringPayments_at_write in Hnew.
        destruct (decide (_id = _id)); [| contradiction].
        simpl in Hnew. contradiction.
Qed.

(** X24: createRecurringPayment accepts the identifier zero, but the
    subscription it stores cannot be used: its details, its cancellation,
    its update and its execution are all refused with "Payment does not
    exist", it is never due, and the identifier zero can be created
    again. *)
Theorem zero_identifier_subscription_is_unusable env st p tok a f due ref st' :
  createRecurringPayment env st 0 p tok a f due ref = Ok st' ->
  getRecurringPaymentDetails st' 0
  = Revert (RequireFailed "Payment does not exist")
  /\ (forall env2, isPaymentDue env2 st' 0 = false)
  /\ (forall env2,
        cancelRecurringPayment env2 st' 0
        = Revert (RequireFailed "Payment does not exist"))
  /\ (forall env2 a2 f2,
        updateRecurringPayment env2 st' 0 a2 f2
        = Revert (RequireFailed "Payment does not exist"))
  /\ (forall keccak256 recover env2 ch,
        executeRecurringPayment keccak256 recover env2 st' ch 0
        = Revert (RequireFailed "Payment does not exist"))
  /\ (forall env2 p2 tok2 a2 f2 due2 ref2,
        p2 <> 0 -> tok2 <> 0 -> 0 < a2 -> 0 < f2 ->
        block_timestamp env2 < due2 ->
        is_ok (createRecurringPayment env2 st' 0 p2 tok2 a2 f2 due2 ref2)
        = true).
Proof.
  intros H. apply createRecurringPayment_Ok in H as (_ & _ & _ & _ & _ & _ & ->).
  assert (Hread :
    id (recurringPayments_at
          {| paymentProcessor := paymentProcessor st;
             recurringPayments :=
               <[0 := {| id := 0; payer := msg_sender env; payee := p;
                         tokenAddress := tok; amount := a; frequency := f;
                         nextPaymentDue := due; isActive := true;
                         referenceId := ref |}]> (recurringPayments st);
             userRecurringPayments :=
               push (userRecurringPayments st) (msg_sender env) 0;
             userReceivedPayments := push (userReceivedPayments st) p 0;
             _roles := _roles st;
             events := events st
                       ++ [RecurringPaymentCreated 0 (msg_sender env) p tok a
                             f due] |} 0) = 0).
  { rewrite recurringPayments_at_write.
    destruct (decide (0 = 0)); [reflexivity | contradiction]. }
  split; [| split; [| split; [| split; [| split]]]].
  - unfold getRecurringPaymentDetails. rewrite Hread. reflexivity.
  - intros env2. unfold isPaymentDue. rewrite Hread. reflexivity.
  - intros env2. unfold cancelRecurringPayment. rewrite Hread. reflexivity.
  - intros env2 a2 f2. unfold updateRecurringPayment. rewrite Hread.
    reflexivity.
  - intros keccak256 recover env2 ch. unfold executeRecurringPayment.
    rewrite Hread. reflexivity.
  - intros env2 p2 tok2 a2 f2 due2 ref2 H1 H2 H3 H4 H5.
    apply createRecurringPayment_run; assumption.
Qed.

(** X25: isPaymentDue answers true exactly when the subscription exists,
    is active and its due date is not after the time of the block.  An
    execution that goes through implies that isPaymentDue is true at that
    time; when isPaymentDue is false the execution is refused, with
    "Payment does not exist", "Payment is not active" or "Payment not due
    yet". *)
Theorem isPaymentDue_guards_execution env st _id :
  (isPaymentDue env st _id = true <->
   id (recurringPayments_at st _id) <> 0
   /\ isActive (recurringPayments_at st _id) = true
   /\ nextPaymentDue (recurringPayments_at st _id) <= block_timestamp env)
  /\ (forall keccak256 recover ch,
        is_ok (executeRecurringPayment keccak256 recover env st ch _id) = true
        -> isPaymentDue env st _id = true)
  /\ (isPaymentDue env st _id = false ->
      forall keccak256 recover ch,
        exists reason,
          executeRecurringPayment keccak256 recover env st ch _id
          = Revert (RequireFailed reason)
          /\ (reason = "Payment does not exist"
              \/ reason = "Payment is not active"
              \/ reason = "Payment not due yet")).
Proof.
  assert (Hiff : isPaymentDue env st _id = true <->
            id (recurringPayments_at st _id) <> 0
            /\ isActive (recurringPayments_at st _id) = true
            /\ nextPaymentDue (recurringPayments_at st _id)
               <= block_timestamp env).
  { unfold isPaymentDue.
    destruct (Z.eqb_spec (id (recurringPayments_at st _id)) 0) as [H0 | H0];
      simpl.
    { split; [discriminate | intros [H _]; contradiction]. }
    destruct (isActive (recurringPayments_at st _id)); simpl.
    - rewrite Z.leb_le. tauto.
    - split; [discriminate | intros (_ & H & _); discriminate]. }
  split; [exact Hiff |]. split.
  - intros keccak256 recover ch Hok. apply Hiff.
    destruct (executeRecurringPayment keccak256 recover env st ch _id)
      as [[st' ch'] |] eqn:H; [| discriminate].
    apply executeRecurringPayment_Ok in H. tauto.
  - intros Hnot keccak256 recover ch. unfold executeRecurringPayment.
    rewrite !bind_require. unfold isPaymentDue in Hnot.
    destruct (id (recurringPayments_at st _id) =? 0); simpl in *;
      [eauto |].
    destruct (isActive (recurringPayments_at st _id)); simpl in *;
      [| eauto 6].
    rewrite Hnot. eauto 6.
Qed.

Lemma ERC20_approve_spec caller l tok spender v l' :
  ERC20.approve caller l tok spender v = Ok l' ->
  ERC20._balances l' = ERC20._balances l
  /\ ERC20.transfers l' = ERC20.transfers l.
Proof.
  unfold ERC20.approve, ERC20._approve.
  destruct (caller =? 0); [discriminate |].
  destruct (spender =? 0); [discriminate |].
  intros H. inversion H; subst. auto.
Qed.

Section Execution.
Variable keccak256 : list AbiValue -> bytes32.
Variable recover : bytes32 -> bytes -> option address.

(** Everything an execution that went through has checked and done. *)
Lemma executeRecurringPayment_effect env st ch _id st' ch' :
  executeRecurringPayment keccak256 recover env st ch _id = Ok (st', ch') ->
  let sub := recurringPayments_at st _id in
  let paymentId :=
    keccak256 [Bytes32 (id sub); Address (payer sub); Address (payee sub);
               Uint256 (nextPaymentDue sub); Uint256 (block_timestamp env)] in
  let referenceHash :=
    keccak256 [Str "RECURRING"; Bytes32 (id sub);
               Uint256 (nextPaymentDue sub)] in
  id sub <> 0 /\ isActive sub = true
  /\ nextPaymentDue sub <= block_timestamp env
  /\ paymentProcessor st = processorAddress ch
  /\ processorAddress ch' = processorAddress ch
  /\ st' = store st _id
             {| id := id sub;
                payer := payer sub;
                payee := payee sub;
                tokenAddress := tokenAddress sub;
                amount := amount sub;
                frequency := frequency sub;
                nextPaymentDue := nextPaymentDue sub + frequency sub;
                isActive := isActive sub;
                referenceId := referenceId sub |}
             (RecurringPaymentExecuted _id (payer sub) (payee sub)
                (amount sub) (nextPaymentDue sub + frequency sub))
  /\ exists led1,
       ERC20.approve (this env) (ledger ch) (tokenAddress sub)
         (paymentProcessor st) (amount sub) = Ok led1
       /\ PaymentProcessor.processPayment keccak256 recover
            (mkEnv (this env) (processorAddress ch) (block_timestamp env))
            (processor ch) led1 paymentId (payee sub) (tokenAddress sub)
            (amount sub) referenceHash []
          = Ok (processor ch', ledger ch').
Proof.
  unfold executeRecurringPayment. intros H.
  step_ok H as u1 Hid. req Hid. apply negb_true_iff, Z.eqb_neq in Hid.
  step_ok H as u2 Hactive. req Hactive.
  step_ok H as u3 Hdue. req Hdue. apply Z.leb_le in Hdue.
  step_ok H as nextDue Hnext. apply checked_Ok in Hnext as [-> _].
  step_ok H as led1 Happrove.
  step_ok H as r Hpay. destruct r as [pp1 led2].
  inversion H; subst; clear H. simpl in *.
  destruct (Z.eqb_spec (paymentProcessor st) (processorAddress ch))
    as [Hpp | Hpp]; [| discriminate Hpay].
  repeat split; try assumption.
  exists led1. split; assumption.
Qed.

(** X26: an execution that goes through is paid from the tokens the
    scheduler contract itself holds, not from the subscriber's: in the
    token of the subscription the scheduler's balance goes down by the
    amount, the payee receives the amount less the processor's fee and the
    fee collector the fee, and no other balance moves (the subscriber's
    only if it is one of these accounts); the transfers are made from the
    scheduler's address; the payment recorded by the processor, under the
    identifier derived from the subscription, its due date and the time of
    the block, names the scheduler as payer; and since the scheduler sends
    an empty signature, either it holds the processor's payment-manager
    role or the empty signature recovers to a payment manager. *)
Theorem executeRecurringPayment_is_funded_by_the_scheduler env st ch _id
    st' ch' :
  executeRecurringPayment keccak256 recover env st ch _id = Ok (st', ch') ->
  let sub := recurringPayments_at st _id in
  let fee :=
    feeOf (PaymentProcessor.platformFeePercentage (processor ch))
      (amount sub) in
  let paymentId :=
    keccak256 [Bytes32 (id sub); Address (payer sub); Address (payee sub);
               Uint256 (nextPaymentDue sub); Uint256 (block_timestamp env)] in
  let referenceHash :=
    keccak256 [Str "RECURRING"; Bytes32 (id sub);
               Uint256 (nextPaymentDue sub)] in
  (forall x,
     ERC20.balanceOf (ledger ch') (tokenAddress sub) x
     = ERC20.balanceOf (ledger ch) (tokenAddress sub) x
       - delta x (this env) (amount sub)
       + delta x (payee sub) (amount sub - fee)
       + delta x (PaymentProcessor.feeCollector (processor ch)) fee)
  /\ ERC20.transfers (ledger ch')
     = ERC20.transfers (ledger ch)
       ++ ERC20.mkTransfer (tokenAddress sub) (this env) (payee sub)
            (amount sub - fee)
          :: (if 0 <? fee
              then [ERC20.mkTransfer (tokenAddress sub) (this env)
                      (PaymentProcessor.feeCollector (processor ch)) fee]
              else [])
  /\ (paymentId <> 0 ->
      PaymentProcessor.verifyPayment (processor ch') paymentId
      = (true,
         {| PaymentProcessor.paymentId := paymentId;
            PaymentProcessor.payer := this env;
            PaymentProcessor.payee := payee sub;
            PaymentProcessor.tokenAddress := tokenAddress sub;
            PaymentProcessor.amount := amount sub;
            PaymentProcessor.feeAmount := fee;
            PaymentProcessor.timestamp := block_timestamp env;
            PaymentProcessor.referenceHash := referenceHash |}))
  /\ (hasRole (PaymentProcessor._roles (processor ch)) PAYMENT_MANAGER_ROLE
        (this env) = true
      \/ exists signer,
           recover
             (PaymentProcessor.ethSignedMessageHash keccak256 paymentId
                (payee sub) (tokenAddress sub) (amount sub) referenceHash) []
           = Some signer
           /\ hasRole (PaymentProcessor._roles (processor ch))
                PAYMENT_MANAGER_ROLE signer = true).
Proof.
  intros H sub fee paymentId referenceHash.
  apply executeRecurringPayment_effect in H
    as (_ & _ & _ & _ & _ & _ & led1 & Happrove & Hpay).
  fold sub paymentId referenceHash in Happrove, Hpay.
  apply ERC20_approve_spec in Happrove as [Hbal Htr].
  assert (Hauth :
    hasRole (PaymentProcessor._roles (processor ch)) PAYMENT_MANAGER_ROLE
      (this env) = true
    \/ exists signer,
         recover
           (PaymentProcessor.ethSignedMessageHash keccak256 paymentId
              (payee sub) (tokenAddress sub) (amount sub) referenceHash) []
         = Some signer
         /\ hasRole (PaymentProcessor._roles (processor ch))
              PAYMENT_MANAGER_ROLE signer = true).
  { pose proof Hpay as H. unfold PaymentProcessor.processPayment in H.
    do 5 step_ok H. step_ok H as u Hsig.
    unfold PaymentProcessor.verifySignature in Hsig. simpl in Hsig.
    destruct (hasRole (PaymentProcessor._roles (processor ch))
                PAYMENT_MANAGER_ROLE (this env)); [left; reflexivity |].
    right. simpl in Hsig.
    destruct (recover _ []) as [signer |]; [| discriminate Hsig].
    req Hsig. exists signer. split; [reflexivity | exact Hsig]. }
  apply processPayment_effect in Hpay
    as (_ & _ & _ & Hfree & _ & _ & _ & Hst & Htransfers & Hbalances).
  simpl in Hst, Htransfers, Hbalances.
  split; [| split; [| split]].
  - intros x. rewrite Hbalances. unfold ERC20.balanceOf. rewrite Hbal.
    reflexivity.
  - rewrite Htransfers, Htr. reflexivity.
  - intros Hid. rewrite Hst. unfold PaymentProcessor.verifyPayment.
    rewrite payments_at_emit, payments_at_set_payment_eq by reflexivity.
    simpl. apply Z.eqb_neq in Hid. rewrite Hid. reflexivity.
  - exact Hauth.
Qed.

Lemma mayManage_require env st _id u :
  require ((payer (recurringPayments_at st _id) =? msg_sender env)
           || hasRole (_roles st) PAYMENT_MANAGER_ROLE (msg_sender env))
    "Not authorized" = Ok u ->
  mayManage env st _id.
Proof.
  intros H. req H. apply orb_true_iff in H as [H | H].
  - left. apply Z.eqb_eq. exact H.
  - right. exact H.
Qed.

(** What each call that went through has checked and written. *)
Lemma scheduler_run_writes env st ch c st' ch' :
  run keccak256 recover env st ch c = Ok (st', ch') ->
  match c with
  | CreateRecurringPayment _id p tok a f due ref =>
      p <> 0 /\ tok <> 0 /\ 0 < a /\ 0 < f
      /\ id (recurringPayments_at st _id) = 0
      /\ st' = {| paymentProcessor := paymentProcessor st;
                  recurringPayments :=
                    <[_id := {| id := _id;
                                payer := msg_sender env;
                                payee := p;
                                tokenAddress := tok;
                                amount := a;
                                frequency := f;
                                nextPaymentDue := due;
                                isActive := true;
                                referenceId := ref |}]> (recurringPayments st);
                  userRecurringPayments :=
                    push (userRecurringPayments st) (msg_sender env) _id;
                  userReceivedPayments :=
                    push (userReceivedPayments st) p _id;
                  _roles := _roles st;
                  events := events st
                            ++ [RecurringPaymentCreated _id (msg_sender env) p
                                  tok a f due] |}
  | ExecuteRecurringPayment _id =>
      id (recurringPayments_at st _id) <> 0
      /\ isActive (recurringPayments_at st _id) = true
      /\ nextPaymentDue (recurringPayments_at st _id) <= block_timestamp env
      /\ st' = store st _id
                 {| id := id (recurringPayments_at st _id);
                    payer := payer (recurringPayments_at st _id);
                    payee := payee (recurringPayments_at st _id);
                    tokenAddress := tokenAddress (recurringPayments_at st _id);
                    amount := amount (recurringPayments_at st _id);
                    frequency := frequency (recurringPayments_at st _id);
                    nextPaymentDue :=
                      nextPaymentDue (recurringPayments_at st _id)
                      + frequency (recurringPayments_at st _id);
                    isActive := isActive (recurringPayments_at st _id);
                    referenceId := referenceId (recurringPayments_at st _id) |}
                 (RecurringPaymentExecuted _id
                    (payer (recurringPayments_at st _id))
                    (payee (recurringPayments_at st _id))
                    (amount (recurringPayments_at st _id))
                    (nextPaymentDue (recurringPayments_at st _id)
                     + frequency (recurringPayments_at st _id)))
  | CancelRecurringPayment _id =>
      id (recurringPayments_at st _id) <> 0
      /\ mayManage env st _id
      /\ st' = store st _id
                 {| id := id (recurringPayments_at st _id);
                    payer := payer (recurringPayments_at st _id);
                    payee := payee (recurringPayments_at st _id);
                    tokenAddress := tokenAddress (recurringPayments_at st _id);
                    amount := amount (recurringPayments_at st _id);
                    frequency := frequency (recurringPayments_at st _id);
                    nextPaymentDue :=
                      nextPaymentDue (recurringPayments_at st _id);
                    isActive := false;
                    referenceId := referenceId (recurringPayments_at st _id) |}
                 (RecurringPaymentCancelled _id)
  | UpdateRecurringPayment _id a f =>
      id (recurringPayments_at st _id) <> 0
      /\ isActive (recurringPayments_at st _id) = true
      /\ mayManage env st _id
      /\ 0 < a /\ 0 < f
      /\ st' = store st _id
                 {| id := id (recurringPayments_at st _id);
                    payer := payer (recurringPayments_at st _id);
                    payee := payee (recurringPayments_at st _id);
                    tokenAddress := tokenAddress (recurringPayments_at st _id);
                    amount := a;
                    frequency := f;
                    nextPaymentDue :=
                      nextPaymentDue (recurringPayments_at st _id);
                    isActive := isActive (recurringPayments_at st _id);
                    referenceId := referenceId (recurringPayments_at st _id) |}
                 (RecurringPaymentUpdated _id)
  | SetPaymentProcessor a =>
      a <> 0
      /\ hasRole (_roles st) ADMIN_ROLE (msg_sender env) = true
      /\ st' = {| paymentProcessor := a;
                  recurringPayments := recurringPayments st;
                  userRecurringPayments := userRecurringPayments st;
                  userReceivedPayments := userReceivedPayments st;
                  _roles := _roles st;
                  events := events st |}
  end.
Proof.
  destruct c as [_id p tok a f due ref | _id | _id | _id a f | a];
    simpl; intros H.
  - step_ok H as st1 H1. inversion H; subst; clear H.
    apply createRecurringPayment_Ok in H1. tauto.
  - apply executeRecurringPayment_effect in H. simpl in H. tauto.
  - step_ok H as st1 H1. inversion H; subst; clear H.
    pose proof (cancelRecurringPayment_effect _ _ _ _ H1) as [Hid Hst].
    split; [exact Hid |]. split; [| exact Hst].
    unfold cancelRecurringPayment in H1. step_ok H1.
    step_ok H1 as uauth Hauth. eapply mayManage_require, Hauth.
  - step_ok H as st1 H1. inversion H; subst; clear H.
    pose proof (updateRecurringPayment_effect _ _ _ _ _ _ H1)
      as (Hid & Hact & Ha & Hf & Hst).
    repeat (split; [assumption |]). split; [| auto].
    unfold updateRecurringPayment in H1. do 2 step_ok H1.
    step_ok H1 as uauth Hauth. eapply mayManage_require, Hauth.
  - step_ok H as st1 H1. inversion H; subst; clear H.
    pose proof (setPaymentProcessor_Ok _ _ _ _ H1) as Hst.
    unfold setPaymentProcessor in H1.
    step_ok H1 as u1 Hrole. apply onlyRole_Ok in Hrole.
    step_ok H1 as u2 Hnz. req Hnz. apply negb_true_iff, Z.eqb_neq in Hnz.
    auto.
Qed.

(** X27: no call of the scheduler changes the identifier, the payer, the
    payee, the token or the reference of an existing subscription.  Its
    amount or frequency changes only through an updateRecurringPayment of
    that subscription, active at the time, by its payer or a payment
    manager; its active flag changes only through a cancelRecurringPayment
    by its payer or a payment manager, and then to false.  The lists of a
    user's subscriptions and of a user's incoming subscriptions only grow
    at the end. *)
Theorem subscription_is_permanent env st ch c st' ch' x :
  run keccak256 recover env st ch c = Ok (st', ch') ->
  id (recurringPayments_at st x) <> 0 ->
  id (recurringPayments_at st' x) = id (recurringPayments_at st x)
  /\ payer (recurringPayments_at st' x) = payer (recurringPayments_at st x)
  /\ payee (recurringPayments_at st' x) = payee (recurringPayments_at st x)
  /\ tokenAddress (recurringPayments_at st' x)
     = tokenAddress (recurringPayments_at st x)
  /\ referenceId (recurringPayments_at st' x)
     = referenceId (recurringPayments_at st x)
  /\ (amount (recurringPayments_at st' x) <> amount (recurringPayments_at st x)
      \/ frequency (recurringPayments_at st' x)
         <> frequency (recurringPayments_at st x) ->
      c = UpdateRecurringPayment x (amount (recurringPayments_at st' x))
            (frequency (recurringPayments_at st' x))
      /\ mayManage env st x
      /\ isActive (recurringPayments_at st x) = true)
  /\ (isActive (recurringPayments_at st' x)
      <> isActive (recurringPayments_at st x) ->
      c = CancelRecurringPayment x
      /\ mayManage env st x
      /\ isActive (recurringPayments_at st' x) = false)
  /\ (forall u,
        getUserRecurringPayments st u
          `prefix_of` getUserRecurringPayments st' u
        /\ getUserReceivedPayments st u
             `prefix_of` getUserReceivedPayments st' u).
Proof.
  intros H Hx. apply scheduler_run_writes in H.
  destruct c as [_id p tok a f due ref | _id | _id | _id a f | a].
  - destruct H as (_ & _ & _ & _ & Hfree & ->).
    rewrite recurringPayments_at_write.
    destruct (decide (_id = x)) as [-> | Hne]; [contradiction |].
    do 7 (split; [first [reflexivity | intros [? | ?]; contradiction
                          | intros ?; contradiction] |]).
    intros u. unfold getUserRecurringPayments, getUserReceivedPayments; simpl.
    rewrite !push_read.
    split.
    + destruct (decide (msg_sender env = u)) as [-> | _];
        [apply prefix_app_r |]; reflexivity.
    + destruct (decide (p = u)) as [-> | _];
        [apply prefix_app_r |]; reflexivity.
  - destruct H as (_ & _ & _ & ->).
    rewrite recurringPayments_at_store_read.
    destruct (decide (_id = x)) as [-> | Hne]; simpl;
      do 7 (split; [first [reflexivity | intros [? | ?]; contradiction
                            | intros ?; contradiction] |]);
      intros u; split; reflexivity.
  - destruct H as (_ & Hauth & ->).
    rewrite recurringPayments_at_store_read.
    destruct (decide (_id = x)) as [-> | Hne]; simpl.
    + do 6 (split; [first [reflexivity | intros [? | ?]; contradiction] |]).
      split; [intros _; auto |].
      intros u; split; reflexivity.
    + do 7 (split; [first [reflexivity | intros [? | ?]; contradiction
                            | intros ?; contradiction] |]).
      intros u; split; reflexivity.
  - destruct H as (_ & Hact & Hauth & _ & _ & ->).
    rewrite recurringPayments_at_store_read.
    destruct (decide (_id = x)) as [-> | Hne]; simpl.
    + do 5 (split; [reflexivity |]).
      split; [intros _; auto |].
      split; [intros ?; contradiction |].
      intros u; split; reflexivity.
    + do 7 (split; [first [reflexivity | intros [? | ?]; contradiction
                            | intros ?; contradiction] |]).
      intros u; split; reflexivity.
  - destruct H as (_ & _ & ->).
    change (recurringPayments_at _ x) with (recurringPayments_at st x).
    do 7 (split; [first [reflexivity | intros [? | ?]; contradiction
                          | intros ?; contradiction] |]).
    intros u; split; reflexivity.
Qed.

(** No call reactivates a subscription. *)
Lemma run_keeps_inactive env st ch c st' ch' x :
  run keccak256 recover env st ch c = Ok (st', ch') ->
  id (recurringPayments_at st x) <> 0 ->
  isActive (recurringPayments_at st x) = false ->
  id (recurringPayments_at st' x) <> 0
  /\ isActive (recurringPayments_at st' x) = false.
Proof.
  intros H Hid Hoff. apply scheduler_run_writes in H.
  destruct c as [_id p tok a f due ref | _id | _id | _id a f | a].
  - destruct H as (_ & _ & _ & _ & Hfree & ->).
    rewrite recurringPayments_at_write.
    destruct (decide (_id = x)) as [-> | Hne]; [contradiction | auto].
  - destruct H as (_ & Hact & _ & ->).
    rewrite recurringPayments_at_store_read.
    destruct (decide (_id = x)) as [-> | Hne]; [congruence | auto].
  - destruct H as (_ & _ & ->).
    rewrite recurringPayments_at_store_read.
    destruct (decide (_id = x)) as [-> | Hne]; simpl; auto.
  - destruct H as (_ & Hact & _ & _ & _ & ->).
    rewrite recurringPayments_at_store_read.
    destruct (decide (_id = x)) as [-> | Hne]; [congruence | auto].
  - destruct H as (_ & _ & ->). auto.
Qed.

Lemma replay_keeps_inactive x :
  forall txs st ch,
    id (recurringPayments_at st x) <> 0 ->
    isActive (recurringPayments_at st x) = false ->
    id (recurringPayments_at
          (fst (replay
                  (fun env s c => run keccak256 recover env (fst s) (snd s) c)
                  (st, ch) txs)) x) <> 0
    /\ isActive
         (recurringPayments_at
            (fst (replay
                    (fun env s c =>
                       run keccak256 recover env (fst s) (snd s) c)
                    (st, ch) txs)) x) = false.
Proof.
  induction txs as [| [env c] txs IH]; intros st ch Hid Hoff; [auto |].
  simpl.
  destruct (run keccak256 recover env st ch c) as [[st1 ch1] |] eqn:Hrun;
    simpl.
  - destruct (run_keeps_inactive _ _ _ _ _ _ _ Hrun Hid Hoff) as [H1 H2].
    apply IH; assumption.
  - apply IH; assumption.
Qed.

(** X28: a cancellation is final: after cancelRecurringPayment went
    through, and after any sequence of later calls of the scheduler, the
    subscription is still inactive, is never due, and its execution and its
    update are refused with "Payment is not active". *)
Theorem cancelled_subscription_is_dead env st _id st' :
  cancelRecurringPayment env st _id = Ok st' ->
  forall txs ch,
    let later :=
      fst (replay
             (fun env s c => run keccak256 recover env (fst s) (snd s) c)
             (st', ch) txs) in
    isActive (recurringPayments_at later _id) = false
    /\ (forall env2, isPaymentDue env2 later _id = false)
    /\ (forall env2 ch2,
          executeRecurringPayment keccak256 recover env2 later ch2 _id
          = Revert (RequireFailed "Payment is not active"))
    /\ (forall env2 a f,
          updateRecurringPayment env2 later _id a f
          = Revert (RequireFailed "Payment is not active")).
Proof.
  intros H txs ch later.
  apply cancelRecurringPayment_effect in H as [Hid ->].
  destruct (replay_keeps_inactive _id txs
              (store st _id
                 {| id := id (recurringPayments_at st _id);
                    payer := payer (recurringPayments_at st _id);
                    payee := payee (recurringPayments_at st _id);
                    tokenAddress := tokenAddress (recurringPayments_at st _id);
                    amount := amount (recurringPayments_at st _id);
                    frequency := frequency (recurringPayments_at st _id);
                    nextPaymentDue :=
                      nextPaymentDue (recurringPayments_at st _id);
                    isActive := false;
                    referenceId := referenceId (recurringPayments_at st _id) |}
                 (RecurringPaymentCancelled _id)) ch) as [Hid' Hoff].
  { rewrite recurringPayments_at_store. exact Hid. }
  { rewrite recurringPayments_at_store. reflexivity. }
  fold later in Hid', Hoff. apply Z.eqb_neq in Hid'.
  split; [exact Hoff |]. split; [| split].
  - intros env2. unfold isPaymentDue. rewrite Hid', Hoff. reflexivity.
  - intros env2 ch2. unfold executeRecurringPayment.
    rewrite !bind_require, Hid', Hoff. reflexivity.
  - intros env2 a f. unfold updateRecurringPayment.
    rewrite !bind_require, Hid', Hoff. reflexivity.
Qed.

Lemma validSubscription_same st st' x :
  recurringPayments_at st' x = recurringPayments_at st x ->
  (forall u, getUserRecurringPayments st' u = getUserRecurringPayments st u) ->
  (forall u, getUserReceivedPayments st' u = getUserReceivedPayments st u) ->
  validSubscription st x -> validSubscription st' x.
Proof.
  unfold validSubscription. intros -> H1 H2 H.
  destruct H as [[Hz Hl] | H]; [left | right].
  - split; [exact Hz |]. intros u. rewrite H1, H2. apply Hl.
  - destruct H as (Q1 & Q2 & Q3 & Q4 & Q5 & Q6 & Q7).
    repeat (split; [assumption |]).
    split; intros u; [rewrite H1; apply Q6 | rewrite H2; apply Q7].
Qed.

(** A write through the storage pointer of an existing subscription keeps
    it valid when the identifier, the parties and the token are kept and
    the amount and the frequency stay positive. *)
Lemma validSubscription_store st _id sub e x :
  id (recurringPayments_at st _id) <> 0 ->
  id sub = id (recurringPayments_at st _id) ->
  payer sub = payer (recurringPayments_at st _id) ->
  payee sub = payee (recurringPayments_at st _id) ->
  tokenAddress sub = tokenAddress (recurringPayments_at st _id) ->
  (0 < amount (recurringPayments_at st _id) -> 0 < amount sub) ->
  (0 < frequency (recurringPayments_at st _id) -> 0 < frequency sub) ->
  validSubscription st x -> validSubscription (store st _id sub e) x.
Proof.
  intros Hid E1 E2 E3 E4 E5 E6 H.
  destruct (decide (_id = x)) as [-> | Hne].
  - unfold validSubscription in *. rewrite recurringPayments_at_store.
    destruct H as [[Hz _] | H]; [rewrite Hz in Hid; contradiction |].
    destruct H as (Q1 & Q2 & Q3 & Q4 & Q5 & Q6 & Q7).
    right. rewrite E1, E2, E3, E4.
    do 5 (split; [solve [auto] |]). split; [exact Q6 | exact Q7].
  - apply (validSubscription_same st); [| reflexivity | reflexivity | exact H].
    rewrite recurringPayments_at_store_read.
    destruct (decide (_id = x)); [contradiction | reflexivity].
Qed.

Lemma scheduler_invariant_step env st ch c st' ch' :
  run keccak256 recover env st ch c = Ok (st', ch') ->
  paymentProcessor st <> 0 ->
  id (recurringPayments_at st 0) = 0 ->
  (forall x, x <> 0 -> validSubscription st x) ->
  paymentProcessor st' <> 0
  /\ id (recurringPayments_at st' 0) = 0
  /\ (forall x, x <> 0 -> validSubscription st' x).
Proof.
  intros H Hpp Hzero Hall. apply scheduler_run_writes in H.
  destruct c as [_id p tok a f due ref | _id | _id | _id a f | a].
  - destruct H as (Hp & Htok & Ha & Hf & Hfree & ->).
    split; [exact Hpp |]. split.
    + rewrite recurringPayments_at_write.
      destruct (decide (_id = 0)) as [-> | _]; [reflexivity | exact Hzero].
    + intros x Hx. specialize (Hall x Hx). unfold validSubscription in *.
      rewrite recurringPayments_at_write.
      unfold getUserRecurringPayments, getUserReceivedPayments in *.
      simpl.
      destruct (decide (_id = x)) as [-> | Hne].
      * destruct Hall as [[_ Hl] | (Q1 & _)]; [| congruence].
        right. simpl. repeat (split; [assumption || reflexivity |]).
        split; intros u; rewrite push_read.
        -- destruct (decide (msg_sender env = u)) as [-> | Hu].
           ++ rewrite elem_of_app, list_elem_of_singleton. tauto.
           ++ split; [intros Hin; destruct (proj1 (Hl u) Hin) | congruence].
        -- destruct (decide (p = u)) as [-> | Hu].
           ++ rewrite elem_of_app, list_elem_of_singleton. tauto.
           ++ split; [intros Hin; destruct (proj2 (Hl u) Hin) | congruence].
      * assert (Hlist : forall (m : gmap Z (list Z)) who u,
                  x ∈ default [] (push m who _id !! u)
                  <-> x ∈ default [] (m !! u)).
        { intros m who u. rewrite push_read.
          destruct (decide (who = u)) as [-> | _]; [| reflexivity].
          rewrite elem_of_app, list_elem_of_singleton.
          split; [intros [Hin | Heq]; [exact Hin | congruence] | auto]. }
        destruct Hall as [[Hz Hl] | (Q1 & Q2 & Q3 & Q4 & Q5 & Q6 & Q7)];
          [left | right].
        -- split; [exact Hz |]. intros u. rewrite !Hlist. apply Hl.
        -- repeat (split; [assumption |]).
           split; intros u; rewrite Hlist; [apply Q6 | apply Q7].
  - destruct H as (Hid & _ & _ & ->).
    split; [exact Hpp |]. split.
    + rewrite recurringPayments_at_store_read.
      destruct (decide (_id = 0)) as [-> | _]; [contradiction | exact Hzero].
    + intros x Hx. apply validSubscription_store; auto.
  - destruct H as (Hid & _ & ->).
    split; [exact Hpp |]. split.
    + rewrite recurringPayments_at_store_read.
      destruct (decide (_id = 0)) as [-> | _]; [contradiction | exact Hzero].
    + intros x Hx. apply validSubscription_store; auto.
  - destruct H as (Hid & _ & _ & Ha & Hf & ->).
    split; [exact Hpp |]. split.
    + rewrite recurringPayments_at_store_read.
      destruct (decide (_id = 0)) as [-> | _]; [contradiction | exact Hzero].
    + intros x Hx. apply validSubscription_store; auto.
  - destruct H as (Ha & _ & ->).
    split; [exact Ha |]. split; [exact Hzero |].
    intros x Hx.
    apply (validSubscription_same st); [reflexivity .. | apply Hall, Hx].
Qed.

Lemma scheduler_reachable_invariant st :
  reachable keccak256 recover st ->
  paymentProcessor st <> 0
  /\ id (recurringPayments_at st 0) = 0
  /\ (forall x, x <> 0 -> validSubscription st x).
Proof.
  induction 1 as [env pp st Hc | env st ch c st' ch' _ IH Hrun].
  - unfold constructor in Hc. step_ok Hc as u0 Hnz. req Hnz.
    apply negb_true_iff, Z.eqb_neq in Hnz.
    inversion Hc; subst; clear Hc. simpl.
    split; [exact Hnz |]. split; [reflexivity |].
    intros x _. left. split; [reflexivity |].
    intros u. unfold getUserRecurringPayments, getUserReceivedPayments.
    simpl. rewrite !lookup_empty. simpl. split; apply not_elem_of_nil.
  - destruct IH as (I1 & I2 & I3).
    eapply scheduler_invariant_step; eassumption.
Qed.

(** X29: in every storage reached from the constructor by calls of the
    functions of the scheduler ([RecurringPayment.run]), the payment
    processor is not null; an existing subscription has a nonzero
    identifier, is stored under it, has a payee, a token, a positive amount
    and a positive frequency, and is listed for its payer and for its payee
    and for no other user; and every nonzero identifier found in a user's
    list has details that getRecurringPaymentDetails returns. *)
Theorem scheduler_storage_invariant st :
  reachable keccak256 recover st ->
  paymentProcessor st <> 0
  /\ (forall x,
        id (recurringPayments_at st x) <> 0 ->
        x <> 0
        /\ id (recurringPayments_at st x) = x
        /\ payee (recurringPayments_at st x) <> 0
        /\ tokenAddress (recurringPayments_at st x) <> 0
        /\ 0 < amount (recurringPayments_at st x)
        /\ 0 < frequency (recurringPayments_at st x)
        /\ (forall u, x ∈ getUserRecurringPayments st u
                      <-> u = payer (recurringPayments_at st x))
        /\ (forall u, x ∈ getUserReceivedPayments st u
                      <-> u = payee (recurringPayments_at st x)))
  /\ (forall x u,
        x <> 0 ->
        x ∈ getUserRecurringPayments st u
        \/ x ∈ getUserReceivedPayments st u ->
        getRecurringPaymentDetails st x = Ok (recurringPayments_at st x)).
Proof.
  intros H. apply scheduler_reachable_invariant in H as (I1 & I2 & I3).
  split; [exact I1 |]. split.
  - intros x Hid.
    assert (Hx : x <> 0) by (intros ->; contradiction).
    split; [exact Hx |].
    destruct (I3 x Hx) as [[Hz _] | Hvalid]; [| exact Hvalid].
    rewrite Hz in Hid. contradiction.
  - intros x u Hx Hin.
    destruct (I3 x Hx) as [[_ Hl] | (Q1 & _)].
    + destruct Hin as [Hin | Hin]; [destruct (proj1 (Hl u) Hin)
                                   | destruct (proj2 (Hl u) Hin)].
    + unfold getRecurringPaymentDetails. rewrite Q1.
      apply Z.eqb_neq in Hx. rewrite Hx. reflexivity.
Qed.

(** X30: on a reachable storage, no call of the scheduler moves the due
    date of an existing subscription backwards, and the due date changes
    only through an execution of that subscription, which was active and
    due at the time of the call, and then to the previous due date plus the
    frequency. *)
Theorem schedule_only_moves_forward env st ch c st' ch' x :
  reachable keccak256 recover st ->
  run keccak256 recover env st ch c = Ok (st', ch') ->
  id (recurringPayments_at st x) <> 0 ->
  nextPaymentDue (recurringPayments_at st x)
  <= nextPaymentDue (recurringPayments_at st' x)
  /\ (nextPaymentDue (recurringPayments_at st' x)
      <> nextPaymentDue (recurringPayments_at st x) ->
      c = ExecuteRecurringPayment x
      /\ isActive (recurringPayments_at st x) = true
      /\ nextPaymentDue (recurringPayments_at st x) <= block_timestamp env
      /\ nextPaymentDue (recurringPayments_at st' x)
         = nextPaymentDue (recurringPayments_at st x)
           + frequency (recurringPayments_at st x)).
Proof.
  intros Hreach H Hid.
  apply scheduler_reachable_invariant in Hreach as (_ & I2 & I3).
  assert (Hx : x <> 0) by (intros ->; contradiction).
  assert (Hf : 0 < frequency (recurringPayments_at st x)).
  { destruct (I3 x Hx) as [[Hz _] | (_ & _ & _ & _ & Q & _)]; [| exact Q].
    rewrite Hz in Hid. contradiction. }
  apply scheduler_run_writes in H.
  destruct c as [_id p tok a f due ref | _id | _id | _id a f | a].
  - destruct H as (_ & _ & _ & _ & Hfree & ->).
    rewrite recurringPayments_at_write.
    destruct (decide (_id = x)) as [-> | Hne]; [contradiction |].
    split; [lia | intros ?; contradiction].
  - destruct H as (_ & Hact & Hdue & ->).
    rewrite recurringPayments_at_store_read.
    destruct (decide (_id = x)) as [-> | Hne]; simpl.
    + split; [lia | auto].
    + split; [lia | intros ?; contradiction].
  - destruct H as (_ & _ & ->).
    rewrite recurringPayments_at_store_read.
    destruct (decide (_id = x)) as [-> | Hne]; simpl;
      (split; [lia | intros ?; contradiction]).
  - destruct H as (_ & _ & _ & _ & _ & ->).
    rewrite recurringPayments_at_store_read.
    destruct (decide (_id = x)) as [-> | Hne]; simpl;
      (split; [lia | intros ?; contradiction]).
  - destruct H as (_ & _ & ->).
    change (recurringPayments_at _ x) with (recurringPayments_at st x).
    split; [lia | intros ?; contradiction].
Qed.

End Execution.

End Subscriptions.

(** *** The subscriptions of the example deployment *)

Lemma RecurringPayment_reachable_replay keccak256 recover txs :
  forall st ch,
    RecurringPayment.reachable keccak256 recover st ->
    RecurringPayment.reachable keccak256 recover
      (fst (replay
              (fun env s c =>
                 RecurringPayment.run keccak256 recover env (fst s) (snd s) c)
              (st, ch) txs)).
Proof.
  induction txs as [| [env c] txs IH]; intros st ch Hst; [exact Hst |].
  simpl.
  destruct (RecurringPayment.run keccak256 recover env st ch c)
    as [[st' ch'] |] eqn:Hrun; simpl.
  - apply IH. eapply RecurringPayment.reachable_call; eassumption.
  - apply IH. exact Hst.
Qed.

Lemma scheduler0_run :
  RecurringPayment.createRecurringPayment
    (Deployment.asScheduler Deployment.payer 1000) Deployment.schedulerEmpty
    9 Deployment.payee Deployment.USDC 100000000 86400 5000 33
  = Ok Deployment.scheduler0.
Proof. vm_compute. reflexivity. Qed.

Lemma scheduler0_reachable :
  RecurringPayment.reachable Deployment.keccak256 Deployment.recover
    Deployment.scheduler0.
Proof.
  assert (Hcons :
    RecurringPayment.constructor (Deployment.asAdmin 70 500) 50
    = Ok Deployment.schedulerEmpty) by (vm_compute; reflexivity).
  assert (Hreplay :
    Deployment.scheduler0
    = fst (replay
             (fun env s c =>
                RecurringPayment.run Deployment.keccak256 Deployment.recover
                  env (fst s) (snd s) c)
             (Deployment.schedulerEmpty, Deployment.chain0)
             [(Deployment.asScheduler Deployment.payer 1000,
               RecurringPayment.CreateRecurringPayment 9 4 100 100000000
                 86400 5000 33)]))
    by (vm_compute; reflexivity).
  rewrite Hreplay. apply RecurringPayment_reachable_replay.
  eapply RecurringPayment.reachable_constructor. exact Hcons.
Qed.

Lemma createRecurringPayment_subscribes_witness :
  RecurringPayment.getUserRecurringPayments Deployment.scheduler0 3 = [9]
  /\ RecurringPayment.getUserReceivedPayments Deployment.scheduler0 4 = [9]
  /\ RecurringPayment.getRecurringPaymentDetails Deployment.scheduler0 9
     = Ok (RecurringPayment.mkSubscription 9 3 4 100 100000000 86400 5000
             true 33)
  /\ is_ok (RecurringPayment.createRecurringPayment
              (Deployment.asScheduler Deployment.admin 2000)
              Deployment.scheduler0 9 6 100 1 1 9000 0) = false.
Proof.
  destruct (proj2 (createRecurringPayment_subscribes
                     (Deployment.asScheduler Deployment.payer 1000)
                     Deployment.schedulerEmpty 9 Deployment.payee
                     Deployment.USDC 100000000 86400 5000 33)
              Deployment.scheduler0 scheduler0_run)
    as (Hmine & Hreceived & _ & Hrest).
  destruct (Hrest ltac:(discriminate)) as [Hdetails Hagain].
  split; [exact Hmine |]. split; [exact Hreceived |].
  split; [exact Hdetails |]. apply Hagain.
Defined.

Lemma zero_identifier_subscription_is_unusable_witness :
  exists st',
    RecurringPayment.createRecurringPayment
      (Deployment.asScheduler Deployment.payer 1000)
      Deployment.schedulerEmpty 0 Deployment.payee Deployment.USDC
      100000000 86400 5000 33 = Ok st'
    /\ RecurringPayment.getUserRecurringPayments st' 3 = [0]
    /\ RecurringPayment.getRecurringPaymentDetails st' 0
       = Revert (RequireFailed "Payment does not exist")
    /\ RecurringPayment.cancelRecurringPayment
         (Deployment.asScheduler Deployment.payer 2000) st' 0
       = Revert (RequireFailed "Payment does not exist").
Proof.
  destruct (RecurringPayment.createRecurringPayment
              (Deployment.asScheduler Deployment.payer 1000)
              Deployment.schedulerEmpty 0 Deployment.payee Deployment.USDC
              100000000 86400 5000 33)
    as [st' | e] eqn:Hrun; [| vm_compute in Hrun; discriminate Hrun].
  exists st'. split; [reflexivity |].
  destruct (zero_identifier_subscription_is_unusable _ _ _ _ _ _ _ _ _ Hrun)
    as (Hdetails & _ & Hcancel & _).
  split; [| split; [exact Hdetails | apply Hcancel]].
  assert (Hlist :
    (let* s := RecurringPayment.createRecurringPayment
                 (Deployment.asScheduler Deployment.payer 1000)
                 Deployment.schedulerEmpty 0 Deployment.payee Deployment.USDC
                 100000000 86400 5000 33 in
     Ok (RecurringPayment.getUserRecurringPayments s 3)) = Ok [0])
    by (vm_compute; reflexivity).
  rewrite Hrun in Hlist. simpl in Hlist. congruence.
Defined.

Lemma isPaymentDue_guards_execution_witness :
  RecurringPayment.isPaymentDue (Deployment.asScheduler Deployment.admin 5000)
    Deployment.scheduler0 9 = true
  /\ exists reason,
       RecurringPayment.executeRecurringPayment Deployment.keccak256
         Deployment.recover (Deployment.asScheduler Deployment.admin 4999)
         Deployment.scheduler0 Deployment.chain0 9
       = Revert (RequireFailed reason)
       /\ (reason = "Payment does not exist"
           \/ reason = "Payment is not active"
           \/ reason = "Payment not due yet").
Proof.
  split.
  - apply (proj2 (proj1 (isPaymentDue_guards_execution
                           (Deployment.asScheduler Deployment.admin 5000)
                           Deployment.scheduler0 9))).
    vm_compute. split; [discriminate |]. split; [reflexivity | discriminate].
  - apply (proj2 (proj2 (isPaymentDue_guards_execution
                           (Deployment.asScheduler Deployment.admin 4999)
                           Deployment.scheduler0 9))).
    vm_compute. reflexivity.
Defined.

Lemma executeRecurringPayment_is_funded_by_the_scheduler_witness :
  exists st' ch',
    RecurringPayment.executeRecurringPayment Deployment.keccak256
      Deployment.recover (Deployment.asScheduler Deployment.admin 999999)
      Deployment.scheduler0 Deployment.chain0 9 = Ok (st', ch')
    /\ ERC20.balanceOf (RecurringPayment.ledger ch') 100 4
       = ERC20.balanceOf Deployment.ledger0 100 4 + 97500000
    /\ ERC20.balanceOf (RecurringPayment.ledger ch') 100 3
       = ERC20.balanceOf Deployment.ledger0 100 3
    /\ ERC20.balanceOf (RecurringPayment.ledger ch') 100 70
       = ERC20.balanceOf Deployment.ledger0 100 70 - 100000000.
Proof.
  destruct (RecurringPayment.executeRecurringPayment Deployment.keccak256
              Deployment.recover
              (Deployment.asScheduler Deployment.admin 999999)
              Deployment.scheduler0 Deployment.chain0 9)
    as [[st' ch'] | e] eqn:Hrun; [| vm_compute in Hrun; discriminate Hrun].
  exists st', ch'. split; [reflexivity |].
  destruct (executeRecurringPayment_is_funded_by_the_scheduler _ _ _ _ _ _ _ _
              Hrun) as (Hbal & _).
  split; [| split]; (etransitivity; [apply Hbal |]); vm_compute; reflexivity.
Defined.

Lemma subscription_is_permanent_witness :
  exists st' ch',
    RecurringPayment.run Deployment.keccak256 Deployment.recover
      (Deployment.asScheduler Deployment.payer 2000) Deployment.scheduler0
      Deployment.chain0 (RecurringPayment.UpdateRecurringPayment 9 5 60)
    = Ok (st', ch')
    /\ RecurringPayment.payer (RecurringPayment.recurringPayments_at st' 9) = 3
    /\ RecurringPayment.payee (RecurringPayment.recurringPayments_at st' 9) = 4
    /\ RecurringPayment.getUserRecurringPayments Deployment.scheduler0 3
         `prefix_of` RecurringPayment.getUserRecurringPayments st' 3.
Proof.
  destruct (RecurringPayment.run Deployment.keccak256 Deployment.recover
              (Deployment.asScheduler Deployment.payer 2000)
              Deployment.scheduler0 Deployment.chain0
              (RecurringPayment.UpdateRecurringPayment 9 5 60))
    as [[st' ch'] | e] eqn:Hrun; [| vm_compute in Hrun; discriminate Hrun].
  exists st', ch'. split; [reflexivity |].
  destruct (subscription_is_permanent _ _ _ _ _ _ _ _ 9 Hrun
              ltac:(vm_compute; discriminate))
    as (_ & Hpayer & Hpayee & _ & _ & _ & _ & Hlists).
  split; [etransitivity; [exact Hpayer | vm_compute; reflexivity] |].
  split; [etransitivity; [exact Hpayee | vm_compute; reflexivity] |].
  apply Hlists.
Defined.

Lemma cancelled_subscription_is_dead_witness :
  exists st',
    RecurringPayment.cancelRecurringPayment
      (Deployment.asScheduler Deployment.payer 2000) Deployment.scheduler0 9
    = Ok st'
    /\ RecurringPayment.executeRecurringPayment Deployment.keccak256
         Deployment.recover (Deployment.asScheduler Deployment.admin 999999)
         (fst (replay
                 (fun env s c =>
                    RecurringPayment.run Deployment.keccak256
                      Deployment.recover env (fst s) (snd s) c)
                 (st', Deployment.chain0)
                 [(Deployment.asScheduler Deployment.payer 3000,
                   RecurringPayment.UpdateRecurringPayment 9 5 60);
                  (Deployment.asScheduler Deployment.payer 3000,
                   RecurringPayment.CancelRecurringPayment 9);
                  (Deployment.asScheduler Deployment.admin 4000,
                   RecurringPayment.CreateRecurringPayment 10 4 100 7 60
                     5000 0)]))
         Deployment.chain0 9
       = Revert (RequireFailed "Payment is not active").
Proof.
  destruct (RecurringPayment.cancelRecurringPayment
              (Deployment.asScheduler Deployment.payer 2000)
              Deployment.scheduler0 9)
    as [st' | e] eqn:Hrun; [| vm_compute in Hrun; discriminate Hrun].
  exists st'. split; [reflexivity |].
  apply (cancelled_subscription_is_dead Deployment.keccak256
           Deployment.recover _ _ _ _ Hrun).
Defined.

Lemma scheduler_storage_invariant_witness :
  RecurringPayment.paymentProcessor Deployment.scheduler0 <> 0
  /\ RecurringPayment.payee
       (RecurringPayment.recurringPayments_at Deployment.scheduler0 9) <> 0
  /\ 0 < RecurringPayment.frequency
           (RecurringPayment.recurringPayments_at Deployment.scheduler0 9)
  /\ 9 ∈ RecurringPayment.getUserRecurringPayments Deployment.scheduler0 3.
Proof.
  destruct (scheduler_storage_invariant _ _ _ scheduler0_reachable)
    as (Hpp & Hsubs & _).
  split; [exact Hpp |].
  destruct (Hsubs 9 ltac:(vm_compute; discriminate))
    as (_ & _ & Hpayee & _ & _ & Hfreq & Hmine & _).
  split; [exact Hpayee |]. split; [exact Hfreq |].
  apply Hmine. vm_compute. reflexivity.
Defined.

Lemma schedule_only_moves_forward_witness :
  exists st' ch',
    RecurringPayment.run Deployment.keccak256 Deployment.recover
      (Deployment.asScheduler Deployment.admin 999999) Deployment.scheduler0
      Deployment.chain0 (RecurringPayment.ExecuteRecurringPayment 9)
    = Ok (st', ch')
    /\ 5000 <= RecurringPayment.nextPaymentDue
                 (RecurringPayment.recurringPayments_at st' 9).
Proof.
  destruct (RecurringPayment.run Deployment.keccak256 Deployment.recover
              (Deployment.asScheduler Deployment.admin 999999)
              Deployment.scheduler0 Deployment.chain0
              (RecurringPayment.ExecuteRecurringPayment 9))
    as [[st' ch'] | e] eqn:Hrun; [| vm_compute in Hrun; discriminate Hrun].
  exists st', ch'. split; [reflexivity |].
  destruct (schedule_only_moves_forward _ _ _ _ _ _ _ _ 9
              scheduler0_reachable Hrun ltac:(vm_compute; discriminate))
    as [Hle _].
  etransitivity; [| exact Hle]. vm_compute. discriminate.
Defined.
